(** * The pipeline engine of readme_to_feishu, embedded in Rocq

    A shallow embedding of [pipeline/outcome.py], [pipeline/conditions.py],
    [pipeline/context.py], [pipeline/graph.py], [pipeline/engine.py],
    [pipeline/dot_parser.py], the handlers of [pipeline/handlers/], and of
    [services/run_pipeline.py] (the
    task table, [run_task], the appending of blocks) with the two services
    its tools call, [services/markdown_parser.py] and
    [services/block_converter.py]; followed by the properties of the
    specification that were checked against them, and by further properties
    read off the code.

    Conventions of the embedding.
    - A Python [str] is a [string]; a character stands for one code point
      below 256, and the character classes below ([isspace], [lower_char],
      [isword]) are Python's on those code points.
    - A Python [dict] whose order is observable is an association list in
      insertion order; one whose order is not observable is a [gmap].
    - [None] for a missing value is [VNone]; code that may raise returns a
      [res], whose [Raise] carries the exception. *)

From Stdlib Require Import ZArith String Ascii List Lia.
From stdpp Require Import base option list gmap strings.

(** * Python strings *)

Module PyStr.

(** [str.isspace] of a one-character string. *)
Definition isspace (c : ascii) : bool :=
  let n := N_of_ascii c in
  ((9 <=? n) && (n <=? 13) || (28 <=? n) && (n <=? 32)
   || (n =? 133) || (n =? 160))%N.

(** [str.lower] of a one-character string. *)
Definition lower_char (c : ascii) : ascii :=
  let n := N_of_ascii c in
  if ((65 <=? n) && (n <=? 90)
      || (192 <=? n) && (n <=? 222) && negb (n =? 215))%N
  then ascii_of_N (n + 32) else c.

Fixpoint lower (s : string) : string :=
  match s with
  | EmptyString => EmptyString
  | String c s' => String (lower_char c) (lower s')
  end.

(** [s.lstrip(chars)], the characters to drop given as a predicate. *)
Fixpoint lstrip_with (p : ascii → bool) (s : string) : string :=
  match s with
  | EmptyString => EmptyString
  | String c s' => if p c then lstrip_with p s' else s
  end.

(** [s.rstrip(chars)]. *)
Fixpoint rstrip_with (p : ascii → bool) (s : string) : string :=
  match s with
  | EmptyString => EmptyString
  | String c s' =>
      match rstrip_with p s' with
      | EmptyString => if p c then EmptyString else String c EmptyString
      | r => String c r
      end
  end.

Definition strip_with (p : ascii → bool) (s : string) : string :=
  rstrip_with p (lstrip_with p s).

(** [s.strip()], [s.lstrip()], [s.rstrip()]. *)
Definition strip : string → string := strip_with isspace.
Definition lstrip : string → string := lstrip_with isspace.
Definition rstrip : string → string := rstrip_with isspace.

(** [s.strip(c)] for a one-character [c]. *)
Definition strip_char (c : ascii) : string → string :=
  strip_with (λ x, Ascii.eqb x c).

(** [s.startswith(p)]. *)
Definition startswith (p s : string) : bool := String.prefix p s.

(** [s[n:]] and [s[:n]] for [0 <= n]. *)
Fixpoint drop (n : nat) (s : string) : string :=
  match n, s with
  | S n', String _ s' => drop n' s'
  | _, _ => s
  end.

Fixpoint take (n : nat) (s : string) : string :=
  match n, s with
  | S n', String c s' => String c (take n' s')
  | _, _ => EmptyString
  end.

(** [s[a:b]] for [0 <= a <= b]. *)
Definition slice (a b : nat) (s : string) : string := take (b - a) (drop a s).

(** [s.endswith(p)]. *)
Definition endswith (p s : string) : bool :=
  String.eqb (drop (String.length s - String.length p) s) p.

(** [s.find(sub)], [None] standing for -1. *)
Fixpoint find (sub s : string) : option nat :=
  if String.prefix sub s then Some 0%nat
  else match s with
       | EmptyString => None
       | String _ s' => S <$> find sub s'
       end.

(** [sub in s]. *)
Definition contains (sub s : string) : bool :=
  match find sub s with
  | Some _ => true
  | None => false
  end.

(** [s.split(sep, 1)]. *)
Definition split1 (sep s : string) : list string :=
  match find sep s with
  | None => [s]
  | Some i => [take i s; drop (i + String.length sep) s]
  end.

(** [s.partition(sep)]. *)
Definition partition (sep s : string) : string * string * string :=
  match find sep s with
  | None => (s, EmptyString, EmptyString)
  | Some i => (take i s, sep, drop (i + String.length sep) s)
  end.

(** [s.split(sep)] for a non-empty [sep]: [skip] counts the characters of a
    separator found earlier that are still to be passed over, [cur] holds the
    piece being read, last character first. *)
Fixpoint split_go (sep : string) (skip : nat) (cur : string) (s : string)
  : list string :=
  match s with
  | EmptyString => [String.rev cur]
  | String c s' =>
      match skip with
      | S k => split_go sep k cur s'
      | O =>
          if String.prefix sep s
          then String.rev cur :: split_go sep (String.length sep - 1) EmptyString s'
          else split_go sep 0 (String c cur) s'
      end
  end.

Definition split (sep s : string) : list string := split_go sep 0 EmptyString s.

(** [s.replace(old, new)] for a non-empty [old]. *)
Fixpoint replace_go (old new : string) (skip : nat) (s : string) : string :=
  match s with
  | EmptyString => EmptyString
  | String c s' =>
      match skip with
      | S k => replace_go old new k s'
      | O =>
          if String.prefix old s
          then new +:+ replace_go old new (String.length old - 1) s'
          else String c (replace_go old new 0 s')
      end
  end.

Definition replace (old new s : string) : string := replace_go old new 0 s.

(** [bool(s)]. *)
Definition truthy (s : string) : bool := negb (String.eqb s EmptyString).

(** The decimal digits of a natural number, most significant first; [fuel]
    bounds the number of digits. *)
Fixpoint digits_go (fuel : nat) (n : N) (acc : string) : string :=
  match fuel with
  | O => acc
  | S f =>
      let d := ascii_of_N (48 + n mod 10) in
      if (n <? 10)%N then String d acc
      else digits_go f (n / 10)%N (String d acc)
  end.

(** [str(n)] for an [int]. *)
Definition of_Z (z : Z) : string :=
  let n := Z.to_N (Z.abs z) in
  let ds := digits_go (S (N.to_nat (N.log2 n))) n EmptyString in
  if (z <? 0)%Z then String "-" ds else ds.

End PyStr.

(** * Exceptions, values *)

Inductive exn : Type :=
| ValueError (msg : string)
| RuntimeError (msg : string)
| IndexError (msg : string)
| KeyError (msg : string)
| TypeError (msg : string)
| OtherError (msg : string).

(** [str(e)]. *)
Definition exn_message (e : exn) : string :=
  match e with
  | ValueError m | RuntimeError m | IndexError m | KeyError m | TypeError m
  | OtherError m => m
  end.

(** The result of code that may raise. *)
Inductive res (A : Type) : Type :=
| Ok (a : A)
| Raise (e : exn).
Arguments Ok {A} a.
Arguments Raise {A} e.

Definition res_bind {A B : Type} (m : res A) (k : A → res B) : res B :=
  match m with
  | Ok a => k a
  | Raise e => Raise e
  end.

Notation "'let*' x ':=' m 'in' k" := (res_bind m (λ x, k))
  (at level 10, x pattern, m at level 100, k at level 200).

(** What the pipeline observes of a Python object: whether it is [None], a
    [bool], an [int] or a [str]. A [float] is kept by what is read of it,
    [str(v)] and [int(v)] ([None] when [int(v)] raises); binary floating point
    is not embedded. Of any other object only [str(v)], [bool(v)] and what
    [json.dumps] makes of it are ever used, and [VObj] records these three:
    [dumps] is the text json writes for the object where it stands in the
    dict of an outcome, or the exception json raises on it ([TypeError] for
    an object it cannot serialize). *)
Inductive value : Type :=
| VNone
| VBool (b : bool)
| VInt (n : Z)
| VStr (s : string)
| VFloat (text : string) (trunc : option Z)
| VObj (text : string) (truth : bool) (dumps : res string).

(** [str(v)]. *)
Definition py_str (v : value) : string :=
  match v with
  | VNone => "None"
  | VBool true => "True"
  | VBool false => "False"
  | VInt n => PyStr.of_Z n
  | VStr s => s
  | VFloat text _ => text
  | VObj text _ _ => text
  end.

(** [bool(v)]. *)
Definition py_bool (v : value) : bool :=
  match v with
  | VNone => false
  | VBool b => b
  | VInt n => negb (n =? 0)%Z
  | VStr s => PyStr.truthy s
  | VFloat text _ => negb (String.eqb text "0.0" || String.eqb text "-0.0")
  | VObj _ truth _ => truth
  end.

(** [v is not None]. *)
Definition is_not_None (v : value) : bool :=
  match v with VNone => false | _ => true end.

(** [a or b]. *)
Definition py_or (a b : value) : value := if py_bool a then a else b.

(** Characters that a string literal cannot hold as they are. *)
Definition quote : ascii := "034"%char.
Definition backslash : ascii := "092"%char.
Definition newline : ascii := "010"%char.
Definition tab : ascii := "009"%char.

(** [l[i]]. *)
Definition index {A : Type} (l : list A) (i : nat) : res A :=
  match l !! i with
  | Some a => Ok a
  | None => Raise (IndexError "list index out of range")
  end.

(** A list comprehension [[x for x in l if p(x)]] whose test may raise. *)
Fixpoint filter_res {A : Type} (p : A → res bool) (l : list A) : res (list A) :=
  match l with
  | [] => Ok []
  | x :: l' =>
      let* b := p x in
      let* r := filter_res p l' in
      Ok (if b then x :: r else r)
  end.

(** * [pipeline/outcome.py] *)

Inductive StageStatus : Type := SUCCESS | FAIL | PARTIAL_SUCCESS | RETRY | SKIPPED.

Global Instance StageStatus_eq_dec : EqDecision StageStatus.
Proof. solve_decision. Defined.

Module Status.
(** [status.value]. *)
Definition value (s : StageStatus) : string :=
  match s with
  | SUCCESS => "success"
  | FAIL => "fail"
  | PARTIAL_SUCCESS => "partial_success"
  | RETRY => "retry"
  | SKIPPED => "skipped"
  end.
End Status.

Module Outcome.
Record t : Type := mk {
  status : StageStatus;
  preferred_label : string;
  suggested_next_ids : option (list string);
  context_updates : option (list (string * value));
  notes : string;
  failure_reason : string;
}.

(** [Outcome(status=s)] with the dataclass defaults. *)
Definition default (s : StageStatus) : t :=
  mk s "" None None "" "".
End Outcome.

(** * [pipeline/context.py] *)

Module Context.
Record t : Type := mk {
  _values : gmap string value;
  _logs : list string;
}.

Definition empty : t := mk ∅ [].

Definition set (c : t) (key : string) (v : value) : t :=
  mk (<[key := v]> (_values c)) (_logs c).

(** [self._values.get(key, None)]. *)
Definition get (c : t) (key : string) : value :=
  match _values c !! key with
  | Some v => v
  | None => VNone
  end.

Definition get_string (c : t) (key : string) : string :=
  match get c key with
  | VNone => ""
  | v => py_str v
  end.

(** [dict.update] with the items of a dict literal, in order. *)
Definition update (m : gmap string value) (items : list (string * value))
  : gmap string value :=
  fold_left (λ acc kv, <[kv.1 := kv.2]> acc) items m.

Definition apply_updates (c : t) (updates : option (list (string * value))) : t :=
  match updates with
  | None | Some [] => c
  | Some items => mk (update (_values c) items) (_logs c)
  end.
End Context.

(** * [pipeline/conditions.py] *)

Definition resolve_key (key : string) (outcome : Outcome.t) (context : Context.t)
  : string :=
  let key := PyStr.strip key in
  if String.eqb key "outcome" then Status.value (Outcome.status outcome)
  else if String.eqb key "preferred_label" then Outcome.preferred_label outcome
  else if PyStr.startswith "context." key then
    let k := PyStr.strip (PyStr.drop 9 key) in
    let v := Context.get context k in
    if is_not_None v then py_str v
    else
      let v := Context.get context key in
      if is_not_None v then py_str v else ""
  else
    let v := Context.get context key in
    if is_not_None v then py_str v else "".

Definition evaluate_clause (clause : string) (outcome : Outcome.t)
    (context : Context.t) : res bool :=
  let clause := PyStr.strip clause in
  if PyStr.contains "!=" clause then
    let parts := PyStr.split1 "!=" clause in
    let* p0 := index parts 0 in
    let key := PyStr.strip p0 in
    let* p1 := index parts 1 in
    let val := PyStr.strip_char quote (PyStr.strip p1) in
    Ok (negb (String.eqb (resolve_key key outcome context) val))
  else if PyStr.contains "=" clause then
    let parts := PyStr.split1 "=" clause in
    let* p0 := index parts 0 in
    let key := PyStr.strip p0 in
    let* p1 := index parts 1 in
    let val := PyStr.strip_char quote (PyStr.strip p1) in
    Ok (String.eqb (resolve_key key outcome context) val)
  else Ok (PyStr.truthy (resolve_key clause outcome context)).

(** The loop of [evaluate_condition] over the clauses. *)
Fixpoint all_clauses (clauses : list string) (outcome : Outcome.t)
    (context : Context.t) : res bool :=
  match clauses with
  | [] => Ok true
  | clause :: rest =>
      let* b := evaluate_clause clause outcome context in
      if b then all_clauses rest outcome context else Ok false
  end.

Definition evaluate_condition (condition : string) (outcome : Outcome.t)
    (context : Context.t) : res bool :=
  if negb (PyStr.truthy condition) || negb (PyStr.truthy (PyStr.strip condition))
  then Ok true
  else
    let clauses :=
      List.map PyStr.strip
        (List.filter (λ c, PyStr.truthy (PyStr.strip c)) (PyStr.split "&&" condition)) in
    all_clauses clauses outcome context.

Definition ctx_of (items : list (string * value)) : Context.t :=
  Context.mk (Context.update ∅ items) [].

(** * [pipeline/graph.py] *)

(** [d.get(key)] on a dict kept as an association list, [None] when absent. *)
Fixpoint dict_get {A : Type} (d : list (string * A)) (key : string) : option A :=
  match d with
  | [] => None
  | (k, v) :: d' => if String.eqb k key then Some v else dict_get d' key
  end.

(** [d[key] = v]: a key already present keeps its place. *)
Fixpoint dict_set {A : Type} (d : list (string * A)) (key : string) (v : A)
  : list (string * A) :=
  match d with
  | [] => [(key, v)]
  | (k, w) :: d' =>
      if String.eqb k key then (k, v) :: d' else (k, w) :: dict_set d' key v
  end.

Module Node.
Record t : Type := mk {
  id : string;
  label : string;
  shape : string;
  type : string;
  prompt : string;
  attrs : gmap string value;
}.

Definition display_name (n : t) : string :=
  if PyStr.truthy (label n) then label n else id n.

(** [node.attrs.get(key)]. *)
Definition attr (n : t) (key : string) : value :=
  match attrs n !! key with
  | Some v => v
  | None => VNone
  end.
End Node.

Module Edge.
Record t : Type := mk {
  from_node : string;
  to_node : string;
  label : string;
  condition : string;
  weight : Z;
}.
End Edge.

Module Graph.
Record t : Type := mk {
  name : string;
  goal : string;
  label : string;
  nodes : list (string * Node.t);
  edges : list Edge.t;
  graph_attrs : gmap string value;
}.

Definition get_node (g : t) (node_id : string) : option Node.t :=
  dict_get (nodes g) node_id.

Definition outgoing_edges (g : t) (node_id : string) : list Edge.t :=
  List.filter (λ e, String.eqb (Edge.from_node e) node_id) (edges g).

Definition find_start_node (g : t) : option string :=
  match List.find (λ kv, String.eqb (Node.shape kv.2) "Mdiamond") (nodes g) with
  | Some (nid, _) => Some nid
  | None =>
      match get_node g "start", get_node g "Start" with
      | Some _, _ => Some "start"
      | None, Some _ => Some "Start"
      | None, None => None
      end
  end.

Definition is_terminal (g : t) (node_id : string) : bool :=
  match get_node g node_id with
  | None => false
  | Some node =>
      if String.eqb (Node.shape node) "Msquare" then true
      else
        let l := PyStr.lower node_id in
        String.eqb l "exit" || String.eqb l "end"
  end.
End Graph.

(** * [pipeline/engine.py]: edge selection *)

Definition _normalize_label (label : string) : res string :=
  let s := PyStr.lower (PyStr.strip label) in
  let* s :=
    if PyStr.startswith "[" s && PyStr.contains "]" (PyStr.take 4 s)
    then let* r := index (PyStr.split1 "]" s) 1 in Ok (PyStr.strip r)
    else Ok s in
  let s :=
    if (2 <=? String.length s)%nat && String.eqb (PyStr.slice 1 2 s) ")"
    then PyStr.strip (PyStr.drop 2 s) else s in
  let s :=
    if (3 <=? String.length s)%nat && String.eqb (PyStr.slice 1 3 s) " -"
    then PyStr.strip (PyStr.drop 3 s) else s in
  Ok (PyStr.strip s).

(** [sorted(l, key=...)]: the stable sort, [lt x y] standing for
    [key(x) < key(y)]. An element is inserted in front of the elements that
    follow it in [l] and whose key is not smaller, so equal keys keep their
    order. *)
Section Sorted.
Context {A : Type} (lt : A → A → bool).

Fixpoint insert_sorted (x : A) (l : list A) : list A :=
  match l with
  | [] => [x]
  | y :: l' => if lt y x then y :: insert_sorted x l' else x :: l
  end.

Fixpoint sorted (l : list A) : list A :=
  match l with
  | [] => []
  | x :: l' => insert_sorted x (sorted l')
  end.
End Sorted.

(** The order of the keys [(-e.weight, e.to_node)]. *)
Definition edge_key_lt (a b : Edge.t) : bool :=
  let ka := (- Edge.weight a)%Z in
  let kb := (- Edge.weight b)%Z in
  (ka <? kb)%Z || ((ka =? kb)%Z && String.ltb (Edge.to_node a) (Edge.to_node b)).

(** [sorted(l, key=lambda e: (-e.weight, e.to_node))[0]]. *)
Definition first_by_weight (l : list Edge.t) : res Edge.t :=
  index (sorted edge_key_lt l) 0.

(** [for x in l: if p(x): return x], [None] when the loop ends. *)
Fixpoint find_res {A : Type} (p : A → res bool) (l : list A) : res (option A) :=
  match l with
  | [] => Ok None
  | x :: l' =>
      let* b := p x in
      if b then Ok (Some x) else find_res p l'
  end.

(** Step 1 of [select_edge]: the test of the comprehension. *)
Definition guard_matches (outcome : Outcome.t) (context : Context.t) (e : Edge.t)
  : res bool :=
  if PyStr.truthy (Edge.condition e)
  then evaluate_condition (Edge.condition e) outcome context
  else Ok false.

(** Step 2: the loop over the edges for a normalized preferred label. *)
Definition label_matches (pl : string) (e : Edge.t) : res bool :=
  let* l := _normalize_label (Edge.label e) in
  Ok (String.eqb l pl).

(** Step 3: the two nested loops over the suggested ids and the edges. *)
Fixpoint first_suggested (ids : list string) (edges : list Edge.t) : option Edge.t :=
  match ids with
  | [] => None
  | sid :: ids' =>
      match List.find (λ e, String.eqb (Edge.to_node e) sid) edges with
      | Some e => Some e
      | None => first_suggested ids' edges
      end
  end.

Definition select_edge (node : Node.t) (outcome : Outcome.t) (context : Context.t)
    (graph : Graph.t) : res (option Edge.t) :=
  let edges := Graph.outgoing_edges graph (Node.id node) in
  match edges with
  | [] => Ok None
  | _ :: _ =>
      let* condition_matched := filter_res (guard_matches outcome context) edges in
      match condition_matched with
      | _ :: _ => let* e := first_by_weight condition_matched in Ok (Some e)
      | [] =>
          let* labelled :=
            if PyStr.truthy (Outcome.preferred_label outcome) then
              let* pl := _normalize_label (Outcome.preferred_label outcome) in
              find_res (label_matches pl) edges
            else Ok None in
          match labelled with
          | Some e => Ok (Some e)
          | None =>
              let suggested :=
                match Outcome.suggested_next_ids outcome with
                | None | Some [] => None
                | Some ids => first_suggested ids edges
                end in
              match suggested with
              | Some e => Ok (Some e)
              | None =>
                  let unconditional :=
                    List.filter (λ e, negb (PyStr.truthy (Edge.condition e))) edges in
                  match unconditional with
                  | _ :: _ => let* e := first_by_weight unconditional in Ok (Some e)
                  | [] => let* e := first_by_weight edges in Ok (Some e)
                  end
              end
          end
      end
  end.

(** * [Outcome.to_dict] and [json.dumps]

    [json.dumps(outcome.to_dict(), ensure_ascii=False, indent=2)], the text
    of the [status.json] of a stage. json serializes [None], booleans,
    numbers and strings, and lists and dicts of what it serializes; on another
    object it raises, and the call raises with it. The dict of an outcome has
    six entries, of which only the context updates can hold such an object. *)

(** A string as json writes it: the quote, the backslash and the control
    characters escaped, every other character kept. *)
Definition hex_digit (n : N) : ascii :=
  ascii_of_N (if (n <? 10)%N then 48 + n else 87 + n).

Definition json_char (c : ascii) : string :=
  let n := N_of_ascii c in
  let escaped (x : string) := String backslash x in
  if Ascii.eqb c quote then escaped (String quote EmptyString)
  else if Ascii.eqb c backslash then escaped (String backslash EmptyString)
  else if (n =? 8)%N then escaped "b"
  else if (n =? 12)%N then escaped "f"
  else if (n =? 10)%N then escaped "n"
  else if (n =? 13)%N then escaped "r"
  else if (n =? 9)%N then escaped "t"
  else if (n <? 32)%N then
    String backslash
      ("u00" +:+ String (hex_digit (n / 16)) (String (hex_digit (n mod 16)) EmptyString))
  else String c EmptyString.

Fixpoint json_chars (s : string) : string :=
  match s with
  | EmptyString => EmptyString
  | String c r => json_char c +:+ json_chars r
  end.

Definition json_string (s : string) : string :=
  String quote (json_chars s +:+ String quote EmptyString).

(** A value of the context updates. *)
Definition json_value (v : value) : res string :=
  match v with
  | VNone => Ok "null"
  | VBool true => Ok "true"
  | VBool false => Ok "false"
  | VInt n => Ok (PyStr.of_Z n)
  | VStr s => Ok (json_string s)
  | VFloat text _ =>
      Ok (if String.eqb text "nan" then "NaN"
          else if String.eqb text "inf" then "Infinity"
          else if String.eqb text "-inf" then "-Infinity"
          else text)
  | VObj _ _ dumps => dumps
  end.

(** The entries of the context updates, in the order of the dict; the first
    value json cannot serialize ends the call. *)
Fixpoint json_entries (items : list (string * value)) : res (list string) :=
  match items with
  | [] => Ok []
  | (k, v) :: rest =>
      let* text := json_value v in
      let* texts := json_entries rest in
      Ok ((json_string k +:+ ": " +:+ text) :: texts)
  end.

(** A list or a dict inside the dict of the outcome: its items on a line
    each, four blanks in; an empty one stays on the line. *)
Fixpoint json_lines (items : list string) : string :=
  match items with
  | [] => EmptyString
  | [x] => x
  | x :: rest => x +:+ "," +:+ String newline ("    " +:+ json_lines rest)
  end.

Definition json_nested (opening closing : string) (items : list string) : string :=
  match items with
  | [] => opening +:+ closing
  | _ :: _ =>
      opening +:+ String newline ("    " +:+ json_lines items)
      +:+ String newline ("  " +:+ closing)
  end.

(** [dict(items)]: a key given twice keeps its first place and its last
    value. *)
Definition dict_of {A : Type} (items : list (string * A)) : list (string * A) :=
  fold_left (λ d kv, dict_set d kv.1 kv.2) items [].

Definition dumps_outcome (o : Outcome.t) : res string :=
  let entry (key text : string) := json_string key +:+ ": " +:+ text in
  let ids := default [] (Outcome.suggested_next_ids o) in
  let* updates := json_entries (dict_of (default [] (Outcome.context_updates o))) in
  let entries :=
    [entry "outcome" (json_string (Status.value (Outcome.status o)));
     entry "preferred_next_label" (json_string (Outcome.preferred_label o));
     entry "suggested_next_ids" (json_nested "[" "]" (List.map json_string ids));
     entry "context_updates" (json_nested "{" "}" updates);
     entry "notes" (json_string (Outcome.notes o));
     entry "failure_reason" (json_string (Outcome.failure_reason o))] in
  Ok ("{" +:+ String newline ("  " +:+ foldr (λ e acc, e +:+ acc) EmptyString
        (match entries with
         | [] => []
         | e :: rest => e :: List.map (λ x, "," +:+ String newline ("  " +:+ x)) rest
         end))
      +:+ String newline "}").

(** * [pipeline/engine.py]: the engine

    The handlers act on a world [W] (file system, processes, the LLM
    backend), which the embedding threads through the run. The events passed
    to [on_event] are collected in the order of emission. *)

Module Event.
Record t : Type := mk {
  kind : string;
  data : list (string * value);
}.
End Event.

Definition SHAPE_TO_TYPE : list (string * string) :=
  [("Mdiamond", "start"); ("Msquare", "exit"); ("box", "codergen");
   ("parallelogram", "tool"); ("diamond", "conditional");
   ("hexagon", "wait.human"); ("component", "parallel");
   ("tripleoctagon", "parallel.fan_in"); ("house", "stack.manager_loop")].

(** What [subprocess.run] does: it returns a completed process, raises
    [TimeoutExpired], or raises another exception. *)
Inductive proc_result : Type :=
| Completed (returncode : Z) (stdout stderr : string)
| TimeoutExpired
| SpawnError (e : exn).

Section Engine.
Context {W : Type}.

(** [handler.execute(node, context, graph, logs_root)]: the outcome or the
    exception, the context and the world as the call leaves them. *)
Definition Handler : Type :=
  Node.t → Context.t → Graph.t → W → res Outcome.t * Context.t * W.

(** [handlers/start.py], [handlers/exit.py], [_ConditionalHandler]. *)
Definition StartHandler : Handler := λ node context graph w,
  (Ok (Outcome.mk SUCCESS "" None None ("Start: " +:+ Node.id node) ""), context, w).

Definition ExitHandler : Handler := λ node context graph w,
  (Ok (Outcome.mk SUCCESS "" None None ("Exit: " +:+ Node.id node) ""), context, w).

Definition _ConditionalHandler : Handler := λ node context graph w,
  (Ok (Outcome.mk SUCCESS "" None None ("Conditional: " +:+ Node.id node) ""), context, w).

(** ** [handlers/tool.py] *)

(** [subprocess.run(command, shell=True, capture_output=True, text=True,
    timeout=t, cwd=cwd)], as a function of the command, the working
    directory, the timeout in seconds and the world. *)
Variable subprocess_run : value → value → Z → W → proc_result * W.

Definition ToolExecutor : Type :=
  string → Node.t → Context.t → Graph.t → W → res Outcome.t * Context.t * W.

Definition ToolHandler_execute (executors : gmap string ToolExecutor) : Handler :=
  λ node context graph w,
  let tool_name := py_or (Node.attr node "tool") (Node.attr node "tool_command") in
  let registered :=
    match tool_name with
    | VStr name => option_map (λ ex, (name, ex)) (executors !! name)
    | _ => None
    end in
  match registered with
  | Some (name, executor) =>
      match executor name node context graph w with
      | (Ok outcome, context', w') => (Ok outcome, context', w')
      | (Raise e, context', w') =>
          (Ok (Outcome.mk FAIL "" None None "" (exn_message e)), context', w')
      end
  | None =>
      let command :=
        match Node.attrs node !! "tool_command" with
        | Some v => v
        | None => VStr ""
        end in
      if negb (py_bool command) then
        (Ok (Outcome.mk FAIL "" None None ""
               "No tool_command or registered tool specified"), context, w)
      else
        let cwd := py_or (Context.get context "work_dir") (VStr ".") in
        match subprocess_run command cwd 300 w with
        | (Completed returncode stdout stderr, w') =>
            let out := stdout +:+ stderr in
            (Ok (Outcome.mk
                   (if (returncode =? 0)%Z then SUCCESS else FAIL)
                   "" None
                   (Some [("tool.output", VStr out)])
                   ("Tool completed: " +:+ py_str command)
                   (if (returncode =? 0)%Z then ""
                    else if PyStr.truthy out then out
                         else "exit code " +:+ PyStr.of_Z returncode)),
             context, w')
        | (TimeoutExpired, w') =>
            (Ok (Outcome.mk FAIL "" None None "" "Tool timed out"), context, w')
        | (SpawnError e, w') =>
            (Ok (Outcome.mk FAIL "" None None "" (exn_message e)), context, w')
        end
  end.

(** ** [PipelineEngine] *)

Record PipelineEngine : Type := mkEngine {
  _handlers : gmap string Handler;
}.

(** [PipelineEngine.__init__], with the codergen handler already built. *)
Definition new_engine (codergen : Handler) (tool_executors : gmap string ToolExecutor)
  : PipelineEngine :=
  mkEngine
    (<["start" := StartHandler]>
       (<["exit" := ExitHandler]>
          (<["codergen" := codergen]>
             (<["tool" := ToolHandler_execute tool_executors]>
                (<["conditional" := _ConditionalHandler]> ∅))))).

Definition _resolve_handler (self : PipelineEngine) (node : Node.t) : res Handler :=
  let by_type :=
    if PyStr.truthy (Node.type node) then _handlers self !! Node.type node else None in
  match by_type with
  | Some h => Ok h
  | None =>
      let handler_type :=
        match dict_get SHAPE_TO_TYPE (Node.shape node) with
        | Some t => t
        | None => "codergen"
        end in
      match _handlers self !! "codergen" with
      | None => Raise (KeyError "codergen")
      | Some fallback =>
          Ok (match _handlers self !! handler_type with
              | Some h => h
              | None => fallback
              end)
      end
  end.

(** The files under [logs_root], in the directory of a stage, which bears
    the id of its node: [stage_dir.mkdir(parents=True, exist_ok=True)],
    [(stage_dir / name).exists()] and [(stage_dir / name).write_text(text,
    encoding="utf-8")], as functions of the world. The errors of the file
    system are not embedded: the three calls return. *)
Variable mkdir : string → W → W.
Variable path_exists : string → string → W → bool.
Variable write_text : string → string → string → W → W.

(** What the engine writes after a stage: the directory of the stage and,
    when it is absent and the status is not FAIL, its [status.json]. The
    call of [json.dumps] stands between the two events of the stage and
    outside any [try]: what it raises ends the run. *)
Definition log_stage (node : Node.t) (outcome : Outcome.t) (w : W) : res unit * W :=
  let w := mkdir (Node.id node) w in
  if negb (path_exists (Node.id node) "status.json" w)
     && negb (bool_decide (Outcome.status outcome = FAIL))
  then
    match dumps_outcome outcome with
    | Ok text => (Ok tt, write_text (Node.id node) "status.json" text w)
    | Raise e => (Raise e, w)
    end
  else (Ok tt, w).

(** The local variables of [run] at the head of its loop. *)
Record LoopState : Type := mkState {
  current_id : string;
  node_outcomes : list (string * Outcome.t);
  last_outcome : option Outcome.t;
  ctx : Context.t;
  world : W;
  emitted : list Event.t;
}.

(** How [run] ends: the events emitted, the context and the world it leaves,
    and the outcome it returns or the exception it raises. *)
Record Run : Type := mkRun {
  run_events : list Event.t;
  run_ctx : Context.t;
  run_world : W;
  run_result : res Outcome.t;
}.

(** The goal gate loop: the first recorded outcome of a goal-gated node that
    is neither SUCCESS nor PARTIAL_SUCCESS. *)
Fixpoint goal_gate_failure (graph : Graph.t) (items : list (string * Outcome.t))
  : option (string * Outcome.t) :=
  match items with
  | [] => None
  | (nid, oc) :: rest =>
      match Graph.get_node graph nid with
      | None => goal_gate_failure graph rest
      | Some n =>
          if py_bool (Node.attr n "goal_gate")
             && negb (bool_decide (Outcome.status oc = SUCCESS)
                      || bool_decide (Outcome.status oc = PARTIAL_SUCCESS))
          then Some (nid, oc)
          else goal_gate_failure graph rest
      end
  end.

Definition goal_gate_outcome (nid : string) (oc : Outcome.t) : Outcome.t :=
  Outcome.mk FAIL "" None None ""
    ("Goal gate unsatisfied at node '" +:+ nid +:+ "': "
     +:+ (if PyStr.truthy (Outcome.failure_reason oc)
          then Outcome.failure_reason oc
          else Status.value (Outcome.status oc))).

(** Failure routing and edge selection after a stage (the end of the loop
    body). *)
Definition route (node : Node.t) (outcome : Outcome.t) (context : Context.t)
    (graph : Graph.t) : res (option Edge.t) :=
  if bool_decide (Outcome.status outcome = FAIL) then
    let* fail_edges :=
      filter_res (guard_matches outcome context)
        (Graph.outgoing_edges graph (Node.id node)) in
    match fail_edges with
    | _ :: _ => let* e := first_by_weight fail_edges in Ok (Some e)
    | [] =>
        Raise (RuntimeError
                 ("Stage '" +:+ Node.id node +:+ "' failed: "
                  +:+ Outcome.failure_reason outcome))
    end
  else select_edge node outcome context graph.

(** The context after a stage: its updates applied, then the keys [outcome]
    and, when the label is not empty, [preferred_label]. *)
Definition record_outcome (context : Context.t) (outcome : Outcome.t) : Context.t :=
  let ctx2 := Context.apply_updates context (Outcome.context_updates outcome) in
  let ctx3 :=
    Context.set ctx2 "outcome" (VStr (Status.value (Outcome.status outcome))) in
  if PyStr.truthy (Outcome.preferred_label outcome)
  then Context.set ctx3 "preferred_label" (VStr (Outcome.preferred_label outcome))
  else ctx3.

(** Leaving the loop by [break]. *)
Definition completed (st : LoopState) : Run :=
  mkRun
    (emitted st ++ [Event.mk "PipelineCompleted" [("current_node", VStr (current_id st))]])
    (ctx st) (world st)
    (Ok (match last_outcome st with
         | Some o => o
         | None => Outcome.mk SUCCESS "" None None "Pipeline completed" ""
         end)).

(** One pass through the body of [while True]: the state at the head of the
    next pass, or the end of the run. *)
Definition loop_body (self : PipelineEngine) (graph : Graph.t) (st : LoopState)
  : LoopState + Run :=
  match Graph.get_node graph (current_id st) with
  | None =>
      inr (mkRun (emitted st) (ctx st) (world st)
             (Raise (RuntimeError ("Node not found: " +:+ current_id st))))
  | Some node =>
      if Graph.is_terminal graph (current_id st) then
        match goal_gate_failure graph (node_outcomes st) with
        | Some (nid, oc) =>
            let fail := goal_gate_outcome nid oc in
            inr (mkRun
                   (emitted st
                    ++ [Event.mk "PipelineFailed"
                          [("node_id", VStr nid);
                           ("reason", VStr (Outcome.failure_reason fail))]])
                   (ctx st) (world st) (Ok fail))
        | None => inr (completed st)
        end
      else
        match _resolve_handler self node with
        | Raise e => inr (mkRun (emitted st) (ctx st) (world st) (Raise e))
        | Ok handler =>
            let started :=
              Event.mk "StageStarted"
                [("node_id", VStr (Node.id node));
                 ("label", VStr (Node.display_name node))] in
            match handler node (ctx st) graph (world st) with
            | (Raise e, ctx1, w1) =>
                inr (mkRun (emitted st ++ [started]) ctx1 w1 (Raise e))
            | (Ok outcome, ctx1, w1) =>
                let outcomes := dict_set (node_outcomes st) (current_id st) outcome in
                let ctx4 := record_outcome ctx1 outcome in
                match log_stage node outcome w1 with
                | (Raise e, w2) => inr (mkRun (emitted st ++ [started]) ctx4 w2 (Raise e))
                | (Ok _, w2) =>
                    let finished :=
                      Event.mk "StageCompleted"
                        [("node_id", VStr (Node.id node));
                         ("outcome", VStr (Status.value (Outcome.status outcome)));
                         ("notes", VStr (Outcome.notes outcome))] in
                    let events := emitted st ++ [started; finished] in
                    match route node outcome ctx4 graph with
                    | Raise e => inr (mkRun events ctx4 w2 (Raise e))
                    | Ok None =>
                        inr (completed
                               (mkState (current_id st) outcomes (Some outcome) ctx4 w2
                                  events))
                    | Ok (Some next_edge) =>
                        inl (mkState (Edge.to_node next_edge) outcomes (Some outcome)
                               ctx4 w2 events)
                    end
                end
            end
        end
  end.

(** [while True], bounded by [fuel] passes; [None] when the fuel runs out. *)
Fixpoint loop (self : PipelineEngine) (graph : Graph.t) (fuel : nat) (st : LoopState)
  : option Run :=
  match fuel with
  | O => None
  | S fuel' =>
      match loop_body self graph st with
      | inr r => Some r
      | inl st' => loop self graph fuel' st'
      end
  end.

(** The state in which [run] enters its loop. *)
Definition initial_state (graph : Graph.t) (context : option Context.t) (w : W)
    (start_id : string) : LoopState :=
  let c := match context with Some c => c | None => Context.empty end in
  let c := Context.set c "graph.goal" (VStr (Graph.goal graph)) in
  let c := Context.set c "graph.label" (VStr (Graph.label graph)) in
  mkState start_id [] None c w [].

Definition run (self : PipelineEngine) (graph : Graph.t) (context : option Context.t)
    (w : W) (fuel : nat) : option Run :=
  match Graph.find_start_node graph with
  | Some start_id =>
      if PyStr.truthy start_id
      then loop self graph fuel (initial_state graph context w start_id)
      else
        let st := initial_state graph context w start_id in
        Some (mkRun [] (ctx st) w
                (Raise (ValueError "No start node (shape=Mdiamond or id=start) found")))
  | None =>
      let st := initial_state graph context w "" in
      Some (mkRun [] (ctx st) w
              (Raise (ValueError "No start node (shape=Mdiamond or id=start) found")))
  end.

(** The states a run passes through at the head of its loop. *)
Inductive reaches (self : PipelineEngine) (graph : Graph.t)
  : LoopState → LoopState → Prop :=
| reaches_here st : reaches self graph st st
| reaches_step st st' st'' :
    loop_body self graph st = inl st' →
    reaches self graph st' st'' →
    reaches self graph st st''.

End Engine.

(** * [pipeline/dot_parser.py]

    Each [re.match] of the parser is written out as a function of the text
    it is applied to. A greedy [\s*] or [\w+] followed by a character of
    another class never gives a character back, so it is the longest run;
    the one pattern where backtracking shows, in the [key = value]
    statement, is written out there. *)

Module Re.

(** [\w] on a code point below 256: [str.isalnum] or an underscore. *)
Definition isword (c : ascii) : bool :=
  let n := N_of_ascii c in
  ((48 <=? n) && (n <=? 57) || (65 <=? n) && (n <=? 90) || (n =? 95)
   || (97 <=? n) && (n <=? 122) || (n =? 170) || (n =? 178) || (n =? 179)
   || (n =? 181) || (n =? 185) || (n =? 186) || (188 <=? n) && (n <=? 190)
   || (192 <=? n) && (n <=? 214) || (216 <=? n) && (n <=? 246) || (248 <=? n))%N.

(** The length of the longest prefix whose characters satisfy [p]. *)
Fixpoint span_len (p : ascii → bool) (s : string) : nat :=
  match s with
  | String c r => if p c then S (span_len p r) else O
  | EmptyString => O
  end.

(** The matchers return what is left of the text after the match;
    [consumed s r] is then the end of a match that started [s] and left [r]. *)
Definition consumed (s r : string) : nat := String.length s - String.length r.

(** [\s*]. *)
Definition ws (s : string) : string := PyStr.lstrip s.

(** [(\w+)]: the group and the rest. *)
Definition word (s : string) : option (string * string) :=
  let n := span_len isword s in
  if (n =? 0)%nat then None else Some (PyStr.take n s, PyStr.drop n s).

(** A literal. *)
Definition lit (l s : string) : option string :=
  if String.prefix l s then Some (PyStr.drop (String.length l) s) else None.

(** An optional literal. *)
Definition opt (l s : string) : string :=
  match lit l s with
  | Some r => r
  | None => s
  end.

(** [\[(.*?)\]] with DOTALL: the group runs to the first closing bracket. *)
Definition block (s : string) : option (string * string) :=
  r ← lit "[" s;
  i ← PyStr.find "]" r;
  Some (PyStr.take i r, PyStr.drop (S i) r).

(** [digraph\s+(\w+)\s*\{]: the name and the end of the match. *)
Definition digraph (text : string) : option (string * nat) :=
  r ← lit "digraph" text;
  if (span_len PyStr.isspace r =? 0)%nat then None
  else
    '(name, r) ← word (ws r);
    r ← lit "{" (ws r);
    Some (name, consumed text r).

(** [kw\s*\[(.*?)\]] for [kw] one of graph, node, edge: group 1 and the end. *)
Definition keyword_block (kw rest : string) : option (string * nat) :=
  r ← lit kw rest;
  '(g, r) ← block (ws r);
  Some (g, consumed rest r).

(** [(\w+)\s*=\s*([^;]+);?]: groups 1 and 2 and the end. When no character
    other than a semicolon follows the blanks after the equals sign, the
    blanks give their last character back to group 2. *)
Definition decl (rest : string) : option (string * string * nat) :=
  '(k, r) ← word rest;
  r ← lit "=" (ws r);
  let r' := ws r in
  let n := span_len (λ c, negb (Ascii.eqb c ";")) r' in
  let blanks := (String.length r - String.length r')%nat in
  if (0 <? n)%nat then
    Some (k, PyStr.take n r', consumed rest (opt ";" (PyStr.drop n r')))
  else if (0 <? blanks)%nat then
    Some (k, PyStr.take 1 (PyStr.drop (blanks - 1) r), consumed rest (opt ";" r'))
  else None.

(** [(\w+)\s*\[]: group 1 and the end. *)
Definition node_start (rest : string) : option (string * nat) :=
  '(nid, r) ← word rest;
  r ← lit "[" (ws r);
  Some (nid, consumed rest r).

(** [(\s*\[(.*?)\])?;?] at the end of the two edge patterns: group 4 (or 3),
    [None] when the optional group takes no part in the match, and the rest. *)
Definition edge_tail (r : string) : option string * string :=
  match block (ws r) with
  | Some (g, r') => (Some g, opt ";" r')
  | None => (None, opt ";" r)
  end.

(** [(\w+)\s*->\s*(\w+)(\s*\[(.*?)\])?;?]: groups 1, 2 and 4 and the end. *)
Definition edge_match (rest : string) : option (string * string * option string * nat) :=
  '(from_id, r) ← word rest;
  r ← lit "->" (ws r);
  '(to_id, r) ← word (ws r);
  let '(attr_str, r) := edge_tail r in
  Some (from_id, to_id, attr_str, consumed rest r).

(** [->\s*(\w+)(\s*\[(.*?)\])?;?]: group 1 and the end; it matches whenever
    [->\s*\w+] does. *)
Definition next_arrow (rest_check : string) : option (string * nat) :=
  r ← lit "->" rest_check;
  '(to_id, r) ← word (ws r);
  let '(_, r) := edge_tail r in
  Some (to_id, consumed rest_check r).

(** [(\w+)\s*;?\s*]: group 1 and the end. *)
Definition node_bare (rest : string) : option (string * nat) :=
  '(nid, r) ← word rest;
  Some (nid, consumed rest (ws (opt ";" (ws r)))).

End Re.

(** [re.sub(r"//[^\n]*", "", text)]: [skip] counts the slashes of a comment
    opener still to be dropped, [in_comment] holds to the end of the line. *)
Fixpoint strip_line_comments (skip : nat) (in_comment : bool) (text : string) : string :=
  match text with
  | EmptyString => EmptyString
  | String c r =>
      match skip with
      | S k => strip_line_comments k in_comment r
      | O =>
          if in_comment then
            if Ascii.eqb c newline then String c (strip_line_comments 0 false r)
            else strip_line_comments 0 true r
          else if String.prefix "//" text then strip_line_comments 1 true r
          else String c (strip_line_comments 0 false r)
      end
  end.

(** [re.sub(r"/\*.*?\*/", "", text, flags=re.DOTALL)]: [skip] counts the
    characters of a comment still to be dropped. *)
Fixpoint strip_block_comments (skip : nat) (text : string) : string :=
  match text with
  | EmptyString => EmptyString
  | String c r =>
      match skip with
      | S k => strip_block_comments k r
      | O =>
          match (if String.prefix "/*" text then PyStr.find "*/" (PyStr.drop 2 text)
                 else None) with
          | Some i => strip_block_comments (i + 3) r
          | None => String c (strip_block_comments 0 r)
          end
      end
  end.

Definition _strip_comments (text : string) : string :=
  strip_block_comments 0 (strip_line_comments 0 false text).

(** [int(s)] for a [str]: blanks around, a sign, decimal digits, single
    underscores between digits; [None] stands for [ValueError]. The blanks
    [int] drops are those of [str.strip] but for the four separators U+001C
    to U+001F, which it takes for a part of the literal. *)
Definition int_space (c : ascii) : bool :=
  let n := N_of_ascii c in
  ((9 <=? n) && (n <=? 13) || (n =? 32) || (n =? 133) || (n =? 160))%N.

Definition digit (c : ascii) : option N :=
  let n := N_of_ascii c in
  if ((48 <=? n) && (n <=? 57))%N then Some (n - 48)%N else None.

Fixpoint parse_digits (s : string) (acc : N) (after_underscore : bool) : option N :=
  match s with
  | EmptyString => if after_underscore then None else Some acc
  | String c r =>
      match digit c with
      | Some d => parse_digits r (acc * 10 + d)%N false
      | None =>
          if Ascii.eqb c "_" && negb after_underscore then parse_digits r acc true
          else None
      end
  end.

Definition parse_int (s : string) : option Z :=
  match PyStr.strip_with int_space s with
  | String "-" r => (λ n, (- Z.of_N n)%Z) <$> parse_digits r 0 true
  | String "+" r => Z.of_N <$> parse_digits r 0 true
  | r => Z.of_N <$> parse_digits r 0 true
  end.

(** [int(v)]. *)
Definition py_int (v : value) : res Z :=
  match v with
  | VInt n => Ok n
  | VBool b => Ok (if b then 1 else 0)%Z
  | VStr s =>
      match parse_int s with
      | Some n => Ok n
      | None => Raise (ValueError ("invalid literal for int() with base 10: " +:+ s))
      end
  | VFloat _ (Some n) => Ok n
  | VFloat text None => Raise (OtherError ("cannot convert float " +:+ text +:+ " to integer"))
  | VNone | VObj _ _ _ => Raise (OtherError "int() argument must be a string or a number")
  end.

Section Parser.

(** [float(s)], [None] when it raises [ValueError]. *)
Variable py_float : string → option value.

Definition _parse_value (s : string) : value :=
  let s := PyStr.strip s in
  if PyStr.startswith (String quote EmptyString) s
     && PyStr.endswith (String quote EmptyString) s
  then
    VStr (PyStr.replace (String backslash (String backslash EmptyString))
            (String backslash EmptyString)
         (PyStr.replace (String backslash (String quote EmptyString))
            (String quote EmptyString)
         (PyStr.replace (String backslash "t") (String tab EmptyString)
         (PyStr.replace (String backslash "n") (String newline EmptyString)
            (PyStr.slice 1 (String.length s - 1) s)))))
  else if String.eqb (PyStr.lower s) "true" then VBool true
  else if String.eqb (PyStr.lower s) "false" then VBool false
  else
    match parse_int s with
    | Some n => VInt n
    | None =>
        match py_float s with
        | Some f => f
        | None => VStr s
        end
    end.

(** The two places of [_parse_attr_block] that close a part of the list. *)
Definition add_part (part : string) (attrs : gmap string value) : gmap string value :=
  let part := PyStr.strip part in
  if PyStr.contains "=" part then
    let '(k, _, v) := PyStr.partition "=" part in
    <[PyStr.strip k := _parse_value (PyStr.strip v)]> attrs
  else attrs.

(** The loop of [_parse_attr_block]; [current] holds the characters read,
    last character first. *)
Fixpoint attr_loop (inner : string) (current : string) (in_quote : bool)
    (attrs : gmap string value) : gmap string value :=
  match inner with
  | EmptyString =>
      if PyStr.truthy current then add_part (String.rev current) attrs else attrs
  | String c r =>
      if Ascii.eqb c quote
         && match current with
            | EmptyString => true
            | String l _ => negb (Ascii.eqb l backslash)
            end
      then attr_loop r (String c current) (negb in_quote) attrs
      else if Ascii.eqb c "," && negb in_quote
      then attr_loop r EmptyString in_quote (add_part (String.rev current) attrs)
      else attr_loop r (String c current) in_quote attrs
  end.

Definition _parse_attr_block (content : string) : gmap string value :=
  let content := PyStr.strip content in
  if negb (PyStr.truthy content) || String.eqb content "[]" then ∅
  else
    let inner := PyStr.strip (PyStr.slice 1 (String.length content - 1) content) in
    attr_loop inner EmptyString false ∅.

(** [str(attrs.get(key, default))]. *)
Definition attr_str (attrs : gmap string value) (key default : string) : string :=
  match attrs !! key with
  | Some v => py_str v
  | None => default
  end.

(** [Node(id=nid, label=str(attrs.get("label", nid)), ...)]. *)
Definition make_node (nid : string) (attrs : gmap string value) : Node.t :=
  Node.mk nid (attr_str attrs "label" nid) (attr_str attrs "shape" "box")
    (attr_str attrs "type" "") (attr_str attrs "prompt" "") attrs.

(** [Edge(from_node=..., to_node=..., label=str(attrs.get("label", "")), ...)]. *)
Definition make_edge (from_id to_id : string) (attrs : gmap string value) : res Edge.t :=
  let* weight := py_int (match attrs !! "weight" with Some v => v | None => VInt 0 end) in
  Ok (Edge.mk from_id to_id (attr_str attrs "label" "") (attr_str attrs "condition" "")
        weight).

(** [if nid not in graph.nodes: graph.nodes[nid] = node]. *)
Definition add_node (g : Graph.t) (nid : string) (attrs : gmap string value) : Graph.t :=
  match dict_get (Graph.nodes g) nid with
  | Some _ => g
  | None =>
      Graph.mk (Graph.name g) (Graph.goal g) (Graph.label g)
        (Graph.nodes g ++ [(nid, make_node nid attrs)]) (Graph.edges g)
        (Graph.graph_attrs g)
  end.

(** [graph.edges.append(edge)]. *)
Definition add_edge (g : Graph.t) (e : Edge.t) : Graph.t :=
  Graph.mk (Graph.name g) (Graph.goal g) (Graph.label g) (Graph.nodes g)
    (Graph.edges g ++ [e]) (Graph.graph_attrs g).

(** The scan for the bracket that closes a node declaration: the offset of
    the first closing bracket outside quotes, [prev] being the character
    before the one read. *)
Fixpoint scan_close (prev : ascii) (in_quote : bool) (s : string) : option nat :=
  match s with
  | EmptyString => None
  | String c r =>
      if Ascii.eqb c quote && negb (Ascii.eqb prev backslash)
      then S <$> scan_close c (negb in_quote) r
      else if Ascii.eqb c "]" && negb in_quote then Some O
      else S <$> scan_close c in_quote r
  end.

(** The loop over the further arrows of a chain: [pos] grows by the end of
    each match, counted from the text after its leading blanks. *)
Fixpoint chain_loop (fuel : nat) (rest : string) (pos : nat) (to_id : string)
    (attrs : gmap string value) (g : Graph.t) : res (nat * Graph.t) :=
  match fuel with
  | O => Ok (pos, g)
  | S fuel' =>
      let rest_check := PyStr.lstrip (PyStr.drop pos rest) in
      match Re.next_arrow rest_check with
      | None => Ok (pos, g)
      | Some (next_id, stop) =>
          let* e := make_edge to_id next_id attrs in
          chain_loop fuel' rest (pos + stop) next_id attrs (add_edge g e)
      end
  end.

(** The local variables of [parse_dot] at the head of its loop. *)
Record ParseState : Type := mkParse {
  p_rest : string;
  p_pos : nat;
  p_graph : Graph.t;
  p_node_defaults : gmap string value;
  p_edge_defaults : gmap string value;
}.

(** One pass through the body of the loop, entered with [pos < len(rest)];
    [inr] when the loop ends by [break]. *)
Definition parse_step (st : ParseState) : res (ParseState + Graph.t) :=
  let rest := PyStr.lstrip (PyStr.drop (p_pos st) (p_rest st)) in
  let g := p_graph st in
  let next pos g nd ed := Ok (inl (mkParse rest pos g nd ed)) in
  if negb (PyStr.truthy rest) then Ok (inr g)
  else
  match Re.keyword_block "graph" rest with
  | Some (body, stop) =>
      let attrs := _parse_attr_block ("[" +:+ body +:+ "]") in
      next stop
        (Graph.mk (Graph.name g) (attr_str attrs "goal" "") (attr_str attrs "label" "")
           (Graph.nodes g) (Graph.edges g) attrs)
        (p_node_defaults st) (p_edge_defaults st)
  | None =>
  match Re.decl rest with
  | Some (k, v, stop) =>
      let v := _parse_value (PyStr.strip v) in
      next stop
        (Graph.mk (Graph.name g)
           (if String.eqb k "goal" then py_str v else Graph.goal g)
           (if String.eqb k "label" then py_str v else Graph.label g)
           (Graph.nodes g) (Graph.edges g) (<[k := v]> (Graph.graph_attrs g)))
        (p_node_defaults st) (p_edge_defaults st)
  | None =>
  match Re.keyword_block "node" rest with
  | Some (body, stop) =>
      next stop g (_parse_attr_block ("[" +:+ body +:+ "]")) (p_edge_defaults st)
  | None =>
  match Re.keyword_block "edge" rest with
  | Some (body, stop) =>
      next stop g (p_node_defaults st) (_parse_attr_block ("[" +:+ body +:+ "]"))
  | None =>
  match Re.node_start rest with
  | Some (nid, stop) =>
      match scan_close "[" false (PyStr.drop stop rest) with
      | Some k =>
          let attr_text := PyStr.slice (stop - 1) (stop + k + 1) rest in
          let attrs := _parse_attr_block attr_text ∪ p_node_defaults st in
          next (stop + k + 1) (add_node g nid attrs)
            (p_node_defaults st) (p_edge_defaults st)
      | None =>
          next (String.length rest) g (p_node_defaults st) (p_edge_defaults st)
      end
  | None =>
  match Re.edge_match rest with
  | Some (from_id, to_id, attr_text, stop) =>
      let attrs :=
        match attr_text with
        | Some body =>
            if PyStr.truthy body
            then _parse_attr_block ("[" +:+ body +:+ "]") ∪ p_edge_defaults st
            else p_edge_defaults st
        | None => p_edge_defaults st
        end in
      let* e := make_edge from_id to_id attrs in
      let* chained :=
        chain_loop (String.length rest) rest stop to_id attrs (add_edge g e) in
      next chained.1 chained.2 (p_node_defaults st) (p_edge_defaults st)
  | None =>
  match Re.node_bare rest with
  | Some (nid, stop) =>
      next stop (add_node g nid (p_node_defaults st))
        (p_node_defaults st) (p_edge_defaults st)
  | None =>
      next (p_pos st + 1) g (p_node_defaults st) (p_edge_defaults st)
  end end end end end end end.

(** [while pos < len(rest)], bounded by [fuel] passes. *)
Fixpoint parse_loop (fuel : nat) (st : ParseState) : option (res Graph.t) :=
  if negb (p_pos st <? String.length (p_rest st))%nat then Some (Ok (p_graph st))
  else
    match fuel with
    | O => None
    | S fuel' =>
        match parse_step st with
        | Raise e => Some (Raise e)
        | Ok (inr g) => Some (Ok g)
        | Ok (inl st') => parse_loop fuel' st'
        end
    end.

(** [parse_dot(source)] for a [str]; the loop drops at least one character of
    [rest] in each pass but the first, which bounds the passes. *)
Definition parse_dot (source : string) : option (res Graph.t) :=
  let text := PyStr.strip (_strip_comments source) in
  match Re.digraph text with
  | None => Some (Raise (ValueError "Expected digraph Identifier { ... }"))
  | Some (name, stop) =>
      let rest := PyStr.rstrip (PyStr.drop stop text) in
      let rest :=
        if PyStr.endswith "}" rest then PyStr.take (String.length rest - 1) rest
        else rest in
      parse_loop (String.length rest + 1)
        (mkParse rest 0 (Graph.mk name "" "" [] [] ∅) ∅ ∅)
  end.

End Parser.

(** * [services/run_pipeline.py]: [run_task]

    The event list of a task is a Python list shared between the local
    variable [events] of [run_task] and the task table, so lists live in a
    heap and are named by their address. *)

Module Task.

(** A value of an event's [data] dict: a plain value, or the result dict. *)
Inductive field : Type :=
| Plain (v : value)
| Dict (d : list (string * value)).

Record event : Type := mkEvent {
  kind : string;
  data : list (string * field);
}.

(** The dict kept for a task in [_task_store]. *)
Record record : Type := mkRecord {
  status : string;
  events : nat;
  result : option (list (string * value));
}.

(** The list objects, by address, and the task table. *)
Record state : Type := mkTasks {
  heap : list (list event);
  _task_store : gmap string record;
}.

(** A new list object holding [l]: its address and the heap with it. *)
Definition alloc (h : list (list event)) (l : list event) : nat * list (list event) :=
  (length h, h ++ [l]).

(** [l.append(x)] for the list at address [a]. *)
Definition append (h : list (list event)) (a : nat) (x : event) : list (list event) :=
  match h !! a with
  | Some l => <[a := l ++ [x]]> h
  | None => h
  end.

(** The list at address [a]. *)
Definition deref (h : list (list event)) (a : nat) : list event :=
  match h !! a with
  | Some l => l
  | None => []
  end.

(** The events a reader of the task table sees for a task. *)
Definition task_events (st : state) (task_id : string) : option (list event) :=
  (λ r, deref (heap st) (events r)) <$> _task_store st !! task_id.

Definition step_progress : list (string * Z) :=
  [("parsing", 25); ("understanding", 50); ("converting", 75); ("publishing", 100)]%Z.

Definition step_names : list (string * string) :=
  [("fetch_input", "parsing"); ("parse", "parsing"); ("understand", "understanding");
   ("convert", "converting"); ("publish", "publishing")].

(** The closure [on_event] of [run_task], for the local list at [events]. *)
Definition on_event (task_id : string) (events : nat) (st : state) (ev : Event.t)
  : state :=
  let h :=
    append (heap st) events
      (mkEvent (Event.kind ev) (List.map (λ kv, (kv.1, Plain kv.2)) (Event.data ev))) in
  let node_id :=
    match dict_get (Event.data ev) "node_id" with
    | Some v => v
    | None => VStr ""
    end in
  let step :=
    match node_id with
    | VStr s => dict_get step_names s
    | _ => None
    end in
  let h :=
    match step with
    | Some step =>
        if PyStr.truthy step then
          append h events
            (mkEvent "progress"
               [("step", Plain (VStr step));
                ("progress",
                 Plain (VInt (match dict_get step_progress step with
                              | Some p => p
                              | None => 0%Z
                              end)))])
        else h
    | None => h
    end in
  match _task_store st !! task_id with
  | Some r =>
      let '(copy, h) := alloc h (deref h events) in
      mkTasks h (<[task_id := mkRecord (status r) copy (result r)]> (_task_store st))
  | None => mkTasks h (_task_store st)
  end.

(** [_task_store[task_id][...] = ...] after the run; the key is present. *)
Definition settle (st : state) (task_id : string) (new_status : string)
    (new_result : list (string * value)) : state :=
  match _task_store st !! task_id with
  | Some r =>
      mkTasks (heap st)
        (<[task_id := mkRecord new_status (events r) (Some new_result)]> (_task_store st))
  | None => st
  end.

Section RunTask.
Context {W : Type}.

(** [run_task] from the creation of [events] on, for a given [task_id];
    [r] is what [engine.run] does with the context built for the task, its
    events reaching [on_event] in the order of emission. *)
Definition run_task (st : state) (task_id : string) (r : @Run W) : state :=
  let '(events, h) := alloc (heap st) [] in
  let st :=
    mkTasks h (<[task_id := mkRecord "running" events None]> (_task_store st)) in
  let st := fold_left (on_event task_id events) (run_events r) st in
  match run_result r with
  | Ok outcome =>
      let result :=
        [("feishu_doc_url", VStr (Context.get_string (run_ctx r) "feishu_doc_url"));
         ("feishu_document_id",
          VStr (Context.get_string (run_ctx r) "feishu_document_id"));
         ("status",
          VStr (if bool_decide (Outcome.status outcome = SUCCESS)
                then "success" else "failed"));
         ("failure_reason", VStr (Outcome.failure_reason outcome))] in
      let st := settle st task_id "completed" result in
      mkTasks
        (append (heap st) events
           (mkEvent "progress"
              [("step", Plain (VStr "publishing")); ("progress", Plain (VInt 100));
               ("result", Dict result)]))
        (_task_store st)
  | Raise e =>
      let st :=
        settle st task_id "failed"
          [("status", VStr "failed"); ("failure_reason", VStr (exn_message e))] in
      mkTasks
        (append (heap st) events
           (mkEvent "error" [("message", Plain (VStr (exn_message e)))]))
        (_task_store st)
  end.

End RunTask.

End Task.

(** * [services/run_pipeline.py]: the task table

    [list_tasks] observes the order of the task table, so it takes the
    items of the table, [list(_task_store.items())], in insertion order. *)

(** [l[start:stop]] for any two integers. *)
Definition py_slice {A : Type} (start stop : Z) (l : list A) : list A :=
  let len := Z.of_nat (length l) in
  let clamp (i : Z) := if (i <? 0)%Z then Z.max (i + len) 0 else Z.min i len in
  let s := clamp start in
  let e := clamp stop in
  take (Z.to_nat (e - s)) (drop (Z.to_nat s) l).

(** [get_task]. *)
Definition get_task (st : Task.state) (task_id : string) : option Task.record :=
  Task._task_store st !! task_id.

(** The row of [list_tasks] for a task. *)
Definition task_row (tid : string) (data : Task.record) : list (string * value) :=
  let row := [("task_id", VStr tid); ("status", VStr (Task.status data))] in
  match Task.result data with
  | Some (_ :: _ as result) =>
      row ++ [("feishu_doc_url", default VNone (dict_get result "feishu_doc_url"));
              ("failure_reason", default VNone (dict_get result "failure_reason"))]
  | _ => row
  end.

(** [list_tasks(page, size)]: the rows and the total. *)
Definition list_tasks (items : list (string * Task.record)) (page size : Z)
  : list (list (string * value)) * nat :=
  let items := rev items in
  let total := length items in
  let start := ((page - 1) * size)%Z in
  let stop := (start + size)%Z in
  (List.map (λ kv, task_row kv.1 kv.2) (py_slice start stop items), total).

(** * [pipeline/handlers/codergen.py]

    The files the handler writes under the directory of the stage are
    effects on the world; as in the engine, the errors of the file system are
    not embedded. *)

(** What a backend returns: a [str] or an [Outcome]. *)
Inductive backend_result : Type :=
| Text (response : string)
| Result (outcome : Outcome.t).

Section Codergen.
Context {W : Type}.

(** [backend(node, prompt, context)]. *)
Definition CodergenBackend : Type :=
  Node.t → string → Context.t → W → res backend_result * Context.t * W.

(** [stage_dir.mkdir(parents=True, exist_ok=True)] and
    [(stage_dir / name).write_text(text)] for the stage directory of a node
    id. *)
Variable mkdir : string → W → W.
Variable write_text : string → string → string → W → W.

(** [(stage_dir / "status.json").write_text(json.dumps(outcome.to_dict(),
    ...))] followed by [return outcome]; nothing is written when
    [json.dumps] raises. *)
Definition write_status (stage : string) (outcome : Outcome.t) (context : Context.t)
    (w : W) : res Outcome.t * Context.t * W :=
  match dumps_outcome outcome with
  | Ok text => (Ok outcome, context, write_text stage "status.json" text w)
  | Raise e => (Raise e, context, w)
  end.

Definition CodergenHandler_execute (backend : option CodergenBackend) : @Handler W :=
  λ node context graph w,
  let stage := Node.id node in
  let w := mkdir stage w in
  let prompt := if PyStr.truthy (Node.prompt node) then Node.prompt node else Node.label node in
  let goal :=
    if PyStr.truthy (Context.get_string context "graph.goal")
    then Context.get_string context "graph.goal" else Graph.goal graph in
  let prompt := PyStr.replace "$goal" goal prompt in
  let w := write_text stage "prompt.md" prompt w in
  let finish (response_text : string) (context : Context.t) (w : W) :=
    let w := write_text stage "response.md" response_text w in
    let outcome :=
      Outcome.mk SUCCESS "" None
        (Some [("last_stage", VStr (Node.id node));
               ("last_response",
                VStr (if PyStr.truthy response_text then PyStr.take 200 response_text
                      else ""))])
        ("Stage completed: " +:+ Node.id node) "" in
    write_status stage outcome context w in
  (* the [except Exception as e] clause *)
  let failed (e : exn) (context : Context.t) (w : W) :=
    write_status stage (Outcome.mk FAIL "" None None "" (exn_message e)) context w in
  match backend with
  | Some run_backend =>
      match run_backend node prompt context w with
      | (Ok (Result result), context, w) =>
          (* inside the [try]: what [json.dumps] raises is caught *)
          match dumps_outcome result with
          | Ok text => (Ok result, context, write_text stage "status.json" text w)
          | Raise e => failed e context w
          end
      | (Ok (Text response_text), context, w) => finish response_text context w
      | (Raise e, context, w) => failed e context w
      end
  | None => finish ("[Simulated] Response for stage: " +:+ Node.id node) context w
  end.

End Codergen.

(** * [services/run_pipeline.py]: appending the blocks to a document

    A block is a dict handed to the Feishu API; [B] is the type of blocks.
    [append_document_blocks] acts on the world and may raise. *)

Definition BATCH_SIZE : nat := 50.

(** [range(0, stop, step)] for a positive [step]. *)
Definition range_step (stop step : nat) : list nat :=
  List.map (λ k, k * step)%nat (seq 0 ((stop + step - 1) / step)).

Section Isolation.
Context {W B : Type}.

(** [append_document_blocks(token, document_id, root_id, blocks, index=None)]
    and [json.dumps(block, ensure_ascii=False)]. *)
Variable append_document_blocks :
  string → string → string → list B → W → res unit * W.
Variable dumps_block : B → string.

(** [_isolate_and_raise]; each call passes on a shorter list, and [fuel]
    bounds the depth of the calls. *)
Fixpoint _isolate_and_raise (fuel : nat) (token document_id root_id : string)
    (blocks : list B) (prefix : string) (w : W) : option (res unit * W) :=
  match fuel with
  | O => None
  | S fuel' =>
      match blocks with
      | [] => Some (Raise (RuntimeError (prefix +:+ " invalid param but empty batch")), w)
      | [b] =>
          Some (Raise (RuntimeError
                         (prefix
                          +:+ " Feishu rejected a single block (invalid param). offending_block="
                          +:+ PyStr.take 4000 (dumps_block b))), w)
      | _ =>
          let mid := (length blocks / 2)%nat in
          let left := take mid blocks in
          let right := drop mid blocks in
          match append_document_blocks token document_id root_id left w with
          | (Raise _, w) =>
              _isolate_and_raise fuel' token document_id root_id left (prefix +:+ " left") w
          | (Ok _, w) =>
              match append_document_blocks token document_id root_id right w with
              | (Raise _, w) =>
                  _isolate_and_raise fuel' token document_id root_id right
                    (prefix +:+ " right") w
              | (Ok _, w) => Some (Ok tt, w)
              end
          end
      end
  end.

(** The loop of [_append_with_isolation] over the offsets of the batches. *)
Fixpoint append_batches (offsets : list nat) (token document_id root_id : string)
    (blocks : list B) (w : W) : option (res unit * W) :=
  match offsets with
  | [] => Some (Ok tt, w)
  | i :: offsets' =>
      let batch := take BATCH_SIZE (drop i blocks) in
      match append_document_blocks token document_id root_id batch w with
      | (Ok _, w) => append_batches offsets' token document_id root_id blocks w
      | (Raise e, w) =>
          let msg := exn_message e in
          if negb (PyStr.contains "invalid param" msg) && negb (PyStr.contains "1770001" msg)
          then Some (Raise e, w)
          else
            match _isolate_and_raise (S (length batch)) token document_id root_id batch
                    ("batch_offset=" +:+ PyStr.of_Z (Z.of_nat i)) w with
            | Some (Ok _, w) => append_batches offsets' token document_id root_id blocks w
            | Some (Raise e', w) => Some (Raise e', w)
            | None => None
            end
      end
  end.

Definition _append_with_isolation (token document_id root_id : string)
    (blocks : list B) (w : W) : option (res unit * W) :=
  append_batches (range_step (length blocks) BATCH_SIZE) token document_id root_id blocks w.

End Isolation.

(** * [services/markdown_parser.py]

    A block of the AST is a dict tagged by its [type]; the tags are the
    constructors of [Md.block], the other keys their arguments. *)

Module Md.

Inductive block : Type :=
| Heading (level : Z) (text : string)
| Paragraph (text : string)
| Code (language text : string)
| Hr
| Blockquote (text : string)
| BulletList (items : list string)
| OrderedList (items : list string).

(** [c.isdigit()] on a code point below 256: the decimal digits and the
    superscripts one, two and three. *)
Definition isdigit (c : ascii) : bool :=
  let n := N_of_ascii c in
  ((48 <=? n) && (n <=? 57) || (n =? 178) || (n =? 179) || (n =? 185))%N.

(** [sep.join(l)]. *)
Fixpoint join (sep : string) (l : list string) : string :=
  match l with
  | [] => EmptyString
  | [x] => x
  | x :: l' => x +:+ sep +:+ join sep l'
  end.

(** The lines a [while] loop passes over while [p] holds, and the lines
    from the first one where it does not. *)
Fixpoint span {A : Type} (p : A → bool) (l : list A) : list A * list A :=
  match l with
  | [] => ([], [])
  | x :: l' =>
      if p x then let '(a, b) := span p l' in (x :: a, b) else ([], l)
  end.

(** [s in ("---", "***", "___")]. *)
Definition is_rule (s : string) : bool :=
  String.eqb s "---" || String.eqb s "***" || String.eqb s "___".

(** [s.startswith("- ") or s.startswith("* ")]. *)
Definition is_bullet (s : string) : bool :=
  PyStr.startswith "- " s || PyStr.startswith "* " s.

(** [len(s) >= 2 and s[0].isdigit() and s[1:2] in (".", ")")]. *)
Definition is_ordered (s : string) : bool :=
  (2 <=? String.length s)%nat
  && match s with
     | String c _ => isdigit c
     | EmptyString => false
     end
  && (String.eqb (PyStr.slice 1 2 s) "." || String.eqb (PyStr.slice 1 2 s) ")").

Definition _is_block_start (line : string) : bool :=
  let s := PyStr.strip line in
  if negb (PyStr.truthy s) then true
  else if PyStr.startswith "#" s then true
  else if PyStr.startswith "```" s then true
  else if PyStr.startswith ">" s then true
  else if is_rule s then true
  else if is_bullet s then true
  else if is_ordered s then true
  else false.

(** The item of an ordered list read from a stripped line. *)
Definition ordered_item (s : string) : string :=
  let idx := (2 + Re.span_len isdigit (PyStr.drop 2 s))%nat in
  if (idx <? String.length s)%nat
     && (String.eqb (PyStr.slice idx (idx + 1) s) "."
         || String.eqb (PyStr.slice idx (idx + 1) s) ")")
  then PyStr.strip (PyStr.drop (idx + 1) s)
  else PyStr.strip (PyStr.drop 2 s).

(** The loop of [_parse_blocks] over the lines from index [i] on, bounded by
    [fuel] passes; [out] holds the blocks appended so far. *)
Fixpoint parse_lines (fuel : nat) (lines : list string) (out : list block)
  : option (list block) :=
  match fuel with
  | O => None
  | S fuel' =>
      match lines with
      | [] => Some out
      | line :: rest =>
          let stripped := PyStr.strip line in
          if negb (PyStr.truthy stripped) then parse_lines fuel' rest out
          else if PyStr.startswith "#" stripped then
            let level := Re.span_len (λ c, Ascii.eqb c "#") stripped in
            let out :=
              if (level <=? 3)%nat
              then out ++ [Heading (Z.of_nat level) (PyStr.strip (PyStr.drop level stripped))]
              else out in
            parse_lines fuel' rest out
          else if PyStr.startswith "```" stripped then
            let lang := PyStr.strip (PyStr.drop 3 stripped) in
            let '(code_lines, rest) :=
              span (λ l, negb (PyStr.startswith "```" (PyStr.strip l))) rest in
            let rest := match rest with [] => [] | _ :: rest' => rest' end in
            parse_lines fuel' rest (out ++ [Code lang (join (String newline EmptyString) code_lines)])
          else if PyStr.startswith ">" stripped then
            let '(quote_lines, rest) :=
              span (λ l, PyStr.startswith ">" (PyStr.strip l)) lines in
            parse_lines fuel' rest
              (out ++ [Blockquote
                         (join (String newline EmptyString)
                            (List.map (λ l, PyStr.strip (PyStr.drop 1 (PyStr.strip l)))
                               quote_lines))])
          else if is_rule stripped then parse_lines fuel' rest (out ++ [Hr])
          else if is_bullet stripped then
            let '(item_lines, rest) := span (λ l, is_bullet (PyStr.strip l)) lines in
            parse_lines fuel' rest
              (out ++ [BulletList
                         (List.map (λ l, PyStr.strip (PyStr.drop 2 (PyStr.strip l)))
                            item_lines)])
          else if is_ordered stripped then
            let '(item_lines, rest) := span (λ l, is_ordered (PyStr.strip l)) lines in
            parse_lines fuel' rest
              (out ++ [OrderedList (List.map (λ l, ordered_item (PyStr.strip l)) item_lines)])
          else
            let '(para_lines, rest) :=
              span (λ l, PyStr.truthy (PyStr.strip l) && negb (_is_block_start l)) lines in
            parse_lines fuel' rest
              (match para_lines with
               | [] => out
               | _ :: _ => out ++ [Paragraph (join (String newline EmptyString) para_lines)]
               end)
      end
  end.

(** [parse_markdown_to_ast]; no pass of the loop leaves the index where it
    was, which bounds the passes by the number of lines. *)
Definition parse_markdown_to_ast (markdown : string) : option (list block) :=
  let lines := PyStr.split (String newline EmptyString) markdown in
  parse_lines (S (length lines)) lines [].

End Md.

(** * [services/block_converter.py]

    The payloads for the Feishu API are dicts and lists of dicts, kept as
    they are built; the AST is the one of the parser above. *)

Unset Elimination Schemes.
Inductive json : Type :=
| JInt (n : Z)
| JStr (s : string)
| JList (l : list json)
| JDict (d : list (string * json)).
Set Elimination Schemes.

Module Feishu.

(** The bullet that opens the text of a list item, in UTF-8. *)
Definition bullet : string := "• ".

Definition _text_elements (text : string) : json :=
  JDict [("elements", JList [JDict [("text_run", JDict [("content", JStr text)])]])].

Definition _feishu_text_block (text : string) : json :=
  JDict [("block_type", JInt 2); ("text", _text_elements text)].

Definition _feishu_heading_block (level : Z) (text : string) : res json :=
  let level := if (level <? 1)%Z then 1%Z else if (3 <? level)%Z then 3%Z else level in
  let* key := index ["heading1"; "heading2"; "heading3"] (Z.to_nat (level - 1)) in
  Ok (JDict [("block_type", JInt (level + 2)); (key, _text_elements text)]).

Definition _feishu_code_block (language code : string) : json :=
  JDict [("block_type", JInt 9);
         ("code", JDict [("language", JStr language);
                         ("elements", JList [JDict [("text_run", JDict [("content", JStr code)])]])])].

Definition _feishu_divider_block : json :=
  JDict [("block_type", JInt 10); ("divider", JDict [])].

(** The loop of [_chunk_text_to_blocks] over [text[start:]], bounded by
    [fuel] passes. *)
Fixpoint chunk_loop (fuel : nat) (max_chars : nat) (rest : string) : option (list json) :=
  match rest with
  | EmptyString => Some []
  | String _ _ =>
      match fuel with
      | O => None
      | S fuel' =>
          (λ blocks, _feishu_text_block (PyStr.take max_chars rest) :: blocks)
            <$> chunk_loop fuel' max_chars (PyStr.drop max_chars rest)
      end
  end.

Definition _chunk_text_to_blocks (text : string) (max_chars : nat) : option (list json) :=
  if (String.length text <=? max_chars)%nat then Some [_feishu_text_block text]
  else chunk_loop (String.length text) max_chars text.

(** [enumerate(items, start=idx)] turned into the numbered text blocks. *)
Fixpoint numbered (idx : Z) (items : list string) : list json :=
  match items with
  | [] => []
  | it :: items' =>
      _feishu_text_block (PyStr.of_Z idx +:+ ". " +:+ it) :: numbered (idx + 1) items'
  end.

Definition _feishu_blocks_for_node (node : Md.block) : option (res (list json)) :=
  match node with
  | Md.Heading level text =>
      Some (let* b := _feishu_heading_block level text in Ok [b])
  | Md.Paragraph text => Some (Ok [_feishu_text_block text])
  | Md.Code language text =>
      let lang := PyStr.strip language in
      let header := PyStr.rstrip ("```" +:+ lang) in
      let text := header +:+ String newline text +:+ String newline "```" in
      Ok <$> _chunk_text_to_blocks text 5000
  | Md.Hr => Some (Ok [_feishu_divider_block])
  | Md.Blockquote text => Some (Ok [_feishu_text_block ("> " +:+ text)])
  | Md.BulletList items =>
      Some (Ok (List.map (λ it, _feishu_text_block (bullet +:+ it)) items))
  | Md.OrderedList items => Some (Ok (numbered 1 items))
  end.

(** [_skip_node]; [and] binds tighter than [or]. *)
Definition _skip_node (node : Md.block) (filters : gset string) : bool :=
  match node with
  | Md.Paragraph text =>
      if bool_decide ("badge" ∈ filters)
         && (let text := PyStr.strip text in
             PyStr.contains "![ " text
             || PyStr.contains "](https://" text
                && PyStr.contains "badge" (PyStr.lower text))
      then true
      else if bool_decide ("ci_status" ∈ filters)
              && (let text := PyStr.lower (PyStr.strip text) in
                  PyStr.contains "travis" text
                  || PyStr.contains "github actions" text
                  || PyStr.contains "ci" text)
      then true
      else false
  | _ => false
  end.

(** The loop of [build_feishu_blocks_schema]. *)
Fixpoint build_loop (ast : list Md.block) (filters : gset string) (result : list json)
  : option (res (list json)) :=
  match ast with
  | [] => Some (Ok result)
  | node :: ast' =>
      if _skip_node node filters then build_loop ast' filters result
      else
        match _feishu_blocks_for_node node with
        | None => None
        | Some (Raise e) => Some (Raise e)
        | Some (Ok blocks) => build_loop ast' filters (result ++ blocks)
        end
  end.

Definition build_feishu_blocks_schema (ast : list Md.block) (filters : option (gset string))
  : option (res (list json)) :=
  build_loop ast (default ∅ filters) [].

End Feishu.

(** * Statements, as definitions

    The definitions of this part embed no function of the code. They state
    what a function computes, in the terms the theorems use; the two whose
    name ends in [_spec], with [suggested_edge] and [named_keys], follow the
    words of the specification and are compared there with the embedding of
    the function they describe. *)

(** Label normalization as the specification words it: trim, lowercase, then
    strip one leading accelerator prefix of the form [[X] ], [X) ] or [X - ],
    where X is one character. *)
Definition normalize_label_spec (label : string) : string :=
  let s := PyStr.lower (PyStr.strip label) in
  match s with
  | String "[" (String _ (String "]" (String " " r))) => PyStr.strip r
  | String _ (String ")" (String " " r)) => PyStr.strip r
  | String _ (String " " (String "-" (String " " r))) => PyStr.strip r
  | _ => s
  end.

(** Label normalization as the code performs it, one rule after the other and
    each at most once: a bracket group closed within the first four
    characters, then any character followed by a closing parenthesis, then
    any character followed by a blank and a dash; what follows is trimmed. *)
Fixpoint after_close (n : nat) (s : string) : option string :=
  match n, s with
  | S n', String c r => if Ascii.eqb c "]" then Some r else after_close n' r
  | _, _ => None
  end.

Definition drop_bracket (s : string) : string :=
  match s with
  | String c r =>
      if Ascii.eqb c "[" then
        match after_close 3 r with
        | Some rest => PyStr.strip rest
        | None => s
        end
      else s
  | EmptyString => s
  end.

Definition drop_paren (s : string) : string :=
  match s with
  | String _ (String c r) => if Ascii.eqb c ")" then PyStr.strip r else s
  | _ => s
  end.

Definition drop_dash (s : string) : string :=
  match s with
  | String _ (String c1 (String c2 r)) =>
      if Ascii.eqb c1 " " && Ascii.eqb c2 "-" then PyStr.strip r else s
  | _ => s
  end.

Definition normalized_label (label : string) : string :=
  drop_dash (drop_paren (drop_bracket (PyStr.lower (PyStr.strip label)))).

(** [precedes a b]: [a] comes strictly before [b] in the order
    (weight DESC, to_node ASC). *)
Definition precedes (a b : Edge.t) : bool :=
  (Edge.weight b <? Edge.weight a)%Z
  || ((Edge.weight a =? Edge.weight b)%Z
      && String.ltb (Edge.to_node a) (Edge.to_node b)).

(** The edge of a list that comes first in the order (weight DESC, to_node
    ASC); of several such edges the one declared first. *)
Fixpoint best_edge (l : list Edge.t) : option Edge.t :=
  match l with
  | [] => None
  | e :: l' =>
      match best_edge l' with
      | None => Some e
      | Some b => if precedes b e then Some b else Some e
      end
  end.

(** [e] is the edge of [l] picked by (weight DESC, to_node ASC): it comes
    strictly before every edge declared earlier, and no edge declared later
    comes strictly before it. *)
Definition picked_by_weight (l : list Edge.t) (e : Edge.t) : Prop :=
  ∃ l1 l2, l = l1 ++ e :: l2
    ∧ Forall (λ e', precedes e e' = true) l1
    ∧ Forall (λ e', precedes e' e = false) l2.

(** A recorded outcome that leaves a goal gate unsatisfied: the node is in
    the graph, its [goal_gate] attribute is truthy, and the status is neither
    SUCCESS nor PARTIAL_SUCCESS. *)
Definition gate_violation (graph : Graph.t) (nid : string) (oc : Outcome.t) : Prop :=
  ∃ n, Graph.get_node graph nid = Some n
       ∧ py_bool (Node.attr n "goal_gate") = true
       ∧ Outcome.status oc ≠ SUCCESS
       ∧ Outcome.status oc ≠ PARTIAL_SUCCESS.

(** The events of a stage. *)
Definition stage_event (ev : Event.t) : Prop :=
  Event.kind ev = "StageStarted" ∨ Event.kind ev = "StageCompleted".

(** A guard that is non-empty and evaluates true. *)
Definition guard_true (outcome : Outcome.t) (context : Context.t) (e : Edge.t) : bool :=
  PyStr.truthy (Edge.condition e)
  && match evaluate_condition (Edge.condition e) outcome context with
     | Ok true => true
     | _ => false
     end.

(** The first edge of a list whose destination is [sid]. *)
Definition first_edge_to (edges : list Edge.t) (sid : string) : option Edge.t :=
  head (List.filter (λ e, String.eqb (Edge.to_node e) sid) edges).

(** The group of the suggested ids, as the specification words it: for each
    suggested id in order, the first edge whose destination equals it. Each
    suggested id that has an edge gives its first edge; the first of these
    edges is the one of the group. *)
Definition suggested_edge (ids : list string) (edges : list Edge.t) : option Edge.t :=
  head (omap (first_edge_to edges) ids).

(** [e] is the edge picked for the suggested ids: it leads to one of them,
    no edge leads to a suggested id that comes before that one, and no edge
    declared before [e] leads where [e] does. *)
Definition picked_by_suggestion (ids : list string) (edges : list Edge.t) (e : Edge.t)
  : Prop :=
  ∃ ids1 ids2 l1 l2,
    ids = ids1 ++ Edge.to_node e :: ids2
    ∧ edges = l1 ++ e :: l2
    ∧ Forall (λ e', Edge.to_node e' ≠ Edge.to_node e) l1
    ∧ Forall (λ sid, Forall (λ e', Edge.to_node e' ≠ sid) edges) ids1.

(** The five groups of edge selection, in the order of the specification. *)
Definition select_edge_spec (node : Node.t) (outcome : Outcome.t)
    (context : Context.t) (graph : Graph.t) : option Edge.t :=
  let edges := Graph.outgoing_edges graph (Node.id node) in
  let pl := Outcome.preferred_label outcome in
  let by_guard := best_edge (List.filter (guard_true outcome context) edges) in
  let by_label :=
    if PyStr.truthy pl
    then List.find
           (λ e, String.eqb (normalized_label (Edge.label e)) (normalized_label pl))
           edges
    else None in
  let by_suggestion := suggested_edge (default [] (Outcome.suggested_next_ids outcome)) edges in
  let by_empty_guard :=
    best_edge (List.filter (λ e, String.eqb (Edge.condition e) "") edges) in
  let by_any := best_edge edges in
  match by_guard with
  | Some e => Some e
  | None =>
      match by_label with
      | Some e => Some e
      | None =>
          match by_suggestion with
          | Some e => Some e
          | None =>
              match by_empty_guard with
              | Some e => Some e
              | None => by_any
              end
          end
      end
  end.

(** The context keys [resolve_key] looks up for a key, in the order of the
    code. *)
Definition lookups (key : string) : list string :=
  let k := PyStr.strip key in
  if PyStr.startswith "context." k then [PyStr.strip (PyStr.drop 9 k); k] else [k].

(** The context keys under which the specification resolves a key: for
    [context.<name>] the name, which is what follows the eight characters of
    the prefix, then the literal key; for any other key the key itself. *)
Definition named_keys (key : string) : list string :=
  let k := PyStr.strip key in
  if PyStr.startswith "context." k then [PyStr.strip (PyStr.drop 8 k); k] else [k].

(** A key that is not resolvable from the outcome or the context, in the
    words of the specification: it is neither of the two outcome keys, and
    the context holds no value under the keys of the specification. *)
Definition unresolvable (key : string) (context : Context.t) : Prop :=
  PyStr.strip key ≠ "outcome"
  ∧ PyStr.strip key ≠ "preferred_label"
  ∧ Forall (λ k, Context.get context k = VNone) (named_keys key).

(** What [on_event] appends to the local list for an engine event: the
    event itself and, for a node that stands for a step, a [progress] event. *)
Definition relayed (ev : Event.t) : list Task.event :=
  Task.mkEvent (Event.kind ev) (List.map (λ kv, (kv.1, Task.Plain kv.2)) (Event.data ev))
  :: match dict_get (Event.data ev) "node_id" with
     | Some (VStr s) =>
         match dict_get Task.step_names s with
         | Some step =>
             if PyStr.truthy step then
               [Task.mkEvent "progress"
                  [("step", Task.Plain (VStr step));
                   ("progress",
                    Task.Plain (VInt (match dict_get Task.step_progress step with
                                      | Some p => p
                                      | None => 0%Z
                                      end)))]]
             else []
         | None => []
         end
     | _ => []
     end.

(** The event [run_task] appends to the local list after the run. *)
Definition closing_event {W : Type} (r : @Run W) : Task.event :=
  match run_result r with
  | Ok outcome =>
      Task.mkEvent "progress"
        [("step", Task.Plain (VStr "publishing")); ("progress", Task.Plain (VInt 100));
         ("result",
          Task.Dict
            [("feishu_doc_url", VStr (Context.get_string (run_ctx r) "feishu_doc_url"));
             ("feishu_document_id",
              VStr (Context.get_string (run_ctx r) "feishu_document_id"));
             ("status",
              VStr (if bool_decide (Outcome.status outcome = SUCCESS)
                    then "success" else "failed"));
             ("failure_reason", VStr (Outcome.failure_reason outcome))])]
  | Raise e => Task.mkEvent "error" [("message", Task.Plain (VStr (exn_message e)))]
  end.

(** * Sample pipelines, used by the examples below *)

Definition sample_node (id : string) : Node.t := Node.mk id id "box" "" "" ∅.

(** A world that only records the commands run, and a [subprocess.run] that
    knows three commands. *)
Definition sample_subprocess (command cwd : value) (timeout : Z) (w : list string)
  : proc_result * list string :=
  let w' := w ++ [py_str command] in
  if String.eqb (py_str command) "echo hi" then (Completed 0 "hi" "", w')
  else if String.eqb (py_str command) "false" then (Completed 1 "" "", w')
  else if String.eqb (py_str command) "sleep 999" then (TimeoutExpired, w')
  else (SpawnError (OtherError "command not found"), w').

(** The same world records the files written, each by the name of its stage
    and its own. *)
Definition sample_mkdir (stage : string) (w : list string) : list string := w.
Definition sample_write (stage name text : string) (w : list string) : list string :=
  w ++ [stage +:+ "/" +:+ name].
Definition sample_exists (stage name : string) (w : list string) : bool :=
  bool_decide (stage +:+ "/" +:+ name ∈ w).

Definition tool_node (attrs : list (string * value)) : Node.t :=
  Node.mk "t" "t" "parallelogram" "" "" (Context.update ∅ attrs).

(** A codergen handler whose every stage fails, hinting at the label
    [retry] and at the node [c]. *)
Definition failing_handler : @Handler (list string) := λ node context graph w,
  (Ok (Outcome.mk FAIL "retry" (Some ["c"]) None "" "boom"), context, w).

Definition failing_engine : @PipelineEngine (list string) :=
  new_engine sample_subprocess failing_handler ∅.

(** start -> critical -> end, where the goal-gated stage fails and its
    failure is routed to the exit. *)
Definition gate_graph : Graph.t :=
  Graph.mk "G" "" ""
    [("start", Node.mk "start" "start" "Mdiamond" "" "" ∅);
     ("critical", Node.mk "critical" "critical" "box" "" ""
                    (Context.update ∅ [("goal_gate", VBool true)]));
     ("end", Node.mk "end" "end" "Msquare" "" "" ∅)]
    [Edge.mk "start" "critical" "" "" 0;
     Edge.mk "critical" "end" "" "outcome=fail" 0]
    ∅.

(** A failing stage [a] with two guarded edges of equal weight and one edge
    that matches both hints of the outcome. *)
Definition routed_graph : Graph.t :=
  Graph.mk "G" "" ""
    [("a", sample_node "a"); ("b", sample_node "b"); ("c", sample_node "c");
     ("x", sample_node "x")]
    [Edge.mk "a" "x" "" "outcome=fail" 1;
     Edge.mk "a" "b" "" "outcome=fail" 1;
     Edge.mk "a" "c" "retry" "" 5]
    ∅.

(** The same stage with the hinted edge only. *)
Definition unrouted_graph : Graph.t :=
  Graph.mk "G" "" ""
    [("a", sample_node "a"); ("c", sample_node "c")]
    [Edge.mk "a" "c" "retry" "" 5]
    ∅.

(** A quoted piece of DOT source. *)
Definition quoted (s : string) : string := String quote (s +:+ String quote EmptyString).

(** A chain of two edges with a trailing attribute block, and the second of
    the two edges declared by itself with the same block. *)
Definition chain_source : string :=
  "digraph G { a -> b -> c [label=" +:+ quoted "x" +:+ ", condition="
  +:+ quoted "outcome=success" +:+ ", weight=5] }".

Definition single_source : string :=
  "digraph G { b -> c [label=" +:+ quoted "x" +:+ ", condition="
  +:+ quoted "outcome=success" +:+ ", weight=5] }".

(** The edges of a parsed graph. *)
Definition parsed_edges (r : option (res Graph.t)) : option (list Edge.t) :=
  match r with
  | Some (Ok g) => Some (Graph.edges g)
  | _ => None
  end.

(** A codergen handler whose every stage succeeds. *)
Definition passing_handler : @Handler (list string) := λ node context graph w,
  (Ok (Outcome.mk SUCCESS "" None None ("Stage completed: " +:+ Node.id node) ""),
   context, w).

Definition passing_engine : @PipelineEngine (list string) :=
  new_engine sample_subprocess passing_handler ∅.

(** start -> work -> end. *)
Definition straight_graph : Graph.t :=
  Graph.mk "G" "" ""
    [("start", Node.mk "start" "start" "Mdiamond" "" "" ∅);
     ("work", sample_node "work");
     ("end", Node.mk "end" "end" "Msquare" "" "" ∅)]
    [Edge.mk "start" "work" "" "" 0; Edge.mk "work" "end" "" "" 0]
    ∅.

(** start -> a, where [a] fails and its only edge has no guard. *)
Definition dead_end_graph : Graph.t :=
  Graph.mk "G" "" ""
    [("start", Node.mk "start" "start" "Mdiamond" "" "" ∅);
     ("a", sample_node "a"); ("c", sample_node "c")]
    [Edge.mk "start" "a" "" "" 0; Edge.mk "a" "c" "" "" 0]
    ∅.

(** A graph without a start node. *)
Definition headless_graph : Graph.t :=
  Graph.mk "G" "" "" [("a", sample_node "a")] [] ∅.

(** [run_task] on an empty task table for the task [t1], given the engine
    and the graph that [create_engine] returns. *)
Definition sample_task (engine : @PipelineEngine (list string)) (graph : Graph.t)
  : option Task.state :=
  Task.run_task (Task.mkTasks [] ∅) "t1"
    <$> run sample_mkdir sample_exists sample_write engine graph (Some Context.empty) [] 10.

(** The kinds of the events a reader of the task table sees, and of the
    events in the local list of [run_task]. *)
Definition seen_kinds (st : option Task.state) : option (list string) :=
  st ← st; List.map Task.kind <$> Task.task_events st "t1".

Definition local_kinds (st : option Task.state) : option (list string) :=
  (λ st, List.map Task.kind (Task.deref (Task.heap st) 0)) <$> st.

Definition task_status (st : option Task.state) : option string :=
  st ← st; Task.status <$> Task._task_store st !! "t1".

(** The routing scenarios of the specification: a guarded branch, a
    preferred label, and two edges that tie on the weight. *)
Definition edges_graph (edges : list Edge.t) : Graph.t :=
  Graph.mk "G" "" "" [] edges ∅.

Definition guarded_branch : Graph.t :=
  edges_graph [Edge.mk "decide" "ok" "" "outcome=success" 0;
               Edge.mk "decide" "bad" "" "" 0].

Definition labelled_branch : Graph.t :=
  edges_graph [Edge.mk "decide" "yes_branch" "[Y] Yes" "" 0;
               Edge.mk "decide" "no_branch" "No" "" 0].

Definition weighted_branch (wb wa : Z) : Graph.t :=
  edges_graph [Edge.mk "n" "b" "" "" wb; Edge.mk "n" "a" "" "" wa].


(** The [StageStarted] event of a node. *)
Definition started_event (node : Node.t) : Event.t :=
  Event.mk "StageStarted"
    [("node_id", VStr (Node.id node)); ("label", VStr (Node.display_name node))].

(** The [StageCompleted] event of a node and the outcome of its stage. *)
Definition completed_event (node : Node.t) (outcome : Outcome.t) : Event.t :=
  Event.mk "StageCompleted"
    [("node_id", VStr (Node.id node));
     ("outcome", VStr (Status.value (Outcome.status outcome)));
     ("notes", VStr (Outcome.notes outcome))].

(** A stage that begins and does not complete, for the exception [e]: called
    in the context and the world given, the handler raises [e]; or it returns
    an outcome other than FAIL, the stage has no [status.json], and
    [json.dumps] raises [e] on the outcome. *)
Definition stage_breaks {W : Type} (mkdir : string → W → W)
    (path_exists : string → string → W → bool) (handler : @Handler W)
    (node : Node.t) (context : Context.t) (graph : Graph.t) (w : W) (e : exn) : Prop :=
  match handler node context graph w with
  | (Raise e', _, _) => e' = e
  | (Ok outcome, _, w1) =>
      Outcome.status outcome ≠ FAIL
      ∧ path_exists (Node.id node) "status.json" (mkdir (Node.id node) w1) = false
      ∧ dumps_outcome outcome = Raise e
  end.


(** The handler [_resolve_handler] picks in an engine built by
    [PipelineEngine.__init__], read off the two tables. *)
Definition resolved_handler {W : Type}
    (subprocess_run : value → value → Z → W → proc_result * W)
    (codergen : @Handler W) (tool_executors : gmap string (@ToolExecutor W))
    (node : Node.t) : @Handler W :=
  let of_type (t : string) : option (@Handler W) :=
    if String.eqb t "start" then Some StartHandler
    else if String.eqb t "exit" then Some ExitHandler
    else if String.eqb t "codergen" then Some codergen
    else if String.eqb t "tool" then Some (ToolHandler_execute subprocess_run tool_executors)
    else if String.eqb t "conditional" then Some _ConditionalHandler
    else None in
  match of_type (Node.type node) with
  | Some h => h
  | None =>
      if String.eqb (Node.shape node) "Mdiamond" then StartHandler
      else if String.eqb (Node.shape node) "Msquare" then ExitHandler
      else if String.eqb (Node.shape node) "parallelogram"
      then ToolHandler_execute subprocess_run tool_executors
      else if String.eqb (Node.shape node) "diamond" then _ConditionalHandler
      else codergen
  end.

(** No node of the graph has the shape of a start node. *)
Definition no_Mdiamond (nodes : list (string * Node.t)) : Prop :=
  Forall (λ kv, Node.shape kv.2 ≠ "Mdiamond") nodes.

(** A codergen handler whose every stage succeeds with an update that json
    cannot serialize, a set. *)
Definition hoarding_outcome : Outcome.t :=
  Outcome.mk SUCCESS "" None
    (Some [("seen", VObj "{1, 2}" true
                      (Raise (TypeError "Object of type set is not JSON serializable")))])
    "" "".

Definition hoarding_handler : @Handler (list string) := λ node context graph w,
  (Ok hoarding_outcome, context, w).

Definition hoarding_engine : @PipelineEngine (list string) :=
  new_engine sample_subprocess hoarding_handler ∅.

(** A codergen handler whose every stage asks to be retried. *)
Definition retrying_handler : @Handler (list string) := λ node context graph w,
  (Ok (Outcome.default RETRY), context, w).

Definition retrying_engine : @PipelineEngine (list string) :=
  new_engine sample_subprocess retrying_handler ∅.

(** start -> work, where [work] is goal-gated and has no outgoing edge. *)
Definition stub_graph : Graph.t :=
  Graph.mk "G" "" ""
    [("start", Node.mk "start" "start" "Mdiamond" "" "" ∅);
     ("work", Node.mk "work" "work" "box" "" ""
                (Context.update ∅ [("goal_gate", VBool true)]))]
    [Edge.mk "start" "work" "" "" 0]
    ∅.

(** start -> ghost, where [ghost] is not declared. *)
Definition dangling_graph : Graph.t :=
  Graph.mk "G" "" ""
    [("start", Node.mk "start" "start" "Mdiamond" "" "" ∅)]
    [Edge.mk "start" "ghost" "" "" 0]
    ∅.

(** An executor that raises, registered under the name [lint]. *)
Definition raising_executor : @ToolExecutor (list string) := λ name node context graph w,
  (Raise (KeyError name), context, w ++ ["called"]).

Definition sample_executors : gmap string (@ToolExecutor (list string)) :=
  <["lint" := raising_executor]> ∅.

(** The nodes of a graph as the parser builds them: no id twice, and under
    each id the node that [Node(id=nid, label=str(attrs.get("label", nid)),
    ...)] makes of the id and of the attributes the node holds. *)
Definition well_keyed (nodes : list (string * Node.t)) : Prop :=
  NoDup (List.map fst nodes)
  ∧ Forall (λ kv, kv.2 = make_node kv.1 (Node.attrs kv.2)) nodes.

(** [g'] holds every node of [g], unchanged, and the edges of [g] followed by
    further edges. *)
Definition extends (g g' : Graph.t) : Prop :=
  (∀ nid n, Graph.get_node g nid = Some n → Graph.get_node g' nid = Some n)
  ∧ ∃ new, Graph.edges g' = Graph.edges g ++ new.

(** A state of the parser's loop in which the node [a] is declared with the
    label [first], and the text still to be read, which declares [a] again
    and adds an edge. *)
Definition redeclared_state : ParseState :=
  mkParse "a [label=second] a -> b" 0
    (Graph.mk "G" "" ""
       [("a", Node.mk "a" "first" "box" "" "" ∅)] [Edge.mk "x" "y" "" "" 0] ∅)
    ∅ ∅.

(** A source with defaults for its nodes, which declares [start], declares
    [work] twice, and has an edge to [done], declared nowhere. *)
Definition declared_source : string :=
  "digraph G { node [shape=ellipse] start [shape=Mdiamond] work [label="
  +:+ quoted "Do it" +:+ "] work [label=" +:+ quoted "Again" +:+ "] work -> done }".

Definition declared_graph : Graph.t :=
  Graph.mk "G" "" ""
    [("start", Node.mk "start" "start" "Mdiamond" "" ""
                 (Context.update ∅ [("shape", VStr "Mdiamond")]));
     ("work", Node.mk "work" "Do it" "ellipse" "" ""
                (Context.update ∅ [("shape", VStr "ellipse"); ("label", VStr "Do it")]))]
    [Edge.mk "work" "done" "" "" 0]
    ∅.

(** The state of the parser's loop after the declaration of [a] in the text
    [a [shape=box]; b; a -> b]. *)
Definition after_block_state : ParseState :=
  mkParse "a [shape=box]; b; a -> b " 13
    (Graph.mk "G" "" "" [("a", Node.mk "a" "a" "box" "" "" {["shape" := VStr "box"]})] [] ∅)
    ∅ ∅.

(** Three tasks, in the order in which they were started. *)
Definition three_tasks : list (string * Task.record) :=
  [("t1", Task.mkRecord "completed" 0
            (Some [("feishu_doc_url", VStr "u1"); ("status", VStr "success")]));
   ("t2", Task.mkRecord "failed" 1
            (Some [("status", VStr "failed"); ("failure_reason", VStr "boom")]));
   ("t3", Task.mkRecord "running" 2 None)].

(** The outcome of a codergen stage that produced the text [response]. *)
Definition codergen_success (node : Node.t) (response : string) : Outcome.t :=
  Outcome.mk SUCCESS "" None
    (Some [("last_stage", VStr (Node.id node));
           ("last_response", VStr (PyStr.take 200 response))])
    ("Stage completed: " +:+ Node.id node) "".

(** The prompt of a codergen stage: the prompt of the node or, when that is
    empty, its label, with [$goal] replaced by the goal of the context or,
    when that is empty, of the graph. *)
Definition codergen_prompt (node : Node.t) (context : Context.t) (graph : Graph.t)
  : string :=
  PyStr.replace "$goal"
    (if PyStr.truthy (Context.get_string context "graph.goal")
     then Context.get_string context "graph.goal" else Graph.goal graph)
    (if PyStr.truthy (Node.prompt node) then Node.prompt node else Node.label node).

(** A backend that returns an outcome json cannot serialize, and a backend
    that raises. *)
Definition hoarding_backend : @CodergenBackend (list string) := λ node prompt context w,
  (Ok (Result hoarding_outcome), context, w).

Definition raising_backend : @CodergenBackend (list string) := λ node prompt context w,
  (Raise (OtherError ("no model for " +:+ prompt)), context, w).

(** The batches [_append_with_isolation] sends, in order. *)
Definition batches_of {B : Type} (blocks : list B) : list (list B) :=
  List.map (λ i, take BATCH_SIZE (drop i blocks)) (range_step (length blocks) BATCH_SIZE).

(** An API that rejects the block 13, and records the blocks it accepts. *)
Definition unwelcome (b : nat) : bool := (b =? 13)%nat.

Definition sample_append (token document_id root_id : string) (batch : list nat)
    (w : list nat) : res unit * list nat :=
  if existsb unwelcome batch then (Raise (OtherError "invalid param"), w)
  else (Ok tt, w ++ batch).

Definition sample_dumps_block (b : nat) : string := PyStr.of_Z (Z.of_nat b).

(** An API that accepts every batch, and records the sizes of the batches. *)
Definition counting_append (token document_id root_id : string) (batch : list nat)
    (w : list nat) : res unit * list nat :=
  (Ok tt, w ++ [length batch]).

(** An API that rejects the batches of more than [limit] blocks, and
    records the blocks it accepts. *)
Definition limited_append {B : Type} (limit : nat)
    (token document_id root_id : string) (batch : list B) (w : list B)
  : res unit * list B :=
  if (limit <? length batch)%nat then (Raise (OtherError "invalid param"), w)
  else (Ok tt, w ++ batch).

(** What holds of every block the parser emits: a heading has level 1, 2 or
    3, the text of a paragraph is not empty, a list has an item. *)
Definition well_formed (b : Md.block) : Prop :=
  match b with
  | Md.Heading level _ => (1 ≤ level ≤ 3)%Z
  | Md.Paragraph text => text ≠ EmptyString
  | Md.BulletList items | Md.OrderedList items => items ≠ []
  | Md.Code _ _ | Md.Hr | Md.Blockquote _ => True
  end.

(** A README with a block of each kind. *)
Definition sample_markdown : string :=
  "# Title" +:+ String newline
  ("" +:+ String newline
  ("Some text" +:+ String newline
  ("more text" +:+ String newline
  ("#### Deep" +:+ String newline
  ("- one" +:+ String newline
  ("* two" +:+ String newline
  ("1. first" +:+ String newline
  ("2) second" +:+ String newline
  ("> quoted" +:+ String newline
  ("---" +:+ String newline
  ("```sh" +:+ String newline
  ("make" +:+ String newline
  "```")))))))))))).

(** A payload whose [block_type] is one of text (2), heading1 to heading3
    (3, 4, 5) and divider (10). *)
Definition plain_block (b : json) : Prop :=
  ∃ n rest, b = JDict (("block_type", JInt n) :: rest)
            ∧ (n = 2 ∨ n = 3 ∨ n = 4 ∨ n = 5 ∨ n = 10)%Z.

(** The pieces of a text put together again. *)
Definition glue (pieces : list string) : string := foldr String.app EmptyString pieces.

(** * Properties *)

(** ** Sample evaluations of the string operations and of the evaluator *)

Example of_Z_samples :
  PyStr.of_Z 0 = "0" ∧ PyStr.of_Z 300 = "300" ∧ PyStr.of_Z (-9) = "-9"
  ∧ PyStr.of_Z 1024 = "1024".
Proof. repeat split; reflexivity. Qed.

Example split_samples :
  PyStr.split "&&" "a && b&&" = ["a "; " b"; ""]
  ∧ PyStr.split "&&" "&&&" = [""; "&"]
  ∧ PyStr.split1 "=" "k=v=w" = ["k"; "v=w"]
  ∧ PyStr.strip "  a b  " = "a b"
  ∧ PyStr.replace "ab" "x" "cabab" = "cxx".
Proof. repeat split; reflexivity. Qed.

Example evaluate_condition_samples :
  let o := Outcome.default SUCCESS in
  evaluate_condition "outcome=success" o Context.empty = Ok true
  ∧ evaluate_condition "outcome = fail" o Context.empty = Ok false
  ∧ evaluate_condition "outcome!=fail && mode=fast" o (ctx_of [("mode", VStr "fast")]) = Ok true
  ∧ evaluate_condition "mode" o Context.empty = Ok false
  ∧ evaluate_condition "   " o Context.empty = Ok true.
Proof. repeat split; vm_compute; reflexivity. Qed.

Example normalize_label_samples :
  _normalize_label "[Y] Yes" = Ok "yes"
  ∧ _normalize_label "Y) Yes" = Ok "yes"
  ∧ _normalize_label "Y - Yes" = Ok "yes"
  ∧ _normalize_label "  No " = Ok "no"
  ∧ _normalize_label "[ok] yes" = Ok "yes"
  ∧ _normalize_label "[a] b) c" = Ok "c"
  ∧ _normalize_label "y)es" = Ok "es".
Proof. repeat split; vm_compute; reflexivity. Qed.

(** ** Trimming and lowercasing *)

Section Strip.
Variable p : ascii → bool.

Lemma rstrip_with_keep c r :
  p c = false → PyStr.rstrip_with p (String c r) = String c (PyStr.rstrip_with p r).
Proof.
  intros Hc. simpl. destruct (PyStr.rstrip_with p r); [now rewrite Hc | reflexivity].
Qed.

Lemma rstrip_with_cons c r :
  PyStr.rstrip_with p r ≠ EmptyString →
  PyStr.rstrip_with p (String c r) = String c (PyStr.rstrip_with p r).
Proof. intros H. simpl. now destruct (PyStr.rstrip_with p r). Qed.

Lemma rstrip_with_idem s :
  PyStr.rstrip_with p (PyStr.rstrip_with p s) = PyStr.rstrip_with p s.
Proof.
  induction s as [|c r IH]; [reflexivity|].
  destruct (PyStr.rstrip_with p r) as [|c' r'] eqn:E.
  - simpl. rewrite E. destruct (p c) eqn:Hc; [reflexivity|]. simpl. now rewrite Hc.
  - rewrite (rstrip_with_cons c r) by (rewrite E; discriminate).
    rewrite E. rewrite rstrip_with_cons; rewrite IH; [reflexivity | discriminate].
Qed.

Lemma lstrip_with_head s :
  PyStr.lstrip_with p s = EmptyString
  ∨ ∃ c r, PyStr.lstrip_with p s = String c r ∧ p c = false.
Proof.
  induction s as [|c r IH]; [now left|].
  simpl. destruct (p c) eqn:Hc; [exact IH|]. right. eauto.
Qed.

Lemma strip_with_idem s :
  PyStr.strip_with p (PyStr.strip_with p s) = PyStr.strip_with p s.
Proof.
  unfold PyStr.strip_with.
  destruct (lstrip_with_head s) as [-> | (c & r & -> & Hc)]; [reflexivity|].
  rewrite (rstrip_with_keep c r Hc). simpl PyStr.lstrip_with. rewrite Hc.
  rewrite (rstrip_with_keep _ _ Hc). now rewrite rstrip_with_idem.
Qed.
End Strip.

Lemma strip_idem s : PyStr.strip (PyStr.strip s) = PyStr.strip s.
Proof. apply strip_with_idem. Qed.

Lemma isspace_lower_char c : PyStr.isspace (PyStr.lower_char c) = PyStr.isspace c.
Proof. destruct c as [[] [] [] [] [] [] [] []]; reflexivity. Qed.

Lemma lstrip_lower s :
  PyStr.lstrip_with PyStr.isspace (PyStr.lower s)
  = PyStr.lower (PyStr.lstrip_with PyStr.isspace s).
Proof.
  induction s as [|c r IH]; [reflexivity|].
  simpl. rewrite isspace_lower_char. now destruct (PyStr.isspace c).
Qed.

Lemma rstrip_lower s :
  PyStr.rstrip_with PyStr.isspace (PyStr.lower s)
  = PyStr.lower (PyStr.rstrip_with PyStr.isspace s).
Proof.
  induction s as [|c r IH]; [reflexivity|].
  simpl. rewrite IH, isspace_lower_char.
  destruct (PyStr.rstrip_with PyStr.isspace r); simpl; [|reflexivity].
  now destruct (PyStr.isspace c).
Qed.

Lemma strip_lower s : PyStr.strip (PyStr.lower s) = PyStr.lower (PyStr.strip s).
Proof. unfold PyStr.strip, PyStr.strip_with. now rewrite lstrip_lower, rstrip_lower. Qed.

Lemma strip_lower_strip s :
  PyStr.strip (PyStr.lower (PyStr.strip s)) = PyStr.lower (PyStr.strip s).
Proof. now rewrite strip_lower, strip_idem. Qed.

(** ** Label normalization *)

Lemma index_1_split1 sep s i :
  PyStr.find sep s = Some i →
  index (PyStr.split1 sep s) 1 = Ok (PyStr.drop (i + String.length sep) s).
Proof. intros H. unfold PyStr.split1. now rewrite H. Qed.

Lemma prefix_empty s : String.prefix EmptyString s = true.
Proof. now destruct s. Qed.

Lemma prefix_cons a p c r :
  String.prefix (String a p) (String c r) = Ascii.eqb c a && String.prefix p r.
Proof.
  simpl. destruct (ascii_dec a c) as [->|H].
  - now rewrite Ascii.eqb_refl.
  - symmetry. apply andb_false_intro1, Ascii.eqb_neq. congruence.
Qed.

Lemma prefix_char a c r : String.prefix (String a EmptyString) (String c r) = Ascii.eqb c a.
Proof.
  simpl. rewrite prefix_empty. destruct (ascii_dec a c) as [->|H].
  - now rewrite Ascii.eqb_refl.
  - symmetry. apply Ascii.eqb_neq. congruence.
Qed.

Lemma find_char a c r :
  PyStr.find (String a EmptyString) (String c r)
  = if Ascii.eqb c a then Some 0%nat else S <$> PyStr.find (String a EmptyString) r.
Proof.
  change (PyStr.find (String a EmptyString) (String c r))
    with (if String.prefix (String a EmptyString) (String c r) then Some 0%nat
          else S <$> PyStr.find (String a EmptyString) r).
  now rewrite prefix_char.
Qed.

Lemma after_close_find n r t :
  after_close n r = Some t →
  ∃ i, PyStr.find "]" r = Some i ∧ PyStr.find "]" (PyStr.take n r) = Some i
       ∧ PyStr.drop (i + 1) r = t.
Proof.
  revert r; induction n as [|n IH]; intros [|c r] H; try discriminate.
  simpl in H. simpl PyStr.take. rewrite !find_char.
  destruct (Ascii.eqb c "]").
  - injection H as <-. exists 0%nat. now destruct r.
  - destruct (IH _ H) as (i & -> & -> & Hd). exists (S i). auto.
Qed.

Lemma after_close_none n r :
  after_close n r = None → PyStr.find "]" (PyStr.take n r) = None.
Proof.
  revert r; induction n as [|n IH]; intros [|c r] H; try reflexivity.
  simpl in H. simpl PyStr.take. rewrite find_char.
  destruct (Ascii.eqb c "]"); [discriminate|]. now rewrite (IH _ H).
Qed.

Lemma bracket_step_ok s :
  (if PyStr.startswith "[" s && PyStr.contains "]" (PyStr.take 4 s)
   then let* r := index (PyStr.split1 "]" s) 1 in Ok (PyStr.strip r)
   else Ok s) = Ok (drop_bracket s).
Proof.
  unfold PyStr.startswith, PyStr.contains.
  destruct s as [|c r]; [reflexivity|].
  rewrite prefix_char. unfold drop_bracket.
  destruct (Ascii.eqb_spec c "[") as [->|Hc]; [|reflexivity].
  change (PyStr.take 4 (String "[" r)) with (String "[" (PyStr.take 3 r)).
  rewrite find_char. change (Ascii.eqb "[" "]") with false. cbv iota.
  destruct (after_close 3 r) as [t|] eqn:E.
  - destruct (after_close_find _ _ _ E) as (i & Hf & -> & Hd).
    rewrite (index_1_split1 _ _ (S i)) by (rewrite find_char; now rewrite Hf).
    simpl. now rewrite Hd.
  - now rewrite (after_close_none _ _ E).
Qed.

Lemma paren_step_ok s :
  (if (2 <=? String.length s)%nat && String.eqb (PyStr.slice 1 2 s) ")"
   then PyStr.strip (PyStr.drop 2 s) else s) = drop_paren s.
Proof.
  destruct s as [|c0 [|c1 r]]; try reflexivity.
  unfold drop_paren, PyStr.slice. simpl.
  destruct (Ascii.eqb c1 ")"); reflexivity.
Qed.

Lemma dash_step_ok s :
  (if (3 <=? String.length s)%nat && String.eqb (PyStr.slice 1 3 s) " -"
   then PyStr.strip (PyStr.drop 3 s) else s) = drop_dash s.
Proof.
  destruct s as [|c0 [|c1 [|c2 r]]]; try reflexivity.
  all: unfold drop_dash, PyStr.slice; simpl.
  all: destruct (Ascii.eqb c1 " "); try reflexivity.
  destruct (Ascii.eqb c2 "-"); reflexivity.
Qed.

(** The three rules keep a trimmed text trimmed. *)
Lemma drop_bracket_stripped s : PyStr.strip s = s → PyStr.strip (drop_bracket s) = drop_bracket s.
Proof.
  intros H. unfold drop_bracket. destruct s as [|c r]; [exact H|].
  destruct (Ascii.eqb c "["); [|exact H].
  destruct (after_close 3 r); [apply strip_idem | exact H].
Qed.

Lemma drop_paren_stripped s : PyStr.strip s = s → PyStr.strip (drop_paren s) = drop_paren s.
Proof.
  intros H. unfold drop_paren. destruct s as [|c0 [|c1 r]]; try exact H.
  destruct (Ascii.eqb c1 ")"); [apply strip_idem | exact H].
Qed.

Lemma drop_dash_stripped s : PyStr.strip s = s → PyStr.strip (drop_dash s) = drop_dash s.
Proof.
  intros H. unfold drop_dash. destruct s as [|c0 [|c1 [|c2 r]]]; try exact H.
  destruct (Ascii.eqb c1 " " && Ascii.eqb c2 "-"); [apply strip_idem | exact H].
Qed.

Lemma normalize_label_ok label : _normalize_label label = Ok (normalized_label label).
Proof.
  unfold _normalize_label, normalized_label.
  rewrite bracket_step_ok. cbn [res_bind].
  rewrite paren_step_ok, dash_step_ok. f_equal.
  apply drop_dash_stripped, drop_paren_stripped, drop_bracket_stripped, strip_lower_strip.
Qed.

(** ** The condition evaluator *)

Lemma contains_true sub s : PyStr.contains sub s = true → ∃ i, PyStr.find sub s = Some i.
Proof. unfold PyStr.contains. destruct (PyStr.find sub s); [eauto | discriminate]. Qed.

Lemma contains_false sub s : PyStr.contains sub s = false → PyStr.find sub s = None.
Proof. unfold PyStr.contains. now destruct (PyStr.find sub s). Qed.

Lemma split1_found sep s i :
  PyStr.find sep s = Some i →
  PyStr.split1 sep s = [PyStr.take i s; PyStr.drop (i + String.length sep) s].
Proof. intros H. unfold PyStr.split1. now rewrite H. Qed.

Lemma evaluate_clause_ok clause outcome context :
  ∃ b, evaluate_clause clause outcome context = Ok b.
Proof.
  unfold evaluate_clause.
  destruct (PyStr.contains "!=" _) eqn:E1.
  { destruct (contains_true _ _ E1) as [i Hi]. rewrite (split1_found _ _ _ Hi).
    simpl. eauto. }
  destruct (PyStr.contains "=" _) eqn:E2.
  { destruct (contains_true _ _ E2) as [i Hi]. rewrite (split1_found _ _ _ Hi).
    simpl. eauto. }
  eauto.
Qed.

Lemma all_clauses_ok clauses outcome context :
  ∃ b, all_clauses clauses outcome context = Ok b.
Proof.
  induction clauses as [|c l IH]; simpl; [eauto|].
  destruct (evaluate_clause_ok c outcome context) as [b ->]. simpl.
  destruct b; eauto.
Qed.

Lemma evaluate_condition_ok condition outcome context :
  ∃ b, evaluate_condition condition outcome context = Ok b.
Proof.
  unfold evaluate_condition. destruct (_ || _); [eauto|]. apply all_clauses_ok.
Qed.

Lemma evaluate_condition_blank condition outcome context :
  PyStr.strip condition = EmptyString →
  evaluate_condition condition outcome context = Ok true.
Proof.
  intros H. unfold evaluate_condition. rewrite H. simpl.
  now rewrite orb_true_r.
Qed.

Lemma resolve_key_strip key outcome context :
  resolve_key (PyStr.strip key) outcome context = resolve_key key outcome context.
Proof. unfold resolve_key. now rewrite strip_idem. Qed.

Lemma resolve_key_unresolvable key outcome context :
  PyStr.startswith "context." (PyStr.strip key) = false →
  unresolvable key context → resolve_key key outcome context = EmptyString.
Proof.
  intros Hp (H1 & H2 & H3). unfold resolve_key, named_keys in *.
  rewrite (proj2 (String.eqb_neq _ _) H1), (proj2 (String.eqb_neq _ _) H2).
  rewrite Hp in *.
  apply Forall_cons in H3 as [Ha _]. now rewrite Ha.
Qed.

Lemma find_eq_none_ne s : PyStr.find "=" s = None → PyStr.find "!=" s = None.
Proof.
  induction s as [|c r IH]; [reflexivity|].
  rewrite find_char. destruct (Ascii.eqb c "="); [discriminate|].
  destruct (PyStr.find "=" r) as [i|] eqn:E; [discriminate|]. intros _.
  change (PyStr.find "!=" (String c r))
    with (if String.prefix "!=" (String c r) then Some 0%nat else S <$> PyStr.find "!=" r).
  rewrite (IH eq_refl).
  rewrite prefix_cons. destruct (Ascii.eqb c "!"); [|reflexivity].
  destruct r as [|c' r']; [reflexivity|].
  rewrite find_char in E. rewrite prefix_char.
  now destruct (Ascii.eqb c' "=").
Qed.

Lemma app_nil_l s : EmptyString +:+ s = s.
Proof. reflexivity. Qed.

Lemma app_cons c r s : String c r +:+ s = String c (r +:+ s).
Proof. reflexivity. Qed.

Lemma find_app_char a key rhs :
  PyStr.find (String a EmptyString) key = None →
  PyStr.find (String a EmptyString) (key +:+ String a rhs) = Some (String.length key).
Proof.
  induction key as [|c r IH]; intros H.
  - rewrite app_nil_l, find_char. now rewrite Ascii.eqb_refl.
  - rewrite find_char in H. rewrite app_cons, find_char.
    destruct (Ascii.eqb c a); [discriminate|].
    destruct (PyStr.find (String a EmptyString) r); [discriminate|].
    now rewrite (IH eq_refl).
Qed.

Lemma take_app key rest : PyStr.take (String.length key) (key +:+ rest) = key.
Proof.
  induction key as [|c r IH].
  - rewrite app_nil_l. now destruct rest.
  - rewrite app_cons. simpl. now rewrite IH.
Qed.

Lemma drop_app key rest : PyStr.drop (String.length key) (key +:+ rest) = rest.
Proof.
  induction key as [|c r IH].
  - rewrite app_nil_l. now destruct rest.
  - rewrite app_cons. exact IH.
Qed.

Lemma length_app_char key a : String.length (key +:+ String a EmptyString) = (String.length key + 1)%nat.
Proof. induction key as [|c r IH]; [reflexivity|]. rewrite app_cons. simpl. now rewrite IH. Qed.

Lemma app_char_assoc key a rhs : (key +:+ String a EmptyString) +:+ rhs = key +:+ String a rhs.
Proof. induction key as [|c r IH]; [reflexivity|]. rewrite !app_cons. now rewrite IH. Qed.

Lemma evaluate_clause_bare clause outcome context :
  PyStr.contains "=" (PyStr.strip clause) = false →
  evaluate_clause clause outcome context
  = Ok (PyStr.truthy (resolve_key clause outcome context)).
Proof.
  intros H. unfold evaluate_clause. rewrite H.
  unfold PyStr.contains at 1. rewrite (find_eq_none_ne _ (contains_false _ _ H)).
  now rewrite resolve_key_strip.
Qed.

Lemma evaluate_clause_equality clause key rhs outcome context :
  PyStr.strip clause = key +:+ String "=" rhs →
  PyStr.contains "=" key = false →
  PyStr.contains "!=" (PyStr.strip clause) = false →
  evaluate_clause clause outcome context
  = Ok (String.eqb (resolve_key key outcome context)
          (PyStr.strip_char quote (PyStr.strip rhs))).
Proof.
  intros Hc Hk Hne. unfold evaluate_clause. rewrite Hne, Hc.
  pose proof (find_app_char "=" key rhs (contains_false _ _ Hk)) as Hf.
  unfold PyStr.contains. rewrite Hf, (split1_found _ _ _ Hf). simpl.
  rewrite take_app, resolve_key_strip.
  rewrite <- (length_app_char key "="), <- (app_char_assoc key "=" rhs).
  now rewrite drop_app.
Qed.

Lemma split_no_sep sep cur s :
  PyStr.find sep s = None → PyStr.split_go sep 0 cur s = [String.rev_app cur s].
Proof.
  revert cur; induction s as [|c r IH]; intros cur H; [reflexivity|].
  change (PyStr.find sep (String c r))
    with (if String.prefix sep (String c r) then Some 0%nat else S <$> PyStr.find sep r) in H.
  change (PyStr.split_go sep 0 cur (String c r))
    with (if String.prefix sep (String c r)
          then String.rev cur :: PyStr.split_go sep (String.length sep - 1) EmptyString r
          else PyStr.split_go sep 0 (String c cur) r).
  destruct (String.prefix sep (String c r)); [discriminate|].
  destruct (PyStr.find sep r) eqn:E; [discriminate|].
  now rewrite (IH _ eq_refl).
Qed.

Lemma evaluate_clause_strip clause outcome context :
  evaluate_clause (PyStr.strip clause) outcome context = evaluate_clause clause outcome context.
Proof. unfold evaluate_clause. now rewrite strip_idem. Qed.

Lemma evaluate_condition_single condition outcome context :
  PyStr.find "&&" condition = None →
  PyStr.strip condition ≠ EmptyString →
  evaluate_condition condition outcome context = evaluate_clause condition outcome context.
Proof.
  intros Hf Hs. unfold evaluate_condition, PyStr.split.
  assert (Ht : PyStr.truthy (PyStr.strip condition) = true).
  { unfold PyStr.truthy. now rewrite (proj2 (String.eqb_neq _ _) Hs). }
  assert (Hc : PyStr.truthy condition = true).
  { destruct condition; [now destruct Hs | reflexivity]. }
  rewrite Ht, Hc, (split_no_sep _ _ _ Hf). simpl. rewrite Ht. simpl.
  rewrite evaluate_clause_strip.
  destruct (evaluate_clause condition outcome context) as [[]|]; reflexivity.
Qed.

(** C6 at a failing input. As the claim has it, condition evaluation is
    total: for every condition string, outcome and context,
    [evaluate_condition] returns a boolean and raises nothing (the two
    subscripts of [evaluate_clause] are always in range); a condition that is
    empty or holds only whitespace evaluates to true; and a key without the
    prefix [context.] that is not resolvable resolves to the empty string, so
    that a clause made of the key alone is false and an equality clause on it
    is true exactly when the value compared with, once trimmed and unquoted,
    is the empty string; a condition made of one clause evaluates as that
    clause. A key [context.<name>], however, is looked up under
    the name less its first character (the slip of C4): with the context
    {ode: x} the key [context.mode] is not resolvable, the context holding
    nothing under [mode] nor under [context.mode], and yet it resolves to
    [x]. The clause [context.mode] is then true and so is [context.mode=x],
    where the claim has false, and the comparison with the empty string is
    false, where the claim has true. *)
Theorem unresolvable_key_resolves :
  (∀ condition outcome context,
     ∃ b, evaluate_condition condition outcome context = Ok b)
  ∧ (∀ condition outcome context,
       PyStr.strip condition = EmptyString →
       evaluate_condition condition outcome context = Ok true)
  ∧ (∀ key outcome context,
       PyStr.startswith "context." (PyStr.strip key) = false →
       unresolvable key context →
       resolve_key key outcome context = EmptyString
       ∧ (PyStr.contains "=" (PyStr.strip key) = false →
          evaluate_clause key outcome context = Ok false)
       ∧ (∀ clause rhs,
            PyStr.strip clause = key +:+ String "=" rhs →
            PyStr.contains "=" key = false →
            PyStr.contains "!=" (PyStr.strip clause) = false →
            evaluate_clause clause outcome context
            = Ok (bool_decide (PyStr.strip_char quote (PyStr.strip rhs) = EmptyString))))
  ∧ (∀ condition outcome context,
       PyStr.find "&&" condition = None →
       PyStr.strip condition ≠ EmptyString →
       evaluate_condition condition outcome context
       = evaluate_clause condition outcome context)
  ∧ ∀ outcome,
      let context := ctx_of [("ode", VStr "x")] in
      unresolvable "context.mode" context
      ∧ named_keys "context.mode" = ["mode"; "context.mode"]
      ∧ resolve_key "context.mode" outcome context = "x"
      ∧ evaluate_condition "context.mode" outcome context = Ok true
      ∧ evaluate_condition "context.mode=x" outcome context = Ok true
      ∧ evaluate_condition ("context.mode=" +:+ String quote (String quote EmptyString))
          outcome context = Ok false.
Proof.
  split; [exact evaluate_condition_ok|].
  split; [exact evaluate_condition_blank|].
  split; [|split; [exact evaluate_condition_single|]].
  - intros key outcome context Hp Hu.
    pose proof (resolve_key_unresolvable key outcome context Hp Hu) as Hr.
    split; [exact Hr|]. split.
    + intros Hb. rewrite (evaluate_clause_bare _ _ _ Hb). now rewrite Hr.
    + intros clause rhs Hc Hk Hne.
      rewrite (evaluate_clause_equality _ _ _ _ _ Hc Hk Hne), Hr. f_equal.
      destruct (PyStr.strip_char quote (PyStr.strip rhs)); reflexivity.
  - intros outcome context. split.
    { split; [discriminate|]. split; [discriminate|].
      repeat constructor. }
    repeat split; vm_compute; reflexivity.
Qed.

Lemma unresolvable_key_resolves_witness :
  let o := Outcome.default SUCCESS in
  evaluate_condition "  " o Context.empty = Ok true
  ∧ resolve_key "missing" o Context.empty = EmptyString
  ∧ evaluate_clause "missing" o Context.empty = Ok false
  ∧ evaluate_clause "missing = x" o Context.empty = Ok false
  ∧ evaluate_clause (String.app "missing=" (String quote (String quote EmptyString))) o
      Context.empty = Ok true
  ∧ evaluate_condition "context.mode" o (ctx_of [("ode", VStr "x")]) = Ok true.
Proof.
  intros o.
  destruct unresolvable_key_resolves as (_ & Hblank & Hkey & _ & Hbug).
  assert (Hu : unresolvable "missing" Context.empty).
  { repeat split; try discriminate. repeat constructor. }
  assert (Hu' : unresolvable "missing " Context.empty).
  { repeat split; try discriminate. repeat constructor. }
  destruct (Hkey "missing" o Context.empty eq_refl Hu) as (Hr & Hbare & Heq).
  destruct (Hkey "missing " o Context.empty eq_refl Hu') as (_ & _ & Heq').
  split; [apply Hblank; reflexivity|].
  split; [exact Hr|].
  split; [apply Hbare; reflexivity|].
  split; [apply (Heq' "missing = x" " x"); reflexivity|].
  split; [apply (Heq _ (String quote (String quote EmptyString))); reflexivity|].
  exact (proj1 (proj2 (proj2 (proj2 (Hbug o))))).
Defined.

(** ** Comprehensions and loops whose test cannot raise *)

Lemma filter_res_ok {A : Type} (p : A → res bool) (q : A → bool) (l : list A) :
  (∀ x, p x = Ok (q x)) → filter_res p l = Ok (List.filter q l).
Proof.
  intros H. induction l as [|x l IH]; [reflexivity|].
  simpl. rewrite H, IH. simpl. now destruct (q x).
Qed.

Lemma find_res_ok {A : Type} (p : A → res bool) (q : A → bool) (l : list A) :
  (∀ x, p x = Ok (q x)) → find_res p l = Ok (List.find q l).
Proof.
  intros H. induction l as [|x l IH]; [reflexivity|].
  simpl. rewrite H. simpl. now destruct (q x).
Qed.

Lemma guard_matches_ok outcome context e :
  guard_matches outcome context e = Ok (guard_true outcome context e).
Proof.
  unfold guard_matches, guard_true.
  destruct (PyStr.truthy (Edge.condition e)); [|reflexivity].
  destruct (evaluate_condition_ok (Edge.condition e) outcome context) as [b ->].
  now destruct b.
Qed.

Lemma label_matches_ok pl e :
  label_matches pl e = Ok (String.eqb (normalized_label (Edge.label e)) pl).
Proof. unfold label_matches. now rewrite normalize_label_ok. Qed.

(** ** The order (weight DESC, to_node ASC) *)

Lemma ltb_leb a b : String.ltb a b = negb (String.leb b a).
Proof.
  unfold String.ltb, String.leb. rewrite (String.compare_antisym b a).
  now destruct (String.compare a b).
Qed.

Lemma leb_trans a b c :
  String.leb a b = true → String.leb b c = true → String.leb a c = true.
Proof.
  intros H1 H2. apply Is_true_true.
  change (String.le a c). transitivity b; apply Is_true_true; assumption.
Qed.

Lemma ltb_neg_trans a b c :
  String.ltb a b = false → String.ltb b c = false → String.ltb a c = false.
Proof.
  rewrite !ltb_leb, !negb_false_iff. intros H1 H2. exact (leb_trans _ _ _ H2 H1).
Qed.

Lemma ltb_trans a b c :
  String.ltb a b = true → String.ltb b c = true → String.ltb a c = true.
Proof.
  rewrite !ltb_leb, !negb_true_iff. intros H1 H2.
  destruct (String.leb c a) eqn:E; [|reflexivity].
  destruct (String.leb_total a b) as [Hab|Hba]; [|congruence].
  rewrite (leb_trans _ _ _ E Hab) in H2. discriminate.
Qed.

Lemma edge_key_lt_precedes a b : edge_key_lt a b = precedes a b.
Proof.
  unfold edge_key_lt, precedes. f_equal.
  - destruct (Z.ltb_spec (- Edge.weight a) (- Edge.weight b)),
             (Z.ltb_spec (Edge.weight b) (Edge.weight a)); (reflexivity || lia).
  - f_equal.
    destruct (Z.eqb_spec (- Edge.weight a) (- Edge.weight b)),
             (Z.eqb_spec (Edge.weight a) (Edge.weight b)); (reflexivity || lia).
Qed.

Lemma precedes_trans a b c :
  precedes a b = true → precedes b c = true → precedes a c = true.
Proof.
  unfold precedes. rewrite !orb_true_iff, !andb_true_iff, !Z.ltb_lt, !Z.eqb_eq.
  intros [H1|[H1 L1]] [H2|[H2 L2]]; try (left; lia).
  right. split; [lia|]. exact (ltb_trans _ _ _ L1 L2).
Qed.

Lemma precedes_neg_trans a b c :
  precedes a b = false → precedes b c = false → precedes a c = false.
Proof.
  unfold precedes. rewrite !orb_false_iff, !andb_false_iff, !Z.ltb_ge, !Z.eqb_neq.
  intros [H1 E1] [H2 E2]. split; [lia|].
  destruct (Z.eq_dec (Edge.weight a) (Edge.weight c)) as [Hac|Hac]; [|now left].
  right. destruct E1 as [E1|E1]; [lia|]. destruct E2 as [E2|E2]; [lia|].
  exact (ltb_neg_trans _ _ _ E1 E2).
Qed.

(** ** The head of the sorted list *)

Lemma head_insert_sorted {A : Type} (lt : A → A → bool) x l :
  head (insert_sorted lt x l)
  = Some (match head l with
          | Some y => if lt y x then y else x
          | None => x
          end).
Proof. destruct l as [|y l]; simpl; [reflexivity|]. now destruct (lt y x). Qed.

Lemma head_sorted_best l : head (sorted edge_key_lt l) = best_edge l.
Proof.
  induction l as [|e l IH]; [reflexivity|].
  simpl. rewrite head_insert_sorted, IH.
  destruct (best_edge l) as [b|]; [|reflexivity].
  rewrite edge_key_lt_precedes. now destruct (precedes b e).
Qed.

Lemma first_by_weight_best l e :
  best_edge l = Some e → first_by_weight l = Ok e.
Proof.
  intros H. unfold first_by_weight, index.
  rewrite <- head_sorted_best in H.
  destruct (sorted edge_key_lt l); [discriminate|]. simpl in *. now injection H as ->.
Qed.

Lemma best_edge_cons e l : ∃ b, best_edge (e :: l) = Some b.
Proof. simpl. destruct (best_edge l) as [b|]; [destruct (precedes b e)|]; eauto. Qed.

Lemma best_edge_none l : best_edge l = None → l = [].
Proof.
  destruct l as [|e l]; [reflexivity|].
  destruct (best_edge_cons e l) as [b ->]. discriminate.
Qed.

Lemma best_edge_picked l e : best_edge l = Some e → picked_by_weight l e.
Proof.
  revert e; induction l as [|x l IH]; intros e H; [discriminate|].
  simpl in H. destruct (best_edge l) as [b|] eqn:E.
  - destruct (IH b eq_refl) as (l1 & l2 & -> & H1 & H2).
    destruct (precedes b x) eqn:P; injection H as <-.
    + exists (x :: l1), l2. repeat split; [constructor|]; assumption.
    + exists [], (l1 ++ b :: l2). repeat split; [constructor|].
      apply Forall_app. split; [|constructor].
      * eapply Forall_impl; [exact H1|]. intros e' He'. simpl in He'.
        destruct (precedes e' x) eqn:Q; [|reflexivity].
        rewrite (precedes_trans _ _ _ He' Q) in P. discriminate.
      * exact P.
      * eapply Forall_impl; [exact H2|]. intros e' He'. simpl in He'.
        exact (precedes_neg_trans _ _ _ He' P).
  - injection H as <-. rewrite (best_edge_none _ E).
    exists [], []. repeat split; constructor.
Qed.

(** ** Edge selection *)

Lemma find_head_filter {A : Type} (q : A → bool) (l : list A) :
  List.find q l = head (List.filter q l).
Proof.
  induction l as [|x l IH]; [reflexivity|]. simpl. now destruct (q x).
Qed.

(** The two nested loops of the code pick the edge of the group. *)
Lemma first_suggested_spec ids edges :
  first_suggested ids edges = suggested_edge ids edges.
Proof.
  unfold suggested_edge. induction ids as [|sid ids IH]; [reflexivity|].
  cbn [first_suggested omap list_omap]. rewrite find_head_filter. fold (first_edge_to edges sid).
  now destruct (first_edge_to edges sid).
Qed.

Lemma suggested_edge_nil ids : suggested_edge ids [] = None.
Proof.
  unfold suggested_edge. induction ids as [|sid ids IH]; [reflexivity | exact IH].
Qed.

Lemma first_edge_to_some edges sid e :
  first_edge_to edges sid = Some e →
  Edge.to_node e = sid
  ∧ ∃ l1 l2, edges = l1 ++ e :: l2 ∧ Forall (λ e', Edge.to_node e' ≠ sid) l1.
Proof.
  unfold first_edge_to. induction edges as [|x l IH]; [discriminate|].
  simpl. destruct (String.eqb_spec (Edge.to_node x) sid) as [Hx|Hx].
  - intros [= <-]. split; [assumption|]. exists [], l. split; [reflexivity|constructor].
  - intros H. destruct (IH H) as (He & l1 & l2 & -> & Hl1). split; [assumption|].
    exists (x :: l1), l2. split; [reflexivity|]. now constructor.
Qed.

Lemma first_edge_to_none edges sid :
  first_edge_to edges sid = None → Forall (λ e', Edge.to_node e' ≠ sid) edges.
Proof.
  unfold first_edge_to. induction edges as [|x l IH]; [constructor|].
  simpl. destruct (String.eqb_spec (Edge.to_node x) sid) as [Hx|Hx]; [discriminate|].
  intros H. constructor; auto.
Qed.

Lemma suggested_edge_picked ids edges :
  match suggested_edge ids edges with
  | Some e => picked_by_suggestion ids edges e
  | None => Forall (λ sid, Forall (λ e', Edge.to_node e' ≠ sid) edges) ids
  end.
Proof.
  unfold suggested_edge. induction ids as [|sid ids IH]; [constructor|].
  cbn [omap list_omap]. destruct (first_edge_to edges sid) as [e|] eqn:He.
  - cbn [head]. apply first_edge_to_some in He as (<- & l1 & l2 & -> & Hl1).
    exists [], ids, l1, l2. repeat split; [assumption|constructor].
  - apply first_edge_to_none in He.
    destruct (head (omap (first_edge_to edges) ids)) as [e|].
    + destruct IH as (ids1 & ids2 & l1 & l2 & -> & -> & Hl1 & Hids1).
      exists (sid :: ids1), ids2, l1, l2. repeat split; [assumption|]. now constructor.
    + now constructor.
Qed.

Lemma filter_ext_bool {A : Type} (f g : A → bool) (l : list A) :
  (∀ x, f x = g x) → List.filter f l = List.filter g l.
Proof.
  intros H. induction l as [|x l IH]; [reflexivity|].
  simpl. now rewrite H, IH.
Qed.

Lemma first_by_weight_cons e l :
  ∃ b, best_edge (e :: l) = Some b ∧ first_by_weight (e :: l) = Ok b.
Proof.
  destruct (best_edge_cons e l) as [b Hb]. exists b. split; [exact Hb|].
  now apply first_by_weight_best.
Qed.

Lemma select_edge_ok node outcome context graph :
  select_edge node outcome context graph
  = Ok (select_edge_spec node outcome context graph).
Proof.
  unfold select_edge, select_edge_spec.
  destruct (Graph.outgoing_edges graph (Node.id node)) as [|e0 es] eqn:Hedges.
  { simpl. rewrite suggested_edge_nil. now destruct (PyStr.truthy _). }
  set (edges := e0 :: es).
  rewrite (filter_res_ok _ _ edges (guard_matches_ok outcome context)).
  cbn [res_bind].
  destruct (List.filter (guard_true outcome context) edges) as [|c cs] eqn:Hcm.
  2:{ destruct (first_by_weight_cons c cs) as (b & -> & ->). reflexivity. }
  cbn [best_edge].
  assert (Hlab :
    (if PyStr.truthy (Outcome.preferred_label outcome)
     then let* pl := _normalize_label (Outcome.preferred_label outcome)
          in find_res (label_matches pl) edges
     else Ok None)
    = Ok (if PyStr.truthy (Outcome.preferred_label outcome)
          then List.find
                 (λ e, String.eqb (normalized_label (Edge.label e))
                         (normalized_label (Outcome.preferred_label outcome)))
                 edges
          else None)).
  { destruct (PyStr.truthy _); [|reflexivity].
    rewrite normalize_label_ok. cbn [res_bind].
    apply find_res_ok. intros x. apply label_matches_ok. }
  rewrite Hlab. clear Hlab. cbn [res_bind].
  destruct (if PyStr.truthy (Outcome.preferred_label outcome) then _ else _)
    as [e|]; [reflexivity|].
  assert (Hsug :
    match Outcome.suggested_next_ids outcome with
    | Some ((_ :: _) as ids) => first_suggested ids edges
    | _ => None
    end = suggested_edge (default [] (Outcome.suggested_next_ids outcome)) edges).
  { rewrite <- first_suggested_spec.
    now destruct (Outcome.suggested_next_ids outcome) as [[|]|]. }
  rewrite Hsug.
  destruct (suggested_edge _ edges) as [e|]; [reflexivity|].
  rewrite (filter_ext_bool (λ e, negb (PyStr.truthy (Edge.condition e)))
             (λ e, String.eqb (Edge.condition e) "")).
  2:{ intros x. unfold PyStr.truthy. apply negb_involutive. }
  clear Hcm Hsug.
  destruct (List.filter (λ e, String.eqb (Edge.condition e) "") edges) as [|u us].
  - cbn [best_edge]. subst edges.
    destruct (first_by_weight_cons e0 es) as (b & -> & ->). reflexivity.
  - destruct (first_by_weight_cons u us) as (b & -> & ->). reflexivity.
Qed.

(** C1. For every node, outcome, context and graph, [select_edge] raises
    nothing and returns the edge fixed by the five groups in their order
    ([select_edge_spec]): the best guard-matched edge; else, for a non-empty
    preferred label, the first edge with the same normalized label; else, for
    the suggested ids in their order, the first edge to the first of them
    that has one ([suggested_edge]); else the best edge with an empty guard;
    else the best edge. It returns [None] exactly when the node has no
    outgoing edge. The best edge of a list is the one picked by (weight DESC,
    to_node ASC), the edge declared first among equals. The edge of the
    suggested ids leads to a suggested id, no edge leads to a suggested id
    before that one, and no edge declared earlier leads where it does; there
    is none exactly when no edge leads to a suggested id. The result is a
    function of the four arguments, so repeated calls on the same inputs
    return the same edge. *)
Theorem select_edge_five_groups :
  ∀ (node : Node.t) (outcome : Outcome.t) (context : Context.t) (graph : Graph.t),
    select_edge node outcome context graph
    = Ok (select_edge_spec node outcome context graph)
    ∧ (Graph.outgoing_edges graph (Node.id node) = [] ↔
       select_edge node outcome context graph = Ok None)
    ∧ (∀ l : list Edge.t,
         match best_edge l with
         | Some e => picked_by_weight l e
         | None => l = []
         end)
    ∧ ∀ (ids : list string) (edges : list Edge.t),
        match suggested_edge ids edges with
        | Some e => picked_by_suggestion ids edges e
        | None => Forall (λ sid, Forall (λ e', Edge.to_node e' ≠ sid) edges) ids
        end.
Proof.
  intros node outcome context graph.
  split; [apply select_edge_ok|]. split; [|split].
  - rewrite select_edge_ok. unfold select_edge_spec.
    destruct (Graph.outgoing_edges graph (Node.id node)) as [|e0 es].
    + simpl. rewrite suggested_edge_nil. now destruct (PyStr.truthy _).
    + split; [discriminate|]. intros H. exfalso.
      destruct (best_edge_cons e0 es) as [b Hb]. rewrite Hb in H.
      repeat (match type of H with
              | context [match ?x with _ => _ end] => destruct x
              end; try discriminate).
  - intros l. destruct (best_edge l) eqn:E.
    + now apply best_edge_picked.
    + now apply best_edge_none.
  - apply suggested_edge_picked.
Qed.

Lemma find_first {A : Type} (q : A → bool) (l1 l2 : list A) (x : A) :
  Forall (λ y, q y = false) l1 → q x = true → List.find q (l1 ++ x :: l2) = Some x.
Proof.
  intros H Hx. induction H as [|y l Hy _ IH]; simpl.
  - now rewrite Hx.
  - now rewrite Hy.
Qed.

Lemma filter_none {A : Type} (q : A → bool) (l : list A) :
  Forall (λ y, q y = false) l → List.filter q l = [].
Proof.
  induction 1 as [|y l Hy _ IH]; [reflexivity|]. simpl. now rewrite Hy.
Qed.

(** C10. When no edge of the node has a non-empty guard that evaluates true
    and the preferred label of the outcome is not empty, [select_edge]
    returns the first outgoing edge, in declaration order, whose normalized
    label equals the normalized preferred label. Nothing is asked of the
    weight of that edge or of its guard, nor of the edges declared after it:
    an edge whose non-empty guard evaluates false is selected by its label,
    and it wins over a heavier edge with the same label declared later (the
    sample pipeline below has both). *)
Theorem preferred_label_first_declared
    (node : Node.t) (outcome : Outcome.t) (context : Context.t) (graph : Graph.t)
    (l1 l2 : list Edge.t) (e : Edge.t) :
  Graph.outgoing_edges graph (Node.id node) = l1 ++ e :: l2 →
  Forall (λ e', guard_matches outcome context e' = Ok false) (l1 ++ e :: l2) →
  Outcome.preferred_label outcome ≠ EmptyString →
  _normalize_label (Edge.label e) = _normalize_label (Outcome.preferred_label outcome) →
  Forall (λ e', _normalize_label (Edge.label e')
                ≠ _normalize_label (Outcome.preferred_label outcome)) l1 →
  select_edge node outcome context graph = Ok (Some e).
Proof.
  intros Hedges Hguard Hpl He Hl1.
  rewrite select_edge_ok. unfold select_edge_spec. rewrite Hedges.
  rewrite filter_none.
  2:{ eapply Forall_impl; [exact Hguard|]. intros x Hx. simpl in Hx.
      rewrite guard_matches_ok in Hx. congruence. }
  cbn [best_edge].
  assert (Ht : PyStr.truthy (Outcome.preferred_label outcome) = true).
  { unfold PyStr.truthy. now rewrite (proj2 (String.eqb_neq _ _) Hpl). }
  rewrite Ht, (find_first _ l1 l2 e); [reflexivity| |].
  - eapply Forall_impl; [exact Hl1|]. intros x Hx. simpl in Hx.
    rewrite !normalize_label_ok in Hx. apply String.eqb_neq. congruence.
  - rewrite !normalize_label_ok in He. apply String.eqb_eq. congruence.
Qed.

Definition label_graph : Graph.t :=
  Graph.mk "G" "" ""
    [("n", sample_node "n"); ("a", sample_node "a"); ("b", sample_node "b");
     ("c", sample_node "c")]
    [Edge.mk "n" "a" "No" "" 0;
     Edge.mk "n" "b" "[Y] Yes" "outcome=fail" 1;
     Edge.mk "n" "c" "yes" "" 9]
    ∅.

Lemma preferred_label_first_declared_witness :
  let outcome := Outcome.mk SUCCESS "Yes" None None "" "" in
  let e := Edge.mk "n" "b" "[Y] Yes" "outcome=fail" 1 in
  evaluate_condition (Edge.condition e) outcome Context.empty = Ok false
  ∧ select_edge (sample_node "n") outcome Context.empty label_graph = Ok (Some e).
Proof.
  intros outcome e. split; [reflexivity|].
  apply (preferred_label_first_declared (sample_node "n") outcome Context.empty
           label_graph [Edge.mk "n" "a" "No" "" 0] [Edge.mk "n" "c" "yes" "" 9] e).
  - reflexivity.
  - repeat constructor.
  - discriminate.
  - reflexivity.
  - repeat constructor. vm_compute. discriminate.
Defined.

Example select_edge_scenarios :
  let success := Outcome.default SUCCESS in
  let to := λ r : res (option Edge.t),
    match r with
    | Ok (Some e) => Some (Edge.to_node e)
    | _ => None
    end in
  to (select_edge (sample_node "decide") success Context.empty guarded_branch) = Some "ok"
  ∧ to (select_edge (sample_node "decide") (Outcome.default RETRY) Context.empty
          guarded_branch) = Some "bad"
  ∧ to (select_edge (sample_node "decide") (Outcome.mk SUCCESS "yes" None None "" "")
          Context.empty labelled_branch) = Some "yes_branch"
  ∧ to (select_edge (sample_node "n") success Context.empty (weighted_branch 1 1))
    = Some "a"
  ∧ to (select_edge (sample_node "n") success Context.empty (weighted_branch 2 1))
    = Some "b"
  ∧ to (select_edge (sample_node "n") (Outcome.mk SUCCESS "" (Some ["z"; "b"]) None "" "")
          Context.empty (weighted_branch 1 1)) = Some "b"
  ∧ select_edge (sample_node "other") success Context.empty guarded_branch = Ok None.
Proof. repeat split; vm_compute; reflexivity. Qed.

(** ** Label normalization against the specification *)

(** C7, as the specification words it, fails: the code strips a bracket
    group of two characters, and it strips a second prefix after the first,
    while the specification strips one prefix of the one-character forms. *)
Lemma normalize_label_spec_differs :
  (_normalize_label "[ok] yes" = Ok "yes"
   ∧ normalize_label_spec "[ok] yes" = "[ok] yes")
  ∧ (_normalize_label "[a] b) c" = Ok "c"
     ∧ normalize_label_spec "[a] b) c" = "b) c")
  ∧ ¬ (∀ label, _normalize_label label = Ok (normalize_label_spec label)).
Proof.
  split; [split; vm_compute; reflexivity|].
  split; [split; vm_compute; reflexivity|].
  intros H. specialize (H "[ok] yes"). vm_compute in H. discriminate.
Qed.

Example normalize_label_beyond_spec :
  normalize_label_spec "y)es" = "y)es" ∧ _normalize_label "y)es" = Ok "es"
  ∧ normalize_label_spec "[]yes" = "[]yes" ∧ _normalize_label "[]yes" = Ok "yes"
  ∧ normalize_label_spec "a -b" = "a -b" ∧ _normalize_label "a -b" = Ok "b"
  ∧ normalize_label_spec "[Y] Yes" = "yes" ∧ normalize_label_spec "Y) Yes" = "yes"
  ∧ normalize_label_spec "Y - Yes" = "yes".
Proof. repeat split; vm_compute; reflexivity. Qed.

(** C7, amended. Label normalization never raises; it trims, lowercases,
    then applies three rules in this order, each at most once, trimming what
    is left after a rule has applied: a leading bracket group whose closing
    bracket is among the first four characters is dropped (so the group holds
    at most two characters, and a blank need not follow it); then a first
    character followed by a closing parenthesis is dropped with it; then a
    first character followed by a blank and a dash is dropped with them. The
    labels [[Y] Yes], [Y) Yes] and [Y - Yes] all normalize to [yes]. *)
Theorem normalize_label_rules :
  ∀ label : string,
    _normalize_label label
    = Ok (drop_dash (drop_paren (drop_bracket (PyStr.lower (PyStr.strip label)))))
    ∧ _normalize_label "[Y] Yes" = Ok "yes"
    ∧ _normalize_label "Y) Yes" = Ok "yes"
    ∧ _normalize_label "Y - Yes" = Ok "yes".
Proof.
  intros label. split; [apply normalize_label_ok|].
  repeat split; vm_compute; reflexivity.
Qed.

(** ** Keys with the [context.] prefix *)

(** C4 at a failing input: the prefix has eight characters and the code
    drops nine, so [context.mode] is looked up under [ode]. *)
Example resolve_key_context_prefix :
  let o := Outcome.default SUCCESS in
  resolve_key "context.mode" o (ctx_of [("mode", VStr "rewrite")]) = ""
  ∧ resolve_key "context.mode" o (ctx_of [("ode", VStr "x")]) = "x"
  ∧ resolve_key "context.mode" o (ctx_of [("context.mode", VStr "lit")]) = "lit"
  ∧ lookups "context.mode" = ["ode"; "context.mode"].
Proof. repeat split; vm_compute; reflexivity. Qed.

(** ** The engine at a terminal node *)

Section EngineProperties.
Context {W : Type} (mkdir : string → W → W) (path_exists : string → string → W → bool).
Context (write_text : string → string → string → W → W).
Context (self : @PipelineEngine W) (graph : Graph.t).

Lemma loop_reaches st0 st r :
  reaches mkdir path_exists write_text self graph st0 st →
  loop_body mkdir path_exists write_text self graph st = inr r →
  ∃ fuel0, ∀ fuel, (fuel0 ≤ fuel)%nat → loop mkdir path_exists write_text self graph fuel
      st0 = Some r.
Proof.
  intros Hreach Hend. induction Hreach as [st|st st' st'' Hstep _ IH].
  - exists 1%nat. intros [|fuel] Hle; [lia|]. simpl. now rewrite Hend.
  - destruct (IH Hend) as [fuel0 Hfuel]. exists (S fuel0).
    intros [|fuel] Hle; [lia|]. simpl. rewrite Hstep. apply Hfuel. lia.
Qed.

Lemma goal_gate_failure_some items nid oc :
  goal_gate_failure graph items = Some (nid, oc) →
  (nid, oc) ∈ items ∧ gate_violation graph nid oc.
Proof.
  induction items as [|[k o] items IH]; [discriminate|].
  simpl. destruct (Graph.get_node graph k) as [n|] eqn:Hn.
  - destruct (py_bool (Node.attr n "goal_gate")) eqn:Hg; simpl.
    + destruct (bool_decide (Outcome.status o = SUCCESS)) eqn:H1; simpl.
      { intros H. destruct (IH H). split; [now right | assumption]. }
      destruct (bool_decide (Outcome.status o = PARTIAL_SUCCESS)) eqn:H2; simpl.
      { intros H. destruct (IH H). split; [now right | assumption]. }
      intros [= <- <-]. split; [left|].
      exists n. repeat split; try assumption.
      * now apply bool_decide_eq_false in H1.
      * now apply bool_decide_eq_false in H2.
    + intros H. destruct (IH H). split; [now right | assumption].
  - intros H. destruct (IH H). split; [now right | assumption].
Qed.

Lemma goal_gate_failure_none items :
  goal_gate_failure graph items = None →
  ∀ nid oc, (nid, oc) ∈ items → ¬ gate_violation graph nid oc.
Proof.
  induction items as [|[k o] items IH]; intros H nid oc Hin.
  { inversion Hin. }
  simpl in H. apply elem_of_cons in Hin as [[= -> ->]|Hin].
  - intros (n & Hn & Hg & H1 & H2). rewrite Hn, Hg in H. simpl in H.
    rewrite (bool_decide_eq_false_2 _ H1), (bool_decide_eq_false_2 _ H2) in H.
    discriminate.
  - apply IH; [|assumption].
    destruct (Graph.get_node graph k); [|assumption].
    now destruct (_ && _).
Qed.

Lemma loop_body_continues st st' :
  loop_body mkdir path_exists write_text self graph st = inl st' →
  ∃ started finished,
    emitted st' = emitted st ++ [started; finished]
    ∧ Event.kind started = "StageStarted"
    ∧ Event.kind finished = "StageCompleted".
Proof.
  unfold loop_body.
  destruct (Graph.get_node graph (current_id st)) as [node|]; [|discriminate].
  destruct (Graph.is_terminal graph (current_id st)).
  { destruct (goal_gate_failure graph (node_outcomes st)) as [[? ?]|]; discriminate. }
  destruct (_resolve_handler self node) as [handler|]; [|discriminate].
  destruct (handler node (ctx st) graph (world st)) as [[[outcome|e] ctx1] w1];
    [|discriminate].
  destruct (log_stage mkdir path_exists write_text node outcome w1) as [[[]|e] w2];
    [|discriminate].
  destruct (route node outcome (record_outcome ctx1 outcome) graph) as [[next|]|];
    try discriminate.
  intros [= <-]. simpl. eauto.
Qed.

Lemma reaches_stage_events st0 st :
  reaches mkdir path_exists write_text self graph st0 st →
  Forall stage_event (emitted st0) → Forall stage_event (emitted st).
Proof.
  induction 1 as [st|st st' st'' Hstep _ IH]; [trivial|].
  intros H0. apply IH.
  destruct (loop_body_continues _ _ Hstep) as (e1 & e2 & -> & H1 & H2).
  apply Forall_app. split; [assumption|].
  constructor; [now left|]. constructor; [now right | constructor].
Qed.

(** C2. Take a run of the engine from its start node, and a state at the
    head of the loop that the run reaches and whose current node is terminal.
    Then the run ends there, for every amount of fuel from some amount on. If
    some recorded outcome violates a goal gate (its node has a truthy
    [goal_gate] attribute and its status is neither SUCCESS nor
    PARTIAL_SUCCESS), the run returns a FAIL outcome whose failure reason
    names such a node and its failure reason or, when that is empty, its
    status; the last event is [PipelineFailed] and no [PipelineCompleted]
    event is emitted. If no recorded outcome violates a goal gate, the run
    emits [PipelineCompleted] and returns the last outcome, or a SUCCESS
    outcome when no stage ran. *)
Theorem goal_gate_soundness (context : option Context.t) (w : W) (start_id : string)
    (st : LoopState) (node : Node.t) :
  Graph.find_start_node graph = Some start_id →
  start_id ≠ EmptyString →
  reaches mkdir path_exists write_text self graph (initial_state graph context w start_id) st →
  Graph.get_node graph (current_id st) = Some node →
  Graph.is_terminal graph (current_id st) = true →
  ∃ r fuel0,
    (∀ fuel, (fuel0 ≤ fuel)%nat → run mkdir path_exists write_text self graph context w
        fuel = Some r)
    ∧ ((∃ nid oc, (nid, oc) ∈ node_outcomes st ∧ gate_violation graph nid oc) →
       ∃ nid oc reason,
         (nid, oc) ∈ node_outcomes st ∧ gate_violation graph nid oc
         ∧ reason = "Goal gate unsatisfied at node '" +:+ nid +:+ "': "
                    +:+ (if PyStr.truthy (Outcome.failure_reason oc)
                         then Outcome.failure_reason oc
                         else Status.value (Outcome.status oc))
         ∧ run_result r = Ok (Outcome.mk FAIL "" None None "" reason)
         ∧ run_events r
           = emitted st
             ++ [Event.mk "PipelineFailed" [("node_id", VStr nid); ("reason", VStr reason)]]
         ∧ Forall (λ ev, Event.kind ev ≠ "PipelineCompleted") (run_events r))
    ∧ ((∀ nid oc, (nid, oc) ∈ node_outcomes st → ¬ gate_violation graph nid oc) →
       run_result r
       = Ok (match last_outcome st with
             | Some o => o
             | None => Outcome.mk SUCCESS "" None None "Pipeline completed" ""
             end)
       ∧ run_events r
         = emitted st
           ++ [Event.mk "PipelineCompleted" [("current_node", VStr (current_id st))]]).
Proof.
  intros Hstart Hne Hreach Hnode Hterm.
  assert (Hrun : ∀ fuel, run mkdir path_exists write_text self graph context w fuel
                         = loop mkdir path_exists write_text self graph fuel
                             (initial_state graph context w start_id)).
  { intros fuel. unfold run. rewrite Hstart. unfold PyStr.truthy.
    now rewrite (proj2 (String.eqb_neq _ _) Hne). }
  assert (Hev : Forall stage_event (emitted st)).
  { apply (reaches_stage_events _ _ Hreach). constructor. }
  destruct (goal_gate_failure graph (node_outcomes st)) as [[nid oc]|] eqn:Hgate.
  - destruct (goal_gate_failure_some _ _ _ Hgate) as [Hin Hviol].
    pose (fail := goal_gate_outcome nid oc).
    assert (Hbody : loop_body mkdir path_exists write_text self graph st
                    = inr (mkRun
                             (emitted st
                              ++ [Event.mk "PipelineFailed"
                                    [("node_id", VStr nid);
                                     ("reason", VStr (Outcome.failure_reason fail))]])
                             (ctx st) (world st) (Ok fail))).
    { unfold loop_body. now rewrite Hnode, Hterm, Hgate. }
    destruct (loop_reaches _ _ _ Hreach Hbody) as [fuel0 Hfuel].
    eexists; exists fuel0. split; [intros fuel Hle; rewrite Hrun; now apply Hfuel|].
    split.
    + intros _. exists nid, oc. eexists. repeat split; try eassumption; try reflexivity.
      simpl. apply Forall_app. split.
      * eapply Forall_impl; [exact Hev|]. intros ev [-> | ->]; discriminate.
      * repeat constructor. discriminate.
    + intros Hnone. exfalso. exact (Hnone nid oc Hin Hviol).
  - assert (Hbody : loop_body mkdir path_exists write_text self graph st = inr (completed st)).
    { unfold loop_body. now rewrite Hnode, Hterm, Hgate. }
    destruct (loop_reaches _ _ _ Hreach Hbody) as [fuel0 Hfuel].
    eexists; exists fuel0. split; [intros fuel Hle; rewrite Hrun; now apply Hfuel|].
    split.
    + intros (nid & oc & Hin & Hviol). exfalso.
      exact (goal_gate_failure_none _ Hgate nid oc Hin Hviol).
    + intros _. split; reflexivity.
Qed.

(** ** Failure routing *)

(** The evaluator reads the status and the preferred label of an outcome,
    nothing else. *)
Lemma resolve_key_reads key o1 o2 context :
  Outcome.status o1 = Outcome.status o2 →
  Outcome.preferred_label o1 = Outcome.preferred_label o2 →
  resolve_key key o1 context = resolve_key key o2 context.
Proof. intros Hs Hp. unfold resolve_key. now rewrite Hs, Hp. Qed.

Lemma evaluate_clause_reads clause o1 o2 context :
  Outcome.status o1 = Outcome.status o2 →
  Outcome.preferred_label o1 = Outcome.preferred_label o2 →
  evaluate_clause clause o1 context = evaluate_clause clause o2 context.
Proof.
  intros Hs Hp. unfold evaluate_clause.
  destruct (PyStr.contains "!=" _).
  { destruct (index _ 0) as [p0|]; [|reflexivity]. cbn [res_bind].
    destruct (index _ 1) as [p1|]; [|reflexivity]. cbn [res_bind].
    now rewrite (resolve_key_reads _ o1 o2 context Hs Hp). }
  destruct (PyStr.contains "=" _).
  { destruct (index _ 0) as [p0|]; [|reflexivity]. cbn [res_bind].
    destruct (index _ 1) as [p1|]; [|reflexivity]. cbn [res_bind].
    now rewrite (resolve_key_reads _ o1 o2 context Hs Hp). }
  now rewrite (resolve_key_reads _ o1 o2 context Hs Hp).
Qed.

Lemma evaluate_condition_reads condition o1 o2 context :
  Outcome.status o1 = Outcome.status o2 →
  Outcome.preferred_label o1 = Outcome.preferred_label o2 →
  evaluate_condition condition o1 context = evaluate_condition condition o2 context.
Proof.
  intros Hs Hp. unfold evaluate_condition. destruct (_ || _); [reflexivity|].
  induction (List.map _ _) as [|c l IH]; [reflexivity|].
  simpl. rewrite (evaluate_clause_reads c o1 o2 context Hs Hp).
  destruct (evaluate_clause c o2 context) as [[]|]; simpl; auto.
Qed.

Lemma guard_true_reads o1 o2 context e :
  Outcome.status o1 = Outcome.status o2 →
  Outcome.preferred_label o1 = Outcome.preferred_label o2 →
  guard_true o1 context e = guard_true o2 context e.
Proof.
  intros Hs Hp. unfold guard_true.
  now rewrite (evaluate_condition_reads _ o1 o2 context Hs Hp).
Qed.

Lemma route_fail node outcome context :
  Outcome.status outcome = FAIL →
  route node outcome context graph
  = match best_edge (List.filter (guard_true outcome context)
                       (Graph.outgoing_edges graph (Node.id node))) with
    | Some e => Ok (Some e)
    | None =>
        Raise (RuntimeError
                 ("Stage '" +:+ Node.id node +:+ "' failed: "
                  +:+ Outcome.failure_reason outcome))
    end.
Proof.
  intros Hfail. unfold route. rewrite (bool_decide_eq_true_2 _ Hfail).
  rewrite (filter_res_ok _ _ _ (guard_matches_ok outcome context)). cbn [res_bind].
  destruct (List.filter _ _) as [|c cs]; [reflexivity|].
  destruct (first_by_weight_cons c cs) as (b & -> & ->). reflexivity.
Qed.

(** After a stage that failed the engine makes the directory of the stage
    and writes nothing: [json.dumps] is not called. *)
Lemma log_stage_fail node outcome w :
  Outcome.status outcome = FAIL →
  log_stage mkdir path_exists write_text node outcome w = (Ok tt, mkdir (Node.id node) w).
Proof.
  intros Hfail. unfold log_stage.
  now rewrite (bool_decide_eq_true_2 _ Hfail), andb_false_r.
Qed.

(** C5. Take a pass of the loop at a node that is not terminal and whose
    handler returns an outcome with status FAIL, and let [matched] be the
    outgoing edges with a non-empty guard that evaluates true against that
    outcome and the context after the stage. If [matched] is not empty, the
    loop continues at the destination of the edge picked from it by (weight
    DESC, to_node ASC). If it is empty, the run stops there and raises a
    [RuntimeError] that names the node and the failure reason. The preferred
    label and the suggested ids take no part: replacing the suggested ids
    changes nothing, and two FAIL outcomes with the same failure reason under
    which every guard evaluates alike are routed alike. *)
Theorem fail_routing (st : LoopState) (node : Node.t) (handler : Handler)
    (outcome : Outcome.t) (ctx1 : Context.t) (w1 : W) :
  Graph.get_node graph (current_id st) = Some node →
  Graph.is_terminal graph (current_id st) = false →
  _resolve_handler self node = Ok handler →
  handler node (ctx st) graph (world st) = (Ok outcome, ctx1, w1) →
  Outcome.status outcome = FAIL →
  let context := record_outcome ctx1 outcome in
  let matched :=
    List.filter (guard_true outcome context)
      (Graph.outgoing_edges graph (Node.id node)) in
  match best_edge matched with
  | Some e =>
      picked_by_weight matched e
      ∧ ∃ st', loop_body mkdir path_exists write_text self graph st = inl st'
               ∧ current_id st' = Edge.to_node e
  | None =>
      matched = []
      ∧ ∃ r, loop_body mkdir path_exists write_text self graph st = inr r
             ∧ run_result r
               = Raise (RuntimeError
                          ("Stage '" +:+ Node.id node +:+ "' failed: "
                           +:+ Outcome.failure_reason outcome))
             ∧ ∀ fuel, loop mkdir path_exists write_text self graph (S fuel) st = Some r
  end
  ∧ (∀ ids,
       route node
         (Outcome.mk (Outcome.status outcome) (Outcome.preferred_label outcome) ids
            (Outcome.context_updates outcome) (Outcome.notes outcome)
            (Outcome.failure_reason outcome))
         context graph
       = route node outcome context graph)
  ∧ (∀ outcome',
       Outcome.status outcome' = FAIL →
       Outcome.failure_reason outcome' = Outcome.failure_reason outcome →
       (∀ e, guard_true outcome' context e = guard_true outcome context e) →
       route node outcome' context graph = route node outcome context graph).
Proof.
  intros Hnode Hterm Hres Hexec Hfail context matched.
  assert (Hbody : loop_body mkdir path_exists write_text self graph st
    = match route node outcome context graph with
      | Raise e =>
          inr (mkRun
                 (emitted st
                  ++ [Event.mk "StageStarted"
                        [("node_id", VStr (Node.id node));
                         ("label", VStr (Node.display_name node))];
                      Event.mk "StageCompleted"
                        [("node_id", VStr (Node.id node));
                         ("outcome", VStr (Status.value (Outcome.status outcome)));
                         ("notes", VStr (Outcome.notes outcome))]])
                 context (mkdir (Node.id node) w1) (Raise e))
      | Ok None =>
          inr (completed
                 (mkState (current_id st)
                    (dict_set (node_outcomes st) (current_id st) outcome)
                    (Some outcome) context (mkdir (Node.id node) w1)
                    (emitted st
                     ++ [Event.mk "StageStarted"
                           [("node_id", VStr (Node.id node));
                            ("label", VStr (Node.display_name node))];
                         Event.mk "StageCompleted"
                           [("node_id", VStr (Node.id node));
                            ("outcome", VStr (Status.value (Outcome.status outcome)));
                            ("notes", VStr (Outcome.notes outcome))]])))
      | Ok (Some next_edge) =>
          inl (mkState (Edge.to_node next_edge)
                 (dict_set (node_outcomes st) (current_id st) outcome)
                 (Some outcome) context (mkdir (Node.id node) w1)
                 (emitted st
                  ++ [Event.mk "StageStarted"
                        [("node_id", VStr (Node.id node));
                         ("label", VStr (Node.display_name node))];
                      Event.mk "StageCompleted"
                        [("node_id", VStr (Node.id node));
                         ("outcome", VStr (Status.value (Outcome.status outcome)));
                         ("notes", VStr (Outcome.notes outcome))]]))
      end).
  { unfold loop_body. now rewrite Hnode, Hterm, Hres, Hexec, (log_stage_fail _ _ _ Hfail). }
  rewrite (route_fail node outcome context Hfail) in Hbody. fold matched in Hbody.
  split.
  - destruct (best_edge matched) as [e|] eqn:Hbest.
    + split; [now apply best_edge_picked|]. eexists. split; [exact Hbody | reflexivity].
    + split; [now apply best_edge_none|]. eexists. split; [exact Hbody|].
      split; [reflexivity|]. intros fuel. simpl. now rewrite Hbody.
  - split.
    + intros ids. rewrite !route_fail by assumption. cbn [Outcome.failure_reason].
      now rewrite (filter_ext_bool _ (guard_true outcome context))
        by (intros e; now apply guard_true_reads).
    + intros outcome' Hfail' Hreason Hguards. rewrite !route_fail by assumption.
      now rewrite Hreason, (filter_ext_bool _ _ _ Hguards).
Qed.

End EngineProperties.

(** ** The tool handler *)

Section ToolProperties.
Context {W : Type} (subprocess_run : value → value → Z → W → proc_result * W).

(** C8. Take a tool node for whose tool name no executor is registered.
    If its [tool_command] attribute is absent or empty, the handler returns
    FAIL with the reason [No tool_command or registered tool specified], and
    leaves the world as it was: nothing is run. Otherwise [subprocess.run] is
    called with the command, the working directory of the context and a
    timeout of 300 seconds. If it completes with exit code 0, the handler
    returns SUCCESS with the update [tool.output] set to stdout followed by
    stderr; if it completes with another exit code, FAIL with the same update
    and, as the reason, that output or, when it is empty, the exit code; if
    it raises [TimeoutExpired], FAIL with the reason [Tool timed out]; if it
    raises anything else, FAIL with the message of the exception. *)
Theorem tool_handler_outcomes (executors : gmap string (@ToolExecutor W))
    (node : Node.t) (context : Context.t) (graph : Graph.t) (w : W) :
  (∀ name, py_or (Node.attr node "tool") (Node.attr node "tool_command") = VStr name →
           executors !! name = None) →
  let execute := ToolHandler_execute subprocess_run executors node context graph w in
  let cwd := py_or (Context.get context "work_dir") (VStr ".") in
  ((Node.attrs node !! "tool_command" = None
    ∨ Node.attrs node !! "tool_command" = Some (VStr "")) →
   execute
   = (Ok (Outcome.mk FAIL "" None None ""
            "No tool_command or registered tool specified"), context, w))
  ∧ (∀ command, Node.attrs node !! "tool_command" = Some command →
       py_bool command = true →
       match subprocess_run command cwd 300 w with
       | (Completed returncode stdout stderr, w') =>
           let out := stdout +:+ stderr in
           (returncode = 0%Z →
            execute
            = (Ok (Outcome.mk SUCCESS "" None (Some [("tool.output", VStr out)])
                     ("Tool completed: " +:+ py_str command) ""), context, w'))
           ∧ (returncode ≠ 0%Z →
              execute
              = (Ok (Outcome.mk FAIL "" None (Some [("tool.output", VStr out)])
                       ("Tool completed: " +:+ py_str command)
                       (if PyStr.truthy out then out
                        else "exit code " +:+ PyStr.of_Z returncode)), context, w'))
       | (TimeoutExpired, w') =>
           execute = (Ok (Outcome.mk FAIL "" None None "" "Tool timed out"), context, w')
       | (SpawnError e, w') =>
           execute = (Ok (Outcome.mk FAIL "" None None "" (exn_message e)), context, w')
       end).
Proof.
  intros Hnone execute cwd.
  assert (Hexec : ∀ fallback,
    match
      match py_or (Node.attr node "tool") (Node.attr node "tool_command") with
      | VStr name => option_map (λ ex : ToolExecutor, (name, ex)) (executors !! name)
      | _ => None
      end
    with
    | Some (name, executor) =>
        match executor name node context graph w with
        | (Ok outcome, context', w') => (Ok outcome, context', w')
        | (Raise e, context', w') =>
            (Ok (Outcome.mk FAIL "" None None "" (exn_message e)), context', w')
        end
    | None => fallback
    end = fallback).
  { intros fallback.
    destruct (py_or _ _) as [| | |name| |] eqn:E; try reflexivity.
    now rewrite (Hnone name eq_refl). }
  split.
  - intros Hcmd. unfold execute, ToolHandler_execute. rewrite Hexec.
    now destruct Hcmd as [-> | ->].
  - intros command Hcmd Htruthy. unfold execute, ToolHandler_execute.
    rewrite Hexec, Hcmd, Htruthy. cbn [negb]. fold cwd.
    destruct (subprocess_run command cwd 300 w) as [[rc out err| |e] w'];
      try reflexivity.
    split; intros Hrc.
    + subst rc. reflexivity.
    + now rewrite (proj2 (Z.eqb_neq _ _) Hrc).
Qed.

End ToolProperties.

(** ** The theorems at sample pipelines *)

Lemma goal_gate_soundness_witness :
  ∃ st r fuel0,
    reaches sample_mkdir sample_exists sample_write failing_engine gate_graph
      (initial_state gate_graph None [] "start") st
    ∧ current_id st = "end"
    ∧ (∀ fuel, (fuel0 ≤ fuel)%nat →
         run sample_mkdir sample_exists sample_write failing_engine gate_graph None [] fuel
             = Some r)
    ∧ run_result r
      = Ok (Outcome.mk FAIL "" None None ""
              "Goal gate unsatisfied at node 'critical': boom")
    ∧ last (run_events r)
      = Some (Event.mk "PipelineFailed"
                [("node_id", VStr "critical");
                 ("reason", VStr "Goal gate unsatisfied at node 'critical': boom")]).
Proof.
  eassert (Hreach : reaches sample_mkdir sample_exists sample_write failing_engine gate_graph
                      (initial_state gate_graph None [] "start") _).
  { eapply reaches_step; [reflexivity|].
    eapply reaches_step; [reflexivity|]. apply reaches_here. }
  destruct (goal_gate_soundness sample_mkdir sample_exists sample_write failing_engine
      gate_graph None [] "start"
              _ (Node.mk "end" "end" "Msquare" "" "" ∅)
              eq_refl ltac:(discriminate) Hreach eq_refl eq_refl)
    as (r & fuel0 & Hrun & Hfail & _).
  eexists; exists r, fuel0. split; [exact Hreach|]. split; [reflexivity|].
  split; [exact Hrun|].
  destruct Hfail as (nid & oc & reason & Hin & Hviol & -> & -> & -> & _).
  { exists "critical". eexists. split; [right; left|].
    eexists. repeat split; try reflexivity; discriminate. }
  apply elem_of_cons in Hin as [Heq|Hin].
  { exfalso. injection Heq as -> ->. destruct Hviol as (n & Hn & Hg & _).
    injection Hn as <-. discriminate Hg. }
  apply elem_of_cons in Hin as [Heq|Hin]; [|inversion Hin].
  injection Heq as -> ->. split; [reflexivity|].
  reflexivity.
Defined.

Lemma fail_routing_witness :
  let st := mkState "a" [] None Context.empty ([] : list string) [] in
  (∃ st', loop_body sample_mkdir sample_exists sample_write failing_engine routed_graph st = inl st'
          ∧ current_id st' = "b")
  ∧ select_edge (sample_node "a") (Outcome.mk FAIL "retry" (Some ["c"]) None "" "boom")
      (record_outcome Context.empty (Outcome.mk FAIL "retry" (Some ["c"]) None "" "boom"))
      unrouted_graph
    = Ok (Some (Edge.mk "a" "c" "retry" "" 5))
  ∧ ∃ r, loop sample_mkdir sample_exists sample_write failing_engine unrouted_graph 1 st = Some r
         ∧ run_result r = Raise (RuntimeError "Stage 'a' failed: boom").
Proof.
  intros st.
  pose (o := Outcome.mk FAIL "retry" (Some ["c"]) None "" "boom").
  split; [|split; [reflexivity|]].
  - destruct (fail_routing sample_mkdir sample_exists sample_write failing_engine
      routed_graph st (sample_node "a")
                failing_handler o Context.empty []
                eq_refl eq_refl eq_refl eq_refl eq_refl) as [H _].
    exact (proj2 H).
  - destruct (fail_routing sample_mkdir sample_exists sample_write failing_engine
      unrouted_graph st (sample_node "a")
                failing_handler o Context.empty []
                eq_refl eq_refl eq_refl eq_refl eq_refl) as [H _].
    destruct (proj2 H) as (r & _ & Hr & Hloop).
    exists r. split; [apply Hloop | exact Hr].
Defined.

Lemma tool_handler_outcomes_witness :
  let run_tool attrs :=
    ToolHandler_execute sample_subprocess ∅ (tool_node attrs) Context.empty
      gate_graph [] in
  run_tool [("tool", VStr "lint")]
  = (Ok (Outcome.mk FAIL "" None None ""
           "No tool_command or registered tool specified"), Context.empty, [])
  ∧ run_tool [("tool_command", VStr "echo hi")]
    = (Ok (Outcome.mk SUCCESS "" None (Some [("tool.output", VStr "hi")])
             "Tool completed: echo hi" ""), Context.empty, ["echo hi"])
  ∧ run_tool [("tool_command", VStr "false")]
    = (Ok (Outcome.mk FAIL "" None (Some [("tool.output", VStr "")])
             "Tool completed: false" "exit code 1"), Context.empty, ["false"])
  ∧ run_tool [("tool_command", VStr "sleep 999")]
    = (Ok (Outcome.mk FAIL "" None None "" "Tool timed out"),
       Context.empty, ["sleep 999"]).
Proof.
  intros run_tool.
  assert (Hnone : ∀ attrs name,
            py_or (Node.attr (tool_node attrs) "tool")
              (Node.attr (tool_node attrs) "tool_command") = VStr name →
            (∅ : gmap string (@ToolExecutor (list string))) !! name = None).
  { intros attrs name _. apply lookup_empty. }
  split; [|split; [|split]].
  - apply (tool_handler_outcomes sample_subprocess ∅ (tool_node [("tool", VStr "lint")])
             Context.empty gate_graph [] (Hnone _)).
    now left.
  - pose proof (proj2 (tool_handler_outcomes sample_subprocess ∅
                         (tool_node [("tool_command", VStr "echo hi")])
                         Context.empty gate_graph [] (Hnone _))
                  (VStr "echo hi") eq_refl eq_refl) as H.
    exact (proj1 H eq_refl).
  - pose proof (proj2 (tool_handler_outcomes sample_subprocess ∅
                         (tool_node [("tool_command", VStr "false")])
                         Context.empty gate_graph [] (Hnone _))
                  (VStr "false") eq_refl eq_refl) as H.
    apply (proj2 H). discriminate.
  - exact (proj2 (tool_handler_outcomes sample_subprocess ∅
                    (tool_node [("tool_command", VStr "sleep 999")])
                    Context.empty gate_graph [] (Hnone _))
             (VStr "sleep 999") eq_refl eq_refl).
Defined.

(** ** Chained edges in the parser *)

(** C3 at a failing input: the first pattern of a chain stops before the
    second arrow, so its optional attribute group is empty, and the loop over
    the further arrows reuses the attributes of the first edge: both edges of
    the chain come out with the edge defaults, here none. The same edge
    declared by itself carries its block. *)
Example chained_edges_lose_attrs :
  ∀ py_float : string → option value,
    parsed_edges (parse_dot py_float chain_source)
    = Some [Edge.mk "a" "b" "" "" 0; Edge.mk "b" "c" "" "" 0]
    ∧ parsed_edges (parse_dot py_float single_source)
      = Some [Edge.mk "b" "c" "x" "outcome=success" 5].
Proof. intros py_float. split; vm_compute; reflexivity. Qed.

(** ** The event list of a task *)

Lemma append_lookup h a l x :
  h !! a = Some l → Task.append h a x = <[a := l ++ [x]]> h.
Proof. intros H. unfold Task.append. now rewrite H. Qed.

Lemma on_event_effect tid a st ev l rec :
  Task.heap st !! a = Some l →
  Task._task_store st !! tid = Some rec →
  Task.on_event tid a st ev
  = Task.mkTasks
      (<[a := l ++ relayed ev]> (Task.heap st) ++ [l ++ relayed ev])
      (<[tid := Task.mkRecord (Task.status rec) (length (Task.heap st)) (Task.result rec)]>
         (Task._task_store st)).
Proof.
  intros Hh Hs. unfold Task.on_event, relayed. rewrite Hs.
  assert (Ha : (a < length (Task.heap st))%nat) by (eapply lookup_lt_Some; eauto).
  rewrite (append_lookup _ _ _ _ Hh).
  set (first := Task.mkEvent _ _).
  set (h1 := <[a := l ++ [first]]> (Task.heap st)).
  assert (H1 : h1 !! a = Some (l ++ [first])) by now apply list_lookup_insert_eq.
  assert (Hplain :
    (let '(copy, h) := Task.alloc h1 (Task.deref h1 a) in
     Task.mkTasks h
       (<[tid := Task.mkRecord (Task.status rec) copy (Task.result rec)]>
          (Task._task_store st)))
    = Task.mkTasks
        (<[a := l ++ [first]]> (Task.heap st) ++ [l ++ [first]])
        (<[tid := Task.mkRecord (Task.status rec) (length (Task.heap st)) (Task.result rec)]>
           (Task._task_store st))).
  { unfold Task.alloc, Task.deref. rewrite H1. subst h1. now rewrite length_insert. }
  destruct (dict_get (Event.data ev) "node_id") as [[| | |s| |]|]; try exact Hplain.
  destruct (dict_get Task.step_names s) as [step|]; [|exact Hplain].
  destruct (PyStr.truthy step); [|exact Hplain].
  rewrite (append_lookup _ _ _ _ H1). subst h1.
  rewrite list_insert_insert_eq.
  unfold Task.alloc, Task.deref.
  rewrite list_lookup_insert_eq by assumption.
  rewrite length_insert. now rewrite <- app_assoc.
Qed.

Lemma relay_fold tid a evs :
  ∀ st l rec,
    Task.heap st !! a = Some l →
    Task._task_store st !! tid = Some rec →
    evs ≠ [] →
    ∃ rec',
      let st' := fold_left (Task.on_event tid a) evs st in
      Task.heap st' !! a = Some (l ++ flat_map relayed evs)
      ∧ Task._task_store st' !! tid = Some rec'
      ∧ Task.events rec' ≠ a
      ∧ Task.heap st' !! Task.events rec' = Some (l ++ flat_map relayed evs)
      ∧ Task.status rec' = Task.status rec
      ∧ Task.result rec' = Task.result rec.
Proof.
  induction evs as [|ev evs IH]; intros st l rec Hh Hs Hne; [now destruct Hne|].
  assert (Ha : (a < length (Task.heap st))%nat) by (eapply lookup_lt_Some; eauto).
  simpl fold_left. rewrite (on_event_effect _ _ _ _ _ _ Hh Hs).
  set (l1 := l ++ relayed ev).
  set (st1 := Task.mkTasks _ _).
  assert (Hh1 : Task.heap st1 !! a = Some l1).
  { simpl. rewrite lookup_app_l by now rewrite length_insert.
    now apply list_lookup_insert_eq. }
  assert (Hs1 : Task._task_store st1 !! tid
                = Some (Task.mkRecord (Task.status rec) (length (Task.heap st))
                          (Task.result rec))).
  { simpl. apply lookup_insert_eq. }
  destruct evs as [|ev' evs'].
  - eexists. simpl. rewrite app_nil_r. fold l1.
    split; [exact Hh1|]. split; [exact Hs1|]. simpl.
    split; [lia|]. split; [|split; reflexivity].
    rewrite lookup_app_r by now rewrite length_insert.
    rewrite length_insert. now rewrite Nat.sub_diag.
  - destruct (IH st1 l1 _ Hh1 Hs1 ltac:(discriminate)) as (rec' & H).
    exists rec'. cbv zeta in *. subst l1.
    change (flat_map relayed (ev :: ev' :: evs'))
      with (relayed ev ++ flat_map relayed (ev' :: evs')).
    rewrite app_assoc. exact H.
Qed.

(** In general: for every run of the engine that emits at least one event,
    the events a reader of the task table sees for the task after [run_task]
    are the events relayed by [on_event] and nothing more; the event appended
    after the run, [progress] at 100 or [error], is in the local list only.
    The status of the task is [completed] after a return and [failed] after
    an exception. *)
Lemma run_task_events_lost {W : Type} (st : Task.state) (tid : string) (r : @Run W) :
  run_events r ≠ [] →
  let st' := Task.run_task st tid r in
  Task.task_events st' tid = Some (flat_map relayed (run_events r))
  ∧ Task.deref (Task.heap st') (length (Task.heap st))
    = flat_map relayed (run_events r) ++ [closing_event r]
  ∧ Task.status <$> Task._task_store st' !! tid
    = Some (match run_result r with
            | Ok _ => "completed"
            | Raise _ => "failed"
            end).
Proof.
  intros Hne. unfold Task.run_task, Task.alloc.
  set (a := length (Task.heap st)).
  set (st0 := Task.mkTasks _ _).
  assert (Hh0 : Task.heap st0 !! a = Some []).
  { simpl. rewrite lookup_app_r by (subst a; lia). subst a. now rewrite Nat.sub_diag. }
  assert (Hs0 : Task._task_store st0 !! tid = Some (Task.mkRecord "running" a None)).
  { simpl. apply lookup_insert_eq. }
  destruct (relay_fold tid a (run_events r) st0 [] _ Hh0 Hs0 Hne)
    as (rec' & Hh & Hs & Hneq & Hcopy & Hstatus & Hresult).
  cbv zeta in *. simpl app in *.
  set (st2 := fold_left _ _ _) in *.
  assert (Hsettle : ∀ new_status new_result,
    Task.settle st2 tid new_status new_result
    = Task.mkTasks (Task.heap st2)
        (<[tid := Task.mkRecord new_status (Task.events rec') (Some new_result)]>
           (Task._task_store st2))).
  { intros. unfold Task.settle. now rewrite Hs. }
  unfold closing_event.
  destruct (run_result r) as [outcome|e]; rewrite Hsettle; cbn [Task.heap Task._task_store];
    unfold Task.task_events; cbn [Task.heap Task._task_store];
    rewrite lookup_insert_eq; cbn [fmap option_fmap option_map Task.events Task.status];
    rewrite (append_lookup _ _ _ _ Hh); unfold Task.deref;
    rewrite list_lookup_insert_ne by (intros ->; now apply Hneq);
    rewrite Hcopy;
    (rewrite list_lookup_insert_eq by (eapply lookup_lt_Some; eauto));
    repeat split; reflexivity.
Qed.

(** C9 at failing inputs: [on_event] rebinds the [events] entry of the task
    to a copy of the local list, so what [run_task] appends after the run
    reaches the local list only. After a run that returns, and after a run
    that raises once a stage has started, the task table shows neither the
    final [progress] event nor the [error] event; the status is set in both
    cases. Only an exception raised before any event leaves the entry and
    the local list the same object. *)
Example final_events_miss_the_task :
  seen_kinds (sample_task passing_engine straight_graph)
  = Some ["StageStarted"; "StageCompleted"; "StageStarted"; "StageCompleted";
          "PipelineCompleted"]
  ∧ local_kinds (sample_task passing_engine straight_graph)
    = Some ["StageStarted"; "StageCompleted"; "StageStarted"; "StageCompleted";
            "PipelineCompleted"; "progress"]
  ∧ task_status (sample_task passing_engine straight_graph) = Some "completed"
  ∧ seen_kinds (sample_task failing_engine dead_end_graph)
    = Some ["StageStarted"; "StageCompleted"; "StageStarted"; "StageCompleted"]
  ∧ local_kinds (sample_task failing_engine dead_end_graph)
    = Some ["StageStarted"; "StageCompleted"; "StageStarted"; "StageCompleted";
            "error"]
  ∧ task_status (sample_task failing_engine dead_end_graph) = Some "failed"
  ∧ seen_kinds (sample_task failing_engine headless_graph) = Some ["error"]
  ∧ task_status (sample_task failing_engine headless_graph) = Some "failed".
Proof. repeat split; vm_compute; reflexivity. Qed.

Example run_task_events_lost_sample :
  ∃ r,
    run sample_mkdir sample_exists sample_write passing_engine straight_graph (Some
        Context.empty) [] 10 = Some r
    ∧ List.map Task.kind
        <$> Task.task_events (Task.run_task (Task.mkTasks [] ∅) "t1" r) "t1"
      = Some ["StageStarted"; "StageCompleted"; "StageStarted"; "StageCompleted";
              "PipelineCompleted"]
    ∧ Task.kind (closing_event r) = "progress".
Proof.
  eexists. split; [reflexivity|].
  split; [|reflexivity].
  match goal with
  | |- context [Task.run_task ?st ?tid ?r] =>
      destruct (run_task_events_lost st tid r ltac:(discriminate)) as (H & _)
  end.
  cbv zeta in H. rewrite H. reflexivity.
Qed.

(** * Further properties of the code *)

(** ** [conditions.py]: how clauses read the outcome and combine *)

(** X1. The key [outcome] reads the status of the outcome and nothing else:
    for every status [s], outcome and context, the condition [outcome=s] is
    true exactly when the outcome has status [s], and [outcome!=s] exactly
    when it has not. No entry of the context, were it stored under the key
    [outcome], changes this. *)
Theorem outcome_key_reads_status (s : StageStatus) (o : Outcome.t) (c : Context.t) :
  evaluate_condition ("outcome=" +:+ Status.value s) o c
  = Ok (bool_decide (Outcome.status o = s))
  ∧ evaluate_condition ("outcome!=" +:+ Status.value s) o c
    = Ok (negb (bool_decide (Outcome.status o = s))).
Proof.
  destruct o as [st pl ids ups notes fr].
  split; destruct s; destruct st; reflexivity.
Qed.

(** ** Strings put together *)

Lemma find_char_none_cons a c r :
  PyStr.find (String a EmptyString) (String c r) = None →
  Ascii.eqb c a = false ∧ PyStr.find (String a EmptyString) r = None.
Proof.
  rewrite find_char. destruct (Ascii.eqb c a); [discriminate|].
  destruct (PyStr.find _ r); [discriminate|]. done.
Qed.

Lemma lstrip_with_app p a c r :
  p c = false →
  PyStr.lstrip_with p (a +:+ String c r) = PyStr.lstrip_with p a +:+ String c r.
Proof.
  intros Hc. induction a as [|x a IH].
  - rewrite app_nil_l. simpl. rewrite Hc. reflexivity.
  - rewrite app_cons. simpl. destruct (p x); [exact IH|]. rewrite app_cons. reflexivity.
Qed.

Lemma rstrip_with_app p a c r :
  p c = false →
  PyStr.rstrip_with p (a +:+ String c r) = a +:+ String c (PyStr.rstrip_with p r).
Proof.
  intros Hc. induction a as [|x a IH].
  - rewrite !app_nil_l. apply rstrip_with_keep, Hc.
  - rewrite !app_cons. rewrite rstrip_with_cons; [by rewrite IH|].
    rewrite IH. destruct a; [rewrite app_nil_l|rewrite app_cons]; discriminate.
Qed.

Lemma strip_with_app p a c r :
  p c = false →
  PyStr.strip_with p (a +:+ String c r)
  = PyStr.lstrip_with p a +:+ String c (PyStr.rstrip_with p r).
Proof.
  intros Hc. unfold PyStr.strip_with.
  rewrite lstrip_with_app by done. apply rstrip_with_app, Hc.
Qed.

Lemma find_char_lstrip_with p a s :
  PyStr.find (String a EmptyString) s = None →
  PyStr.find (String a EmptyString) (PyStr.lstrip_with p s) = None.
Proof.
  induction s as [|c r IH]; [done|].
  intros H. simpl PyStr.lstrip_with. destruct (p c); [|exact H].
  apply find_char_none_cons in H as [_ H]. auto.
Qed.

Lemma find_char_rstrip_with p a s :
  PyStr.find (String a EmptyString) s = None →
  PyStr.find (String a EmptyString) (PyStr.rstrip_with p s) = None.
Proof.
  induction s as [|c r IH]; [done|].
  intros H. apply find_char_none_cons in H as [Hc H]. specialize (IH H).
  simpl PyStr.rstrip_with. destruct (PyStr.rstrip_with p r) eqn:E.
  - destruct (p c); [done|]. rewrite find_char, Hc. reflexivity.
  - rewrite find_char, Hc, IH. reflexivity.
Qed.

(** A two-character separator whose first character is absent. *)
Lemma find_pair_none a b s :
  PyStr.find (String a EmptyString) s = None →
  PyStr.find (String a (String b EmptyString)) s = None.
Proof.
  induction s as [|c r IH]; [done|].
  intros H. apply find_char_none_cons in H as [Hc H].
  cbn [PyStr.find]. rewrite prefix_cons, Hc. cbn [andb]. rewrite (IH H). reflexivity.
Qed.

Lemma find_pair_app a b key rhs :
  PyStr.find (String a EmptyString) key = None →
  PyStr.find (String a (String b EmptyString)) (key +:+ String a (String b rhs))
  = Some (String.length key).
Proof.
  induction key as [|c r IH]; intros H.
  - rewrite app_nil_l. cbn [PyStr.find]. rewrite !prefix_cons, !Ascii.eqb_refl, prefix_empty.
    reflexivity.
  - apply find_char_none_cons in H as [Hc H]. rewrite app_cons.
    cbn [PyStr.find]. rewrite prefix_cons, Hc. cbn [andb]. rewrite (IH H). reflexivity.
Qed.

Lemma find_pair_app_none a b x key rhs :
  Ascii.eqb x a = false →
  PyStr.find (String a EmptyString) key = None →
  PyStr.find (String a EmptyString) rhs = None →
  PyStr.find (String a (String b EmptyString)) (key +:+ String x rhs) = None.
Proof.
  intros Hx Hk Hr. induction key as [|c r IH].
  - rewrite app_nil_l. cbn [PyStr.find]. rewrite prefix_cons, Hx. cbn [andb].
    rewrite (find_pair_none _ _ _ Hr). reflexivity.
  - apply find_char_none_cons in Hk as [Hc Hk]. rewrite app_cons.
    cbn [PyStr.find]. rewrite prefix_cons, Hc. cbn [andb]. rewrite (IH Hk). reflexivity.
Qed.

Lemma contains_find_none sub s : PyStr.contains sub s = false ↔ PyStr.find sub s = None.
Proof. unfold PyStr.contains. destruct (PyStr.find sub s); split; congruence. Qed.

(** X2. For a key that holds neither an equals sign nor an exclamation mark
    and a right-hand side without exclamation mark, the clause [key!=rhs] is
    true exactly when the clause [key=rhs] is false; blanks around the key
    and the right-hand side are those of the code ([strip]). *)
Theorem clause_inequality_negates (key rhs : string) (o : Outcome.t) (c : Context.t) :
  PyStr.contains "=" key = false →
  PyStr.contains "!" key = false →
  PyStr.contains "!" rhs = false →
  ∃ b, evaluate_clause (key +:+ String "=" rhs) o c = Ok b
       ∧ evaluate_clause (key +:+ String "!" (String "=" rhs)) o c = Ok (negb b).
Proof.
  intros He Hb Hr.
  apply contains_find_none in He, Hb, Hr.
  set (k := PyStr.lstrip key). set (v := PyStr.rstrip rhs).
  assert (Hke : PyStr.find "=" k = None) by apply find_char_lstrip_with, He.
  assert (Hkb : PyStr.find "!" k = None) by apply find_char_lstrip_with, Hb.
  assert (Hvb : PyStr.find "!" v = None) by apply find_char_rstrip_with, Hr.
  exists (String.eqb (resolve_key k o c) (PyStr.strip_char quote (PyStr.strip v))).
  split.
  - apply evaluate_clause_equality.
    + unfold PyStr.strip. rewrite strip_with_app by reflexivity. reflexivity.
    + apply contains_find_none, Hke.
    + apply contains_find_none. unfold PyStr.strip.
      rewrite strip_with_app by reflexivity.
      apply find_pair_app_none; done.
  - unfold evaluate_clause.
    assert (Hs : PyStr.strip (key +:+ String "!" (String "=" rhs))
                 = k +:+ String "!" (String "=" v)).
    { unfold PyStr.strip. rewrite strip_with_app by reflexivity.
      fold PyStr.rstrip. f_equal. f_equal.
      change (PyStr.rstrip_with PyStr.isspace (String "=" rhs) = String "=" v).
      apply rstrip_with_keep. reflexivity. }
    rewrite Hs.
    pose proof (find_pair_app "!" "=" k v Hkb) as Hf.
    unfold PyStr.contains. rewrite Hf.
    rewrite (split1_found _ _ _ Hf).
    cbn [index lookup list_lookup res_bind]. 
    rewrite take_app.
    replace (PyStr.drop (String.length k + String.length "!=") (k +:+ String "!" (String "=" v)))
      with v.
    2:{ change (String.length "!=") with 2%nat.
        replace (String.length k + 2)%nat with (S (S (String.length k))) by lia.
        change (k +:+ String "!" (String "=" v)) with (k +:+ (String "!" (String "=" v))).
        symmetry.
        assert (∀ n s t, PyStr.drop (n + String.length s) (s +:+ t) = PyStr.drop n t) as Hd.
        { intros n s t. induction s; [rewrite app_nil_l; simpl; f_equal; lia|].
          rewrite app_cons. simpl String.length.
          replace (n + S (String.length s))%nat with (S (n + String.length s)) by lia.
          simpl. apply IHs. }
        replace (S (S (String.length k))) with (2 + String.length k)%nat by lia.
        rewrite Hd. reflexivity. }
    rewrite resolve_key_strip. reflexivity.
Qed.

Lemma clause_inequality_negates_witness :
  evaluate_clause "mode=fast" (Outcome.default SUCCESS) (ctx_of [("mode", VStr "fast")])
  = Ok true
  ∧ evaluate_clause "mode!=fast" (Outcome.default SUCCESS) (ctx_of [("mode", VStr "fast")])
    = Ok false.
Proof.
  destruct (clause_inequality_negates "mode" "fast" (Outcome.default SUCCESS)
              (ctx_of [("mode", VStr "fast")]) eq_refl eq_refl eq_refl) as (b & H1 & H2).
  assert (b = true) as -> by (vm_compute in H1; congruence).
  split; assumption.
Defined.

Lemma split_go_app_pair a cur s t :
  PyStr.find (String a EmptyString) s = None →
  PyStr.split_go (String a (String a EmptyString)) 0 cur (s +:+ String a (String a t))
  = String.rev_app cur s :: PyStr.split_go (String a (String a EmptyString)) 0 EmptyString t.
Proof.
  revert cur. induction s as [|c r IH]; intros cur H.
  - rewrite app_nil_l. cbn [PyStr.split_go].
    rewrite !prefix_cons, !Ascii.eqb_refl, prefix_empty. cbn [andb].
    destruct t; reflexivity.
  - apply find_char_none_cons in H as [Hc H]. rewrite app_cons.
    cbn [PyStr.split_go]. rewrite prefix_cons, Hc. cbn [andb].
    rewrite (IH _ H). reflexivity.
Qed.

Lemma lstrip_empty_find a s :
  PyStr.isspace a = false →
  PyStr.lstrip s = EmptyString → PyStr.find (String a EmptyString) s = None.
Proof.
  intros Ha. induction s as [|c r IH]; [done|].
  unfold PyStr.lstrip in *. cbn [PyStr.lstrip_with].
  destruct (PyStr.isspace c) eqn:Hc; [|discriminate].
  intros H. rewrite find_char.
  destruct (Ascii.eqb_spec c a) as [->|_]; [congruence|].
  rewrite IH; done.
Qed.

Lemma strip_empty_lstrip s : PyStr.strip s = EmptyString → PyStr.lstrip s = EmptyString.
Proof.
  unfold PyStr.strip, PyStr.strip_with, PyStr.lstrip.
  destruct (lstrip_with_head PyStr.isspace s) as [->|(c & r & -> & Hc)]; [done|].
  rewrite rstrip_with_keep by done. discriminate.
Qed.

Lemma strip_app_nonempty a c r :
  PyStr.isspace c = false → PyStr.strip (a +:+ String c r) ≠ EmptyString.
Proof.
  intros Hc. unfold PyStr.strip. rewrite strip_with_app by done.
  destruct (PyStr.lstrip_with PyStr.isspace a); [rewrite app_nil_l|rewrite app_cons]; discriminate.
Qed.

(** [evaluate_condition] is the loop over the clauses also for a blank
    condition, which has none. *)
Lemma evaluate_condition_clauses condition o c :
  evaluate_condition condition o c
  = all_clauses
      (List.map PyStr.strip
         (List.filter (λ x, PyStr.truthy (PyStr.strip x)) (PyStr.split "&&" condition)))
      o c.
Proof.
  unfold evaluate_condition.
  destruct (PyStr.strip condition) eqn:Hs.
  - replace (negb (PyStr.truthy condition) || negb (PyStr.truthy EmptyString)) with true
      by (destruct (PyStr.truthy condition); reflexivity).
    pose proof (strip_empty_lstrip _ Hs) as Hl.
    pose proof (find_pair_none "&" "&" _ (lstrip_empty_find "&" _ eq_refl Hl)) as Hf.
    unfold PyStr.split. rewrite (split_no_sep _ _ _ Hf).
    cbn [String.rev_app List.filter]. rewrite Hs. reflexivity.
  - destruct condition; [discriminate Hs|]. reflexivity.
Qed.

(** X3. [&&] is conjunction: for a condition [a] that holds no ampersand and
    any condition [b], the condition [a&&b] evaluates to the conjunction of
    what [a] and [b] evaluate to, a blank side counting as true. *)
Theorem condition_conjunction (a b : string) (o : Outcome.t) (c : Context.t) :
  PyStr.contains "&" a = false →
  ∃ x y, evaluate_condition a o c = Ok x
         ∧ evaluate_condition b o c = Ok y
         ∧ evaluate_condition (a +:+ String "&" (String "&" b)) o c = Ok (x && y).
Proof.
  intros Ha. apply contains_find_none in Ha.
  destruct (evaluate_condition_ok a o c) as [x Hx].
  destruct (evaluate_condition_ok b o c) as [y Hy].
  exists x, y. split; [done|]. split; [done|].
  rewrite evaluate_condition_clauses. unfold PyStr.split.
  rewrite (split_go_app_pair "&" _ _ _ Ha). cbn [String.rev_app].
  fold (PyStr.split "&&" b).
  rewrite evaluate_condition_clauses in Hy.
  cbn [List.filter].
  destruct (PyStr.strip a) eqn:Hs.
  - cbn [PyStr.truthy String.eqb negb].
    rewrite (evaluate_condition_blank _ _ _ Hs) in Hx. injection Hx as <-.
    exact Hy.
  - change (PyStr.truthy (String a0 s)) with true. cbn [List.map all_clauses].
    rewrite evaluate_clause_strip.
    rewrite evaluate_condition_single in Hx; [|by apply find_pair_none|by rewrite Hs].
    rewrite Hx. cbn [res_bind]. destruct x; [exact Hy|reflexivity].
Qed.

Lemma condition_conjunction_witness :
  evaluate_condition "outcome=success && mode=fast" (Outcome.default SUCCESS)
    (ctx_of [("mode", VStr "slow")]) = Ok false.
Proof.
  destruct (condition_conjunction "outcome=success " " mode=fast" (Outcome.default SUCCESS)
              (ctx_of [("mode", VStr "slow")]) eq_refl) as (x & y & Hx & Hy & H).
  vm_compute in Hx, Hy. injection Hx as <-. injection Hy as <-. exact H.
Defined.

(** ** [context.py], [graph.py] *)

Lemma dict_get_app {A : Type} (l1 l2 : list (string * A)) k :
  dict_get (l1 ++ l2) k
  = match dict_get l1 k with
    | Some v => Some v
    | None => dict_get l2 k
    end.
Proof.
  induction l1 as [|[k' v] l1 IH]; [reflexivity|].
  simpl. destruct (String.eqb k' k); [reflexivity|exact IH].
Qed.

Lemma update_lookup items : ∀ (m : gmap string value) k,
  Context.update m items !! k
  = match dict_get (rev items) k with
    | Some v => Some v
    | None => m !! k
    end.
Proof.
  induction items as [|[k' v] items IH]; intros m k; [reflexivity|].
  unfold Context.update in *. cbn [fold_left rev]. rewrite IH, dict_get_app.
  destruct (dict_get (rev items) k); [reflexivity|].
  cbn [dict_get fst snd]. destruct (String.eqb_spec k' k) as [->|Hne].
  - apply lookup_insert_eq.
  - apply lookup_insert_ne, Hne.
Qed.

Lemma apply_updates_get c items k :
  Context.get (Context.apply_updates c (Some items)) k
  = match dict_get (rev items) k with
    | Some v => v
    | None => Context.get c k
    end.
Proof.
  unfold Context.get. destruct items as [|kv items]; [reflexivity|].
  cbn [Context.apply_updates Context._values]. rewrite update_lookup.
  destruct (dict_get _ k); reflexivity.
Qed.

Lemma set_get c k v k' :
  Context.get (Context.set c k v) k' = if String.eqb k k' then v else Context.get c k'.
Proof.
  unfold Context.get, Context.set. cbn [Context._values].
  destruct (String.eqb_spec k k') as [->|Hne].
  - now rewrite lookup_insert_eq.
  - now rewrite lookup_insert_ne.
Qed.

(** X4. The context after a stage, as the engine leaves it: the key
    [outcome] holds the status of the stage's outcome, whatever the updates of
    the outcome say; the key [preferred_label] holds the label of the outcome
    when that is not empty, and is otherwise left as the updates or the
    earlier stages set it (an empty label clears nothing); any other key holds
    the value of the last update for it, or its former value. *)
Theorem context_after_stage (c : Context.t) (o : Outcome.t) :
  let c' := record_outcome c o in
  Context.get c' "outcome" = VStr (Status.value (Outcome.status o))
  ∧ Context.get c' "preferred_label"
    = (if PyStr.truthy (Outcome.preferred_label o)
       then VStr (Outcome.preferred_label o)
       else match dict_get (rev (default [] (Outcome.context_updates o))) "preferred_label" with
            | Some v => v
            | None => Context.get c "preferred_label"
            end)
  ∧ ∀ k, k ≠ "outcome" → k ≠ "preferred_label" →
      Context.get c' k
      = match dict_get (rev (default [] (Outcome.context_updates o))) k with
        | Some v => v
        | None => Context.get c k
        end.
Proof.
  assert (Hup : ∀ k, Context.get (Context.apply_updates c (Outcome.context_updates o)) k
                = match dict_get (rev (default [] (Outcome.context_updates o))) k with
                  | Some v => v
                  | None => Context.get c k
                  end).
  { intros k. destruct (Outcome.context_updates o) as [items|]; [|reflexivity].
    apply apply_updates_get. }
  assert (Hset : ∀ c0 k v k', k ≠ k' →
            Context.get (Context.set c0 k v) k' = Context.get c0 k').
  { intros c0 k v k' Hne. rewrite set_get.
    now destruct (String.eqb_spec k k'). }
  assert (Hsame : ∀ c0 k v, Context.get (Context.set c0 k v) k = v).
  { intros c0 k v. now rewrite set_get, String.eqb_refl. }
  unfold record_outcome.
  destruct (PyStr.truthy (Outcome.preferred_label o)); cbv zeta.
  - split; [rewrite Hset by discriminate; apply Hsame|].
    split; [apply Hsame|].
    intros k H1 H2. rewrite !Hset by congruence. apply Hup.
  - split; [apply Hsame|].
    split; [rewrite Hset by discriminate; apply Hup|].
    intros k H1 H2. rewrite Hset by congruence. apply Hup.
Qed.

Lemma find_none_forall {A : Type} (f : A → bool) (l : list A) :
  List.find f l = None ↔ Forall (λ x, f x = false) l.
Proof.
  induction l as [|x l IH]; simpl.
  - split; [constructor|reflexivity].
  - destruct (f x) eqn:Hx.
    + split; [discriminate|]. intros H. apply Forall_cons in H as [H _]. congruence.
    + rewrite IH. split; [now constructor|]. intros H. now apply Forall_cons in H as [_ H].
Qed.

Lemma find_some_split {A : Type} (f : A → bool) (l : list A) x :
  List.find f l = Some x →
  ∃ l1 l2, l = l1 ++ x :: l2 ∧ f x = true ∧ Forall (λ y, f y = false) l1.
Proof.
  induction l as [|y l IH]; [discriminate|]. simpl.
  destruct (f y) eqn:Hy.
  - intros [= <-]. exists [], l. repeat split; [assumption|constructor].
  - intros H. destruct (IH H) as (l1 & l2 & -> & Hx & Hl).
    exists (y :: l1), l2. repeat split; [assumption|]. now constructor.
Qed.

Lemma no_Mdiamond_find nodes :
  no_Mdiamond nodes
  ↔ List.find (λ kv : string * Node.t, String.eqb (Node.shape kv.2) "Mdiamond") nodes = None.
Proof.
  rewrite find_none_forall. unfold no_Mdiamond. apply Forall_proper; [|reflexivity].
  intros [k n]. cbn [snd]. destruct (String.eqb_spec (Node.shape n) "Mdiamond"); split; congruence.
Qed.

(** X5. The start node is the first node, in declaration order, whose shape
    is [Mdiamond], whatever its id; only when no node has that shape is it
    the node with id [start], and failing that the node with id [Start].
    There is none exactly when the graph has no node of that shape and
    neither of the two ids. *)
Theorem find_start_node_order (g : Graph.t) :
  match Graph.find_start_node g with
  | Some nid =>
      (∃ l1 n l2,
         Graph.nodes g = l1 ++ (nid, n) :: l2
         ∧ Node.shape n = "Mdiamond" ∧ no_Mdiamond l1)
      ∨ (no_Mdiamond (Graph.nodes g) ∧ nid = "start"
         ∧ is_Some (Graph.get_node g "start"))
      ∨ (no_Mdiamond (Graph.nodes g) ∧ nid = "Start"
         ∧ Graph.get_node g "start" = None ∧ is_Some (Graph.get_node g "Start"))
  | None =>
      no_Mdiamond (Graph.nodes g)
      ∧ Graph.get_node g "start" = None ∧ Graph.get_node g "Start" = None
  end.
Proof.
  unfold Graph.find_start_node.
  destruct (List.find _ (Graph.nodes g)) as [[nid n]|] eqn:Hf.
  - left. apply find_some_split in Hf as (l1 & l2 & -> & Hn & Hl).
    exists l1, n, l2. split; [reflexivity|]. cbn [snd] in Hn.
    apply String.eqb_eq in Hn. split; [assumption|].
    eapply Forall_impl; [exact Hl|]. intros [k m]. cbn [snd].
    destruct (String.eqb_spec (Node.shape m) "Mdiamond"); congruence.
  - apply no_Mdiamond_find in Hf.
    destruct (Graph.get_node g "start") eqn:H1.
    + right. left. eauto.
    + destruct (Graph.get_node g "Start") eqn:H2.
      * right. right. eauto.
      * eauto.
Qed.

(** ** [engine.py]: how a run proceeds and ends *)

Section RunProperties.
Context {W : Type} (mkdir : string → W → W) (path_exists : string → string → W → bool).
Context (write_text : string → string → string → W → W).
Context (self : @PipelineEngine W) (graph : Graph.t).

(** A property kept by every pass of the loop holds in every state a run
    reaches. *)
Lemma reaches_invariant (P : @LoopState W → Prop) st0 st :
  (∀ s s', P s → loop_body mkdir path_exists write_text self graph s = inl s' → P s') →
  reaches mkdir path_exists write_text self graph st0 st → P st0 → P st.
Proof.
  intros Hstep. induction 1 as [s|s s' s'' Hbody _ IH]; [trivial|].
  intros H0. apply IH. eapply Hstep; eauto.
Qed.

(** A run from the start node is its loop from the initial state. *)
Lemma run_loop context w start_id fuel :
  Graph.find_start_node graph = Some start_id →
  start_id ≠ EmptyString →
  run mkdir path_exists write_text self graph context w fuel
  = loop mkdir path_exists write_text self graph fuel (initial_state graph context w start_id).
Proof.
  intros Hs Hne. unfold run. rewrite Hs.
  destruct start_id; [now destruct Hne|reflexivity].
Qed.



(** What one pass does at a node whose stage runs, by what the handler and
    the writing of [status.json] do. *)
Lemma loop_body_breaks st node handler e :
  Graph.get_node graph (current_id st) = Some node →
  Graph.is_terminal graph (current_id st) = false →
  _resolve_handler self node = Ok handler →
  stage_breaks mkdir path_exists handler node (ctx st) graph (world st) e →
  ∃ r, loop_body mkdir path_exists write_text self graph st = inr r
       ∧ run_result r = Raise e
       ∧ run_events r = emitted st ++ [started_event node].
Proof.
  intros Hn Ht Hh Hb. unfold loop_body. rewrite Hn, Ht, Hh.
  unfold stage_breaks in Hb.
  destruct (handler node (ctx st) graph (world st)) as [[[outcome|e'] ctx1] w1].
  - destruct Hb as (Hs & Hp & Hd). unfold log_stage.
    rewrite Hp, (bool_decide_eq_false_2 _ Hs), Hd. cbn [negb andb].
    eexists. split; [reflexivity|]. split; reflexivity.
  - subst e'. eexists. split; [reflexivity|]. split; reflexivity.
Qed.

Lemma log_stage_raises node outcome w e w' :
  log_stage mkdir path_exists write_text node outcome w = (Raise e, w') →
  Outcome.status outcome ≠ FAIL
  ∧ path_exists (Node.id node) "status.json" (mkdir (Node.id node) w) = false
  ∧ dumps_outcome outcome = Raise e.
Proof.
  unfold log_stage.
  destruct (path_exists _ _ _); cbn [negb andb]; [discriminate|].
  destruct (bool_decide_reflect (Outcome.status outcome = FAIL)); cbn [negb];
    [discriminate|].
  destruct (dumps_outcome outcome) as [text|e0]; [discriminate|].
  intros [= -> _]. auto.
Qed.



(** X7. In a graph with no node of shape [Mdiamond] and no node with id
    [start] or [Start], a run raises [ValueError] before anything else
    happens: no event is emitted and the world is left as it was. *)
Theorem run_without_start_node (context : option Context.t) (w : W) (fuel : nat) :
  no_Mdiamond (Graph.nodes graph) →
  Graph.get_node graph "start" = None →
  Graph.get_node graph "Start" = None →
  ∃ r, run mkdir path_exists write_text self graph context w fuel = Some r
       ∧ run_result r
         = Raise (ValueError "No start node (shape=Mdiamond or id=start) found")
       ∧ run_events r = []
       ∧ run_world r = w.
Proof.
  intros Hm H1 H2. unfold run, Graph.find_start_node.
  apply no_Mdiamond_find in Hm. rewrite Hm, H1, H2.
  eexists. split; [reflexivity|]. repeat split.
Qed.

(** X8. A stage that does not fail and whose node has no outgoing edge ends
    the run. When the stage has its [status.json], or [json.dumps] serializes
    the outcome, the run is completed: it returns the outcome of that stage
    and closes with [PipelineCompleted] for that node, though the node is not
    terminal, and the goal gates are not looked at on this way out (nothing is
    asked of the recorded outcomes). When the stage has no [status.json] and
    [json.dumps] raises on the outcome, the run raises that exception after
    the [StageStarted] of the stage and emits nothing more. *)
Theorem dead_end_completes (context : option Context.t) (w : W) (start_id : string)
    (st : LoopState) (node : Node.t) (handler : Handler)
    (outcome : Outcome.t) (ctx1 : Context.t) (w1 : W) :
  Graph.find_start_node graph = Some start_id →
  start_id ≠ EmptyString →
  reaches mkdir path_exists write_text self graph (initial_state graph context w start_id) st →
  Graph.get_node graph (current_id st) = Some node →
  Graph.is_terminal graph (current_id st) = false →
  _resolve_handler self node = Ok handler →
  handler node (ctx st) graph (world st) = (Ok outcome, ctx1, w1) →
  Outcome.status outcome ≠ FAIL →
  Graph.outgoing_edges graph (Node.id node) = [] →
  ∃ r fuel0,
    (∀ fuel, (fuel0 ≤ fuel)%nat →
       run mkdir path_exists write_text self graph context w fuel = Some r)
    ∧ ((path_exists (Node.id node) "status.json" (mkdir (Node.id node) w1) = true
        ∨ ∃ text, dumps_outcome outcome = Ok text) →
       run_result r = Ok outcome
       ∧ run_events r
         = emitted st
           ++ [started_event node; completed_event node outcome;
               Event.mk "PipelineCompleted" [("current_node", VStr (current_id st))]])
    ∧ (∀ e,
         path_exists (Node.id node) "status.json" (mkdir (Node.id node) w1) = false →
         dumps_outcome outcome = Raise e →
         run_result r = Raise e
         ∧ run_events r = emitted st ++ [started_event node]).
Proof.
  intros Hs Hne Hr Hn Ht Hh He Hst Hout.
  assert (Hroute : route node outcome (record_outcome ctx1 outcome) graph = Ok None).
  { unfold route. rewrite bool_decide_eq_false_2 by assumption.
    unfold select_edge. now rewrite Hout. }
  assert (Hrun : ∀ r, loop_body mkdir path_exists write_text self graph st = inr r →
            ∃ fuel0, ∀ fuel, (fuel0 ≤ fuel)%nat →
              run mkdir path_exists write_text self graph context w fuel = Some r).
  { intros r Hbody. destruct (loop_reaches _ _ _ _ _ _ _ _ Hr Hbody) as [fuel0 Hfuel].
    exists fuel0. intros fuel Hle. rewrite (run_loop _ _ _ _ Hs Hne). now apply Hfuel. }
  destruct (log_stage mkdir path_exists write_text node outcome w1) as [[[]|e0] w2] eqn:Hl.
  - eassert (Hbody : loop_body mkdir path_exists write_text self graph st = inr _).
    { unfold loop_body. rewrite Hn, Ht, Hh, He, Hl, Hroute. reflexivity. }
    destruct (Hrun _ Hbody) as [fuel0 Hfuel]. eexists _, fuel0.
    split; [exact Hfuel|]. split.
    + intros _. split; [reflexivity|].
      cbn [completed run_events emitted current_id]. now rewrite <- app_assoc.
    + intros e Hp Hd. exfalso. revert Hl. unfold log_stage.
      rewrite Hp, (bool_decide_eq_false_2 _ Hst), Hd. discriminate.
  - apply log_stage_raises in Hl as (_ & Hp & Hd).
    assert (Hb : stage_breaks mkdir path_exists handler node (ctx st) graph (world st) e0).
    { unfold stage_breaks. rewrite He. auto. }
    destruct (loop_body_breaks _ _ _ _ Hn Ht Hh Hb) as (r & Hbody & Hres & Hev).
    destruct (Hrun _ Hbody) as [fuel0 Hfuel]. exists r, fuel0.
    split; [exact Hfuel|]. split.
    + intros [Hp'|[text Hd']]; congruence.
    + intros e _ Hd'. rewrite Hd' in Hd. injection Hd as ->. now split.
Qed.

(** X9. When a run arrives at an id that names no node of the graph (the
    destination of an edge need not be declared), it raises [RuntimeError]
    with the message [Node not found: <id>] and emits no further event. *)
Theorem missing_node_raises (context : option Context.t) (w : W) (start_id : string)
    (st : LoopState) :
  Graph.find_start_node graph = Some start_id →
  start_id ≠ EmptyString →
  reaches mkdir path_exists write_text self graph (initial_state graph context w start_id) st →
  Graph.get_node graph (current_id st) = None →
  ∃ r fuel0,
    (∀ fuel, (fuel0 ≤ fuel)%nat → run mkdir path_exists write_text self graph context w
        fuel = Some r)
    ∧ run_result r = Raise (RuntimeError ("Node not found: " +:+ current_id st))
    ∧ run_events r = emitted st.
Proof.
  intros Hs Hne Hr Hn.
  eassert (Hbody : loop_body mkdir path_exists write_text self graph st = inr _).
  { unfold loop_body. rewrite Hn. reflexivity. }
  destruct (loop_reaches _ _ _ _ _ _ _ _ Hr Hbody) as [fuel0 Hfuel].
  eexists _, fuel0. split.
  { intros fuel Hle. rewrite (run_loop _ _ _ _ Hs Hne). now apply Hfuel. }
  split; reflexivity.
Qed.

Lemma elem_of_dict_set {A : Type} (d : list (string * A)) k v k' v' :
  (k', v') ∈ dict_set d k v → (k', v') = (k, v) ∨ (k', v') ∈ d.
Proof.
  induction d as [|[k0 w0] d IH]; simpl.
  - intros H. apply list_elem_of_singleton in H. now left.
  - destruct (String.eqb_spec k0 k) as [->|Hne].
    + intros H. apply elem_of_cons in H as [H|H]; [now left|].
      right. now right.
    + intros H. apply elem_of_cons in H as [H|H].
      * right. rewrite H. now left.
      * destruct (IH H); [now left|]. right. now right.
Qed.

(** X10. The handler of a terminal node never runs: in every state that a
    run reaches, the nodes with a recorded outcome are nodes of the graph
    that are not terminal. So the goal gate of a terminal node is never
    checked. *)
Theorem terminal_nodes_never_run (context : option Context.t) (w : W)
    (start_id : string) (st : LoopState) :
  reaches mkdir path_exists write_text self graph (initial_state graph context w start_id) st →
  ∀ nid oc, (nid, oc) ∈ node_outcomes st →
    Graph.is_terminal graph nid = false ∧ is_Some (Graph.get_node graph nid).
Proof.
  intros Hr.
  refine (reaches_invariant
            (λ s, ∀ nid oc, (nid, oc) ∈ node_outcomes s →
                    Graph.is_terminal graph nid = false
                    ∧ is_Some (Graph.get_node graph nid)) _ _ _ Hr _).
  - intros s s' Hinv. unfold loop_body.
    destruct (Graph.get_node graph (current_id s)) as [node|] eqn:Hn; [|discriminate].
    destruct (Graph.is_terminal graph (current_id s)) eqn:Ht.
    { destruct (goal_gate_failure graph (node_outcomes s)) as [[? ?]|]; discriminate. }
    destruct (_resolve_handler self node) as [handler|]; [|discriminate].
    destruct (handler node (ctx s) graph (world s)) as [[[outcome|e] ctx1] w1];
      [|discriminate].
    destruct (log_stage mkdir path_exists write_text node outcome w1) as [[[]|e] w2];
      [|discriminate].
    destruct (route node outcome (record_outcome ctx1 outcome) graph) as [[next|]|];
      try discriminate.
    intros [= <-] nid oc Hin. cbn [node_outcomes] in Hin.
    apply elem_of_dict_set in Hin as [[= -> ->]|Hin]; [|eauto].
    split; [assumption|]. rewrite Hn. eauto.
  - intros nid oc Hin. cbn in Hin. inversion Hin.
Qed.

End RunProperties.


Lemma run_without_start_node_witness :
  ∃ r, run sample_mkdir sample_exists sample_write passing_engine headless_graph None [] 0 = Some r
       ∧ run_result r
         = Raise (ValueError "No start node (shape=Mdiamond or id=start) found")
       ∧ run_events r = []
       ∧ run_world r = [].
Proof.
  apply (run_without_start_node sample_mkdir sample_exists sample_write passing_engine
      headless_graph None [] 0).
  - constructor; [discriminate|constructor].
  - reflexivity.
  - reflexivity.
Defined.

Lemma dead_end_completes_witness :
  (∃ r fuel0,
     (∀ fuel, (fuel0 ≤ fuel)%nat →
        run sample_mkdir sample_exists sample_write retrying_engine stub_graph
          None [] fuel = Some r)
     ∧ run_result r = Ok (Outcome.default RETRY)
     ∧ List.map Event.kind (run_events r)
       = ["StageStarted"; "StageCompleted"; "StageStarted"; "StageCompleted";
          "PipelineCompleted"]
     ∧ gate_violation stub_graph "work" (Outcome.default RETRY))
  ∧ ∃ r fuel0,
      (∀ fuel, (fuel0 ≤ fuel)%nat →
         run sample_mkdir sample_exists sample_write hoarding_engine stub_graph
           None [] fuel = Some r)
      ∧ run_result r = Raise (TypeError "Object of type set is not JSON serializable")
      ∧ List.map Event.kind (run_events r)
        = ["StageStarted"; "StageCompleted"; "StageStarted"].
Proof.
  pose (work := Node.mk "work" "work" "box" "" ""
                  (Context.update ∅ [("goal_gate", VBool true)])).
  split.
  - eassert (Hreach : reaches sample_mkdir sample_exists sample_write retrying_engine
                        stub_graph (initial_state stub_graph None [] "start") _).
    { eapply reaches_step; [reflexivity|]. apply reaches_here. }
    destruct (dead_end_completes sample_mkdir sample_exists sample_write retrying_engine
                stub_graph None [] "start" _ work
                retrying_handler (Outcome.default RETRY) _ _
                eq_refl ltac:(discriminate) Hreach eq_refl eq_refl eq_refl eq_refl
                ltac:(discriminate) eq_refl)
      as (r & fuel0 & Hrun & Hok & _).
    destruct Hok as [Hres Hev]; [right; eexists; reflexivity|].
    exists r, fuel0. split; [exact Hrun|]. split; [exact Hres|].
    split; [rewrite Hev; reflexivity|].
    eexists. split; [reflexivity|]. split; [reflexivity|]. split; discriminate.
  - eassert (Hreach : reaches sample_mkdir sample_exists sample_write hoarding_engine
                        stub_graph (initial_state stub_graph None [] "start") _).
    { eapply reaches_step; [reflexivity|]. apply reaches_here. }
    destruct (dead_end_completes sample_mkdir sample_exists sample_write hoarding_engine
                stub_graph None [] "start" _ work
                hoarding_handler hoarding_outcome _ _
                eq_refl ltac:(discriminate) Hreach eq_refl eq_refl eq_refl eq_refl
                ltac:(discriminate) eq_refl)
      as (r & fuel0 & Hrun & _ & Hraise).
    destruct (Hraise (TypeError "Object of type set is not JSON serializable"))
      as [Hres Hev]; [reflexivity|reflexivity|].
    exists r, fuel0. split; [exact Hrun|]. split; [exact Hres|].
    rewrite Hev. reflexivity.
Defined.

Lemma missing_node_raises_witness :
  ∃ r fuel0,
    (∀ fuel, (fuel0 ≤ fuel)%nat →
       run sample_mkdir sample_exists sample_write passing_engine dangling_graph None []
           fuel = Some r)
    ∧ run_result r = Raise (RuntimeError "Node not found: ghost")
    ∧ List.map Event.kind (run_events r) = ["StageStarted"; "StageCompleted"].
Proof.
  eassert (Hreach : reaches sample_mkdir sample_exists sample_write passing_engine dangling_graph
                      (initial_state dangling_graph None [] "start") _).
  { eapply reaches_step; [reflexivity|]. apply reaches_here. }
  destruct (missing_node_raises sample_mkdir sample_exists sample_write passing_engine
      dangling_graph None [] "start"
              _ eq_refl ltac:(discriminate) Hreach eq_refl)
    as (r & fuel0 & Hrun & Hres & Hev).
  exists r, fuel0. split; [exact Hrun|]. split; [exact Hres|].
  rewrite Hev. reflexivity.
Defined.

Lemma terminal_nodes_never_run_witness :
  ∃ st,
    reaches sample_mkdir sample_exists sample_write failing_engine gate_graph
      (initial_state gate_graph None [] "start") st
    ∧ current_id st = "end"
    ∧ List.map fst (node_outcomes st) = ["start"; "critical"]
    ∧ Graph.is_terminal gate_graph "critical" = false.
Proof.
  eassert (Hreach : reaches sample_mkdir sample_exists sample_write failing_engine gate_graph
                      (initial_state gate_graph None [] "start") _).
  { eapply reaches_step; [reflexivity|].
    eapply reaches_step; [reflexivity|]. apply reaches_here. }
  eexists. split; [exact Hreach|]. split; [reflexivity|]. split; [reflexivity|].
  eapply (terminal_nodes_never_run sample_mkdir sample_exists sample_write failing_engine
      gate_graph None []
            "start" _ Hreach "critical").
  right. left.
Defined.

(** ** [engine.py]: the handler of a node; [handlers/tool.py]: registered tools *)

Section HandlerProperties.
Context {W : Type} (subprocess_run : value → value → Z → W → proc_result * W).

Lemma eqb_false_sym a b : String.eqb a b = false → String.eqb b a = false.
Proof. rewrite String.eqb_sym. trivial. Qed.

(** X11. In an engine built by [PipelineEngine.__init__], [_resolve_handler]
    never raises, and the handler is fixed by the two tables: a node whose
    [type] is one of start, exit, codergen, tool and conditional gets the
    handler of that type, whatever its shape; any other node gets the
    handler of its shape, which is the codergen handler for every shape
    other than Mdiamond, Msquare, parallelogram and diamond, the shapes
    hexagon, component, tripleoctagon and house included. *)
Theorem resolve_handler_tables (codergen : Handler)
    (tool_executors : gmap string (@ToolExecutor W)) (node : Node.t) :
  _resolve_handler (new_engine subprocess_run codergen tool_executors) node
  = Ok (resolved_handler subprocess_run codergen tool_executors node).
Proof.
  destruct node as [id label shape type prompt attrs].
  unfold _resolve_handler, resolved_handler, new_engine.
  cbn [Node.type Node.shape _handlers].
  assert (Htype :
    (if PyStr.truthy type
     then (<["start" := StartHandler]>
             (<["exit" := ExitHandler]>
                (<["codergen" := codergen]>
                   (<["tool" := ToolHandler_execute subprocess_run tool_executors]>
                      (<["conditional" := _ConditionalHandler]> (∅ : gmap string (@Handler W)))))))
          !! type
     else None)
    = (if String.eqb type "start" then Some StartHandler
       else if String.eqb type "exit" then Some ExitHandler
       else if String.eqb type "codergen" then Some codergen
       else if String.eqb type "tool"
       then Some (ToolHandler_execute subprocess_run tool_executors)
       else if String.eqb type "conditional" then Some _ConditionalHandler
       else None)).
  { destruct (String.eqb_spec type "start") as [->|H1]; [reflexivity|].
    destruct (String.eqb_spec type "exit") as [->|H2]; [reflexivity|].
    destruct (String.eqb_spec type "codergen") as [->|H3]; [reflexivity|].
    destruct (String.eqb_spec type "tool") as [->|H4]; [reflexivity|].
    destruct (String.eqb_spec type "conditional") as [->|H5]; [reflexivity|].
    destruct (PyStr.truthy type); [|reflexivity].
    rewrite !lookup_insert_ne by congruence. apply lookup_empty. }
  rewrite Htype. clear Htype.
  match goal with |- context [match ?x with Some h => Ok h | None => _ end] =>
    destruct x as [h|]; [reflexivity|] end.
  destruct (String.eqb_spec shape "Mdiamond") as [->|H1]; [reflexivity|].
  destruct (String.eqb_spec shape "Msquare") as [->|H2]; [reflexivity|].
  destruct (String.eqb_spec shape "parallelogram") as [->|H3]; [reflexivity|].
  destruct (String.eqb_spec shape "diamond") as [->|H4]; [reflexivity|].
  destruct (String.eqb_spec shape "box") as [->|H5]; [reflexivity|].
  destruct (String.eqb_spec shape "hexagon") as [->|H6]; [reflexivity|].
  destruct (String.eqb_spec shape "component") as [->|H7]; [reflexivity|].
  destruct (String.eqb_spec shape "tripleoctagon") as [->|H8]; [reflexivity|].
  destruct (String.eqb_spec shape "house") as [->|H9]; [reflexivity|].
  unfold SHAPE_TO_TYPE. cbn [dict_get].
  repeat match goal with
         | H : shape ≠ ?k |- context [String.eqb ?k shape] =>
             rewrite (eqb_false_sym shape k) by (now apply String.eqb_neq)
         end.
  reflexivity.
Qed.

(** X12. When an executor is registered under the tool name of a node (its
    [tool] attribute or, when that is falsy, its [tool_command]), the tool
    handler returns what the executor returns, turns an exception of the
    executor into a FAIL outcome with the message of the exception, and runs
    no command: the result does not depend on [subprocess.run]. *)
Theorem registered_tool_runs_executor (executors : gmap string (@ToolExecutor W))
    (node : Node.t) (context : Context.t) (graph : Graph.t) (w : W)
    (name : string) (executor : ToolExecutor) :
  py_or (Node.attr node "tool") (Node.attr node "tool_command") = VStr name →
  executors !! name = Some executor →
  ToolHandler_execute subprocess_run executors node context graph w
  = match executor name node context graph w with
    | (Ok outcome, context', w') => (Ok outcome, context', w')
    | (Raise e, context', w') =>
        (Ok (Outcome.mk FAIL "" None None "" (exn_message e)), context', w')
    end.
Proof.
  intros Hname Hex. unfold ToolHandler_execute. rewrite Hname.
  unfold ToolExecutor in *. rewrite Hex. reflexivity.
Qed.

End HandlerProperties.

Lemma registered_tool_runs_executor_witness :
  ToolHandler_execute sample_subprocess sample_executors
    (tool_node [("tool", VStr "lint"); ("tool_command", VStr "echo hi")])
    Context.empty gate_graph []
  = (Ok (Outcome.mk FAIL "" None None "" "lint"), Context.empty, ["called"]).
Proof.
  rewrite (registered_tool_runs_executor sample_subprocess sample_executors
             (tool_node [("tool", VStr "lint"); ("tool_command", VStr "echo hi")])
             Context.empty gate_graph [] "lint" raising_executor eq_refl eq_refl).
  reflexivity.
Defined.

(** ** [dot_parser.py]: the parser terminates *)

Lemma string_length_drop n : ∀ s, String.length (PyStr.drop n s) = (String.length s - n)%nat.
Proof.
  induction n as [|n IH]; intros [|c s]; simpl; try reflexivity; try lia. apply IH.
Qed.

Lemma string_length_take n : ∀ s, String.length (PyStr.take n s) = (n `min` String.length s)%nat.
Proof.
  induction n as [|n IH]; intros [|c s]; simpl; try reflexivity. now rewrite IH.
Qed.

Lemma length_lstrip_with p s :
  (String.length (PyStr.lstrip_with p s) ≤ String.length s)%nat.
Proof.
  induction s as [|c s IH]; simpl; [lia|]. destruct (p c); simpl; lia.
Qed.

Lemma length_ws s : (String.length (Re.ws s) ≤ String.length s)%nat.
Proof. apply length_lstrip_with. Qed.

Lemma span_len_le p s : (Re.span_len p s ≤ String.length s)%nat.
Proof. induction s as [|c s IH]; simpl; [lia|]. destruct (p c); simpl; lia. Qed.

Lemma prefix_length l : ∀ s, String.prefix l s = true → (String.length l ≤ String.length s)%nat.
Proof.
  induction l as [|a l IH]; intros [|c s]; simpl; try lia; try discriminate.
  destruct (Ascii.ascii_dec a c); [|discriminate]. intros H. specialize (IH _ H). lia.
Qed.

Lemma word_shorter s w r :
  Re.word s = Some (w, r) → (String.length r < String.length s)%nat.
Proof.
  unfold Re.word. destruct (Nat.eqb_spec (Re.span_len Re.isword s) 0); [discriminate|].
  intros [= _ <-]. rewrite string_length_drop. pose proof (span_len_le Re.isword s). lia.
Qed.

Lemma lit_length l s r :
  Re.lit l s = Some r → (String.length r + String.length l = String.length s)%nat.
Proof.
  unfold Re.lit. destruct (String.prefix l s) eqn:H; [|discriminate].
  intros [= <-]. rewrite string_length_drop. apply prefix_length in H. lia.
Qed.

Lemma opt_length l s : (String.length (Re.opt l s) ≤ String.length s)%nat.
Proof.
  unfold Re.opt. destruct (Re.lit l s) as [r|] eqn:H; [|lia].
  apply lit_length in H. lia.
Qed.

Lemma block_shorter s g r :
  Re.block s = Some (g, r) → (String.length r < String.length s)%nat.
Proof.
  unfold Re.block. destruct (Re.lit "[" s) as [r1|] eqn:H1; [|discriminate].
  cbn [mbind option_bind]. destruct (PyStr.find "]" r1) as [i|]; [|discriminate].
  cbn [mbind option_bind]. intros [= _ <-]. apply lit_length in H1.
  change (String.length (PyStr.drop (S i) r1) < String.length s)%nat.
  rewrite string_length_drop. simpl in H1. lia.
Qed.

Lemma edge_tail_length r a r' :
  Re.edge_tail r = (a, r') → (String.length r' ≤ String.length r)%nat.
Proof.
  unfold Re.edge_tail. destruct (Re.block (Re.ws r)) as [[g r1]|] eqn:Hb.
  - intros [= _ <-]. apply block_shorter in Hb.
    pose proof (opt_length ";" r1). pose proof (length_ws r). lia.
  - intros [= _ <-]. apply opt_length.
Qed.

(** Every pattern of the loop consumes at least one character. *)
Lemma keyword_block_stop kw rest g stop :
  Re.keyword_block kw rest = Some (g, stop) → (1 ≤ stop)%nat.
Proof.
  unfold Re.keyword_block. destruct (Re.lit kw rest) as [r1|] eqn:H1; [|discriminate].
  cbn [mbind option_bind]. destruct (Re.block (Re.ws r1)) as [[g' r2]|] eqn:H2; [|discriminate].
  cbn [mbind option_bind]. intros [= _ <-]. unfold Re.consumed.
  apply lit_length in H1. apply block_shorter in H2. pose proof (length_ws r1). lia.
Qed.

Lemma decl_stop rest k v stop : Re.decl rest = Some (k, v, stop) → (1 ≤ stop)%nat.
Proof.
  unfold Re.decl. destruct (Re.word rest) as [[k' r1]|] eqn:H1; [|discriminate].
  cbn [mbind option_bind]. destruct (Re.lit "=" (Re.ws r1)) as [r2|] eqn:H2; [|discriminate].
  cbn [mbind option_bind]. apply word_shorter in H1. apply lit_length in H2.
  pose proof (length_ws r1). pose proof (length_ws r2).
  destruct (0 <? _)%nat.
  - intros [= _ _ <-]. unfold Re.consumed.
    pose proof (opt_length ";" (PyStr.drop
      (Re.span_len (λ c : ascii, negb (Ascii.eqb c ";")) (Re.ws r2)) (Re.ws r2))).
    rewrite string_length_drop in H3. lia.
  - destruct (0 <? _)%nat; [|discriminate].
    intros [= _ _ <-]. unfold Re.consumed.
    pose proof (opt_length ";" (Re.ws r2)). lia.
Qed.

Lemma node_start_stop rest nid stop : Re.node_start rest = Some (nid, stop) → (1 ≤ stop)%nat.
Proof.
  unfold Re.node_start. destruct (Re.word rest) as [[k' r1]|] eqn:H1; [|discriminate].
  cbn [mbind option_bind]. destruct (Re.lit "[" (Re.ws r1)) as [r2|] eqn:H2; [|discriminate].
  cbn [mbind option_bind]. intros [= _ <-]. unfold Re.consumed.
  apply word_shorter in H1. apply lit_length in H2. pose proof (length_ws r1). lia.
Qed.

Lemma edge_match_stop rest from_id to_id a stop :
  Re.edge_match rest = Some (from_id, to_id, a, stop) → (1 ≤ stop)%nat.
Proof.
  unfold Re.edge_match. destruct (Re.word rest) as [[k' r1]|] eqn:H1; [|discriminate].
  cbn [mbind option_bind]. destruct (Re.lit "->" (Re.ws r1)) as [r2|] eqn:H2; [|discriminate].
  cbn [mbind option_bind]. destruct (Re.word (Re.ws r2)) as [[t r3]|] eqn:H3; [|discriminate].
  cbn [mbind option_bind]. destruct (Re.edge_tail r3) as [a' r4] eqn:H4.
  intros [= _ _ _ <-]. unfold Re.consumed.
  apply word_shorter in H1, H3. apply lit_length in H2. apply edge_tail_length in H4.
  pose proof (length_ws r1). pose proof (length_ws r2). lia.
Qed.

Lemma node_bare_stop rest nid stop : Re.node_bare rest = Some (nid, stop) → (1 ≤ stop)%nat.
Proof.
  unfold Re.node_bare. destruct (Re.word rest) as [[k' r1]|] eqn:H1; [|discriminate].
  cbn [mbind option_bind]. intros [= _ <-]. unfold Re.consumed.
  apply word_shorter in H1.
  pose proof (length_ws (Re.opt ";" (Re.ws r1))). pose proof (opt_length ";" (Re.ws r1)).
  pose proof (length_ws r1). lia.
Qed.

Section ParserTermination.
Variable py_float : string → option value.

Lemma chain_loop_pos fuel : ∀ rest pos to_id attrs g pos' g',
  chain_loop fuel rest pos to_id attrs g = Ok (pos', g') → (pos ≤ pos')%nat.
Proof.
  induction fuel as [|fuel IH]; intros rest pos to_id attrs g pos' g'; simpl.
  { intros [= <- _]. lia. }
  destruct (Re.next_arrow _) as [[next_id stop]|]; [|intros [= <- _]; lia].
  destruct (make_edge to_id next_id attrs) as [e|]; [|discriminate].
  cbn [res_bind]. intros H. apply IH in H. lia.
Qed.

(** A pass of the loop leaves the text after the position, less its leading
    blanks, and a position of at least one. *)
Lemma parse_step_progress st st' :
  parse_step py_float st = Ok (inl st') →
  p_rest st' = PyStr.lstrip (PyStr.drop (p_pos st) (p_rest st)) ∧ (1 ≤ p_pos st')%nat.
Proof.
  unfold parse_step.
  set (rest := PyStr.lstrip (PyStr.drop (p_pos st) (p_rest st))).
  destruct (PyStr.truthy rest) eqn:Hrest; cbn [negb]; [|discriminate].
  destruct (Re.keyword_block "graph" rest) as [[body stop]|] eqn:H1.
  { intros [= <-]. split; [reflexivity|]. cbn. eapply keyword_block_stop; eauto. }
  destruct (Re.decl rest) as [[[k v] stop]|] eqn:H2.
  { intros [= <-]. split; [reflexivity|]. cbn. eapply decl_stop; eauto. }
  destruct (Re.keyword_block "node" rest) as [[body stop]|] eqn:H3.
  { intros [= <-]. split; [reflexivity|]. cbn. eapply keyword_block_stop; eauto. }
  destruct (Re.keyword_block "edge" rest) as [[body stop]|] eqn:H4.
  { intros [= <-]. split; [reflexivity|]. cbn. eapply keyword_block_stop; eauto. }
  destruct (Re.node_start rest) as [[nid stop]|] eqn:H5.
  { apply node_start_stop in H5.
    destruct (scan_close "[" false (PyStr.drop stop rest)) as [k|];
      intros [= <-]; (split; [reflexivity|]); cbn; [lia|].
    destruct rest; [discriminate Hrest|]. simpl. lia. }
  destruct (Re.edge_match rest) as [[[[from_id to_id] attr_text] stop]|] eqn:H6.
  { apply edge_match_stop in H6.
    destruct (make_edge from_id to_id _) as [e|]; [|discriminate].
    cbn [res_bind].
    destruct (chain_loop _ _ _ _ _ _) as [[pos' g']|] eqn:Hc; [|discriminate].
    cbn [res_bind]. intros [= <-]. split; [reflexivity|]. cbn.
    apply chain_loop_pos in Hc. lia. }
  destruct (Re.node_bare rest) as [[nid stop]|] eqn:H7.
  { intros [= <-]. split; [reflexivity|]. cbn. eapply node_bare_stop; eauto. }
  intros [= <-]. split; [reflexivity|]. cbn. lia.
Qed.

Lemma parse_loop_terminates fuel : ∀ st,
  (String.length (p_rest st) - p_pos st ≤ fuel)%nat →
  ∃ r, parse_loop py_float fuel st = Some r.
Proof.
  induction fuel as [|fuel IH]; intros st Hm.
  - simpl. destruct (Nat.ltb_spec (p_pos st) (String.length (p_rest st))); [lia|].
    cbn [negb]. eauto.
  - simpl. destruct (Nat.ltb_spec (p_pos st) (String.length (p_rest st))) as [Hlt|];
      cbn [negb]; [|eauto].
    destruct (parse_step py_float st) as [[st'|g]|e] eqn:Hs; [|eauto|eauto].
    apply IH. apply parse_step_progress in Hs as [-> Hpos].
    pose proof (length_lstrip_with PyStr.isspace (PyStr.drop (p_pos st) (p_rest st))) as Hl.
    rewrite string_length_drop in Hl. unfold PyStr.lstrip. lia.
Qed.

(** X13. [parse_dot] terminates on every source: the loop over the
    statements ends within as many passes as the text between the braces has
    characters, plus one, and the parser then returns a graph or raises. *)
Theorem parse_dot_terminates (source : string) :
  ∃ r, parse_dot py_float source = Some r.
Proof.
  unfold parse_dot.
  destruct (Re.digraph _) as [[name stop]|]; [|eauto].
  apply parse_loop_terminates. cbn [p_rest p_pos]. lia.
Qed.

End ParserTermination.

(** ** [dot_parser.py]: what the loop keeps *)

Lemma dict_get_None_keys {A : Type} (d : list (string * A)) k :
  dict_get d k = None ↔ k ∉ List.map fst d.
Proof.
  induction d as [|[k' v] d IH]; simpl.
  - split; [intros _ H; inversion H|reflexivity].
  - destruct (String.eqb_spec k' k) as [->|Hne].
    + split; [discriminate|]. intros H. destruct H. left.
    + rewrite IH. rewrite not_elem_of_cons. split; [intros; split; congruence|tauto].
Qed.

Lemma extends_refl g : extends g g.
Proof. split; [trivial|]. exists []. now rewrite app_nil_r. Qed.

Lemma extends_trans g1 g2 g3 : extends g1 g2 → extends g2 g3 → extends g1 g3.
Proof.
  intros [H1 [n1 E1]] [H2 [n2 E2]]. split; [auto|].
  exists (n1 ++ n2). rewrite E2, E1. now rewrite app_assoc.
Qed.

Lemma add_node_extends g nid attrs : extends g (add_node g nid attrs).
Proof.
  unfold add_node. destruct (dict_get (Graph.nodes g) nid) eqn:H; [apply extends_refl|].
  split.
  - intros k n. unfold Graph.get_node. cbn [Graph.nodes]. rewrite dict_get_app.
    now intros ->.
  - exists []. cbn. now rewrite app_nil_r.
Qed.

Lemma add_node_well_keyed g nid attrs :
  well_keyed (Graph.nodes g) → well_keyed (Graph.nodes (add_node g nid attrs)).
Proof.
  intros [Hd Hk]. unfold add_node.
  destruct (dict_get (Graph.nodes g) nid) eqn:H; [now split|].
  cbn [Graph.nodes]. split.
  - rewrite map_app. cbn [List.map fst]. apply NoDup_app. split; [assumption|].
    split; [|apply NoDup_singleton].
    intros k Hin Hk'. apply list_elem_of_singleton in Hk' as ->.
    now apply dict_get_None_keys in H.
  - apply Forall_app. split; [assumption|]. now constructor.
Qed.

Lemma add_edge_extends g e : extends g (add_edge g e).
Proof. split; [trivial|]. now exists [e]. Qed.

Lemma chain_loop_extends fuel : ∀ rest pos to_id attrs g pos' g',
  chain_loop fuel rest pos to_id attrs g = Ok (pos', g') →
  extends g g' ∧ Graph.nodes g' = Graph.nodes g.
Proof.
  induction fuel as [|fuel IH]; intros rest pos to_id attrs g pos' g'; simpl.
  { intros [= _ <-]. split; [apply extends_refl|reflexivity]. }
  destruct (Re.next_arrow _) as [[next_id stop]|].
  2:{ intros [= _ <-]. split; [apply extends_refl|reflexivity]. }
  destruct (make_edge to_id next_id attrs) as [e|]; [|discriminate].
  cbn [res_bind]. intros H. apply IH in H as [H1 H2]. split.
  - eapply extends_trans; [apply add_edge_extends|exact H1].
  - rewrite H2. reflexivity.
Qed.

Section ParserInvariants.
Variable py_float : string → option value.

(** What a pass of the loop does to the graph. *)
Lemma parse_step_graph st :
  match parse_step py_float st with
  | Ok (inl st') =>
      extends (p_graph st) (p_graph st')
      ∧ (well_keyed (Graph.nodes (p_graph st)) → well_keyed (Graph.nodes (p_graph st')))
  | Ok (inr g) => g = p_graph st
  | Raise _ => True
  end.
Proof.
  unfold parse_step.
  set (rest := PyStr.lstrip (PyStr.drop (p_pos st) (p_rest st))).
  destruct (PyStr.truthy rest); cbn [negb]; [|reflexivity].
  assert (Hsame : ∀ g', Graph.nodes g' = Graph.nodes (p_graph st) →
                        Graph.edges g' = Graph.edges (p_graph st) →
                        extends (p_graph st) g'
                        ∧ (well_keyed (Graph.nodes (p_graph st)) → well_keyed (Graph.nodes g'))).
  { intros g' Hn He. split; [|now rewrite Hn]. split.
    - unfold Graph.get_node. now rewrite Hn.
    - exists []. now rewrite He, app_nil_r. }
  destruct (Re.keyword_block "graph" rest) as [[body stop]|]; [now apply Hsame|].
  destruct (Re.decl rest) as [[[k v] stop]|]; [now apply Hsame|].
  destruct (Re.keyword_block "node" rest) as [[body stop]|]; [now apply Hsame|].
  destruct (Re.keyword_block "edge" rest) as [[body stop]|]; [now apply Hsame|].
  destruct (Re.node_start rest) as [[nid stop]|].
  { destruct (scan_close "[" false (PyStr.drop stop rest)) as [k|]; [|now apply Hsame].
    cbn [p_graph]. split; [apply add_node_extends|apply add_node_well_keyed]. }
  destruct (Re.edge_match rest) as [[[[from_id to_id] attr_text] stop]|].
  { destruct (make_edge from_id to_id _) as [e|]; [|exact I].
    cbn [res_bind].
    destruct (chain_loop _ _ _ _ _ _) as [[pos' g']|] eqn:Hc; [|exact I].
    cbn [res_bind p_graph fst snd]. apply chain_loop_extends in Hc as [H1 H2].
    split; [eapply extends_trans; [apply add_edge_extends|exact H1]|].
    now rewrite H2. }
  destruct (Re.node_bare rest) as [[nid stop]|].
  { cbn [p_graph]. split; [apply add_node_extends|apply add_node_well_keyed]. }
  now apply Hsame.
Qed.

Lemma parse_loop_graph fuel : ∀ st g,
  parse_loop py_float fuel st = Some (Ok g) →
  extends (p_graph st) g
  ∧ (well_keyed (Graph.nodes (p_graph st)) → well_keyed (Graph.nodes g)).
Proof.
  induction fuel as [|fuel IH]; intros st g; simpl.
  - destruct (negb _); [|discriminate]. intros [= <-]. split; [apply extends_refl|trivial].
  - destruct (negb _).
    { intros [= <-]. split; [apply extends_refl|trivial]. }
    pose proof (parse_step_graph st) as Hs.
    destruct (parse_step py_float st) as [[st'|g']|e]; [| |discriminate].
    + intros H. apply IH in H as [H1 H2]. destruct Hs as [Hs1 Hs2].
      split; [eapply extends_trans; eauto|auto].
    + intros [= <-]. subst g'. split; [apply extends_refl|trivial].
Qed.

(** X14. The first declaration of a node wins, and edges are only added:
    from any state of the loop on, the graph the parser returns holds every
    node declared so far, unchanged, whatever is declared later under the
    same id, and its edges are the edges read so far followed by the edges
    read later. *)
Theorem first_declaration_wins (fuel : nat) (st : ParseState) (g : Graph.t) :
  parse_loop py_float fuel st = Some (Ok g) →
  (∀ nid n, Graph.get_node (p_graph st) nid = Some n → Graph.get_node g nid = Some n)
  ∧ ∃ new, Graph.edges g = Graph.edges (p_graph st) ++ new.
Proof. intros H. apply parse_loop_graph in H as [H _]. exact H. Qed.

Lemma dict_get_elem {A : Type} (d : list (string * A)) k v :
  dict_get d k = Some v → (k, v) ∈ d.
Proof.
  induction d as [|[k' v'] d IH]; [discriminate|]. simpl.
  destruct (String.eqb_spec k' k) as [->|_].
  - intros [= ->]. left.
  - intros H. right. auto.
Qed.

(** X15. In every graph the parser returns, no node id occurs twice, and the
    node held under an id is the one the parser makes of that id and of the
    attributes the node holds: it bears the id, and its label, shape, type
    and prompt are the values of these attributes as text, where an absent
    label stands for the id, an absent shape for [box], and an absent type or
    prompt for the empty text. *)
Theorem parsed_nodes_well_keyed (source : string) (g : Graph.t) :
  parse_dot py_float source = Some (Ok g) →
  NoDup (List.map fst (Graph.nodes g))
  ∧ ∀ nid n, Graph.get_node g nid = Some n →
      Node.id n = nid
      ∧ Node.label n = attr_str (Node.attrs n) "label" nid
      ∧ Node.shape n = attr_str (Node.attrs n) "shape" "box"
      ∧ Node.type n = attr_str (Node.attrs n) "type" ""
      ∧ Node.prompt n = attr_str (Node.attrs n) "prompt" "".
Proof.
  unfold parse_dot. destruct (Re.digraph _) as [[name stop]|]; [|discriminate].
  intros H. apply parse_loop_graph in H as [_ H].
  destruct H as [Hd Hk]; [split; constructor|].
  split; [exact Hd|]. intros nid n Hn.
  apply dict_get_elem in Hn. rewrite Forall_forall in Hk.
  specialize (Hk _ Hn). cbn [fst snd] in Hk. rewrite Hk. repeat split.
Qed.

Lemma word_none c tail : Re.isword c = false → Re.word (String c tail) = None.
Proof. intros H. unfold Re.word. cbn [Re.span_len]. now rewrite H. Qed.

Lemma lit_word_none a l c tail :
  Re.isword a = true → Re.isword c = false → Re.lit (String a l) (String c tail) = None.
Proof.
  intros Ha Hc. unfold Re.lit. rewrite prefix_cons.
  destruct (Ascii.eqb_spec c a) as [->|_]; [congruence|reflexivity].
Qed.

(** X16. A character that starts no statement does not cost the loop one
    character: when the text still to be read begins, after its blanks, with
    a character that is not a word character (a semicolon left behind by a
    node declaration with attributes, say), the pass leaves the graph as it
    is and sets the position to the end of the statement before plus one, so
    the next pass skips that many characters of the text and whatever is
    declared in them. *)
Theorem unmatched_character_skips (st : ParseState) (c : ascii) (tail : string) :
  Re.isword c = false →
  PyStr.lstrip (PyStr.drop (p_pos st) (p_rest st)) = String c tail →
  parse_step py_float st
  = Ok (inl (mkParse (String c tail) (p_pos st + 1) (p_graph st)
               (p_node_defaults st) (p_edge_defaults st))).
Proof.
  intros Hc Hrest. unfold parse_step. rewrite Hrest.
  unfold Re.keyword_block, Re.decl, Re.node_start, Re.edge_match, Re.node_bare.
  rewrite (lit_word_none "g" "raph" c tail eq_refl Hc).
  rewrite (lit_word_none "n" "ode" c tail eq_refl Hc).
  rewrite (lit_word_none "e" "dge" c tail eq_refl Hc).
  rewrite (word_none _ _ Hc).
  reflexivity.
Qed.

End ParserInvariants.

Lemma unmatched_character_skips_witness :
  parse_step (λ _, None) after_block_state
  = Ok (inl (mkParse "; b; a -> b " 14 (p_graph after_block_state) ∅ ∅))
  ∧ parse_loop (λ _, None) 30 after_block_state = Some (Ok (p_graph after_block_state))
  ∧ Graph.edges (p_graph after_block_state) = [].
Proof.
  split; [|split; reflexivity].
  apply (unmatched_character_skips (λ _, None) after_block_state ";" " b; a -> b ");
    reflexivity.
Defined.

Lemma first_declaration_wins_witness :
  ∃ g, parse_loop (λ _, None) 30 redeclared_state = Some (Ok g)
       ∧ Graph.get_node g "a" = Some (Node.mk "a" "first" "box" "" "" ∅)
       ∧ Graph.edges g = [Edge.mk "x" "y" "" "" 0; Edge.mk "a" "b" "" "" 0].
Proof.
  eexists. split; [vm_compute; reflexivity|].
  split; [|reflexivity].
  eapply (first_declaration_wins (λ _, None) 30 redeclared_state); reflexivity.
Defined.

Lemma parsed_nodes_well_keyed_witness :
  parse_dot (λ _, None) declared_source = Some (Ok declared_graph)
  ∧ Graph.get_node declared_graph "done" = None
  ∧ NoDup ["start"; "work"]
  ∧ ∀ nid n, Graph.get_node declared_graph nid = Some n →
      Node.id n = nid
      ∧ Node.label n = attr_str (Node.attrs n) "label" nid
      ∧ Node.shape n = attr_str (Node.attrs n) "shape" "box"
      ∧ Node.type n = attr_str (Node.attrs n) "type" ""
      ∧ Node.prompt n = attr_str (Node.attrs n) "prompt" "".
Proof.
  assert (Hp : parse_dot (λ _, None) declared_source = Some (Ok declared_graph)).
  { vm_compute. reflexivity. }
  split; [exact Hp|]. split; [reflexivity|].
  exact (parsed_nodes_well_keyed (λ _, None) declared_source declared_graph Hp).
Defined.

(** ** [dot_parser.py]: comments and values *)

Lemma find_char_app_none a s1 s2 :
  PyStr.find (String a EmptyString) s1 = None →
  PyStr.find (String a EmptyString) s2 = None →
  PyStr.find (String a EmptyString) (s1 +:+ s2) = None.
Proof.
  intros H1 H2. induction s1 as [|c r IH]; [now rewrite app_nil_l|].
  apply find_char_none_cons in H1 as [Hc H1]. rewrite app_cons, find_char, Hc.
  now rewrite (IH H1).
Qed.

Lemma prefix_pair_false a b c r :
  Ascii.eqb c a = false → String.prefix (String a (String b EmptyString)) (String c r) = false.
Proof. intros H. now rewrite prefix_cons, H. Qed.

Lemma strip_line_comments_plain s :
  PyStr.find "/" s = None → strip_line_comments 0 false s = s.
Proof.
  induction s as [|c r IH]; [reflexivity|]. intros H.
  apply find_char_none_cons in H as [Hc H].
  cbn [strip_line_comments]. rewrite (prefix_pair_false _ _ _ _ Hc). now rewrite (IH H).
Qed.

Lemma strip_block_comments_plain s :
  PyStr.find "/" s = None → strip_block_comments 0 s = s.
Proof.
  induction s as [|c r IH]; [reflexivity|]. intros H.
  apply find_char_none_cons in H as [Hc H].
  cbn [strip_block_comments]. rewrite (prefix_pair_false _ _ _ _ Hc). now rewrite (IH H).
Qed.

(** Inside a line comment: up to the end of the line, or of the text. *)
Lemma strip_line_comments_inside b rest :
  PyStr.find (String newline EmptyString) b = None →
  strip_line_comments 0 true (b +:+ String newline rest)
  = String newline (strip_line_comments 0 false rest)
  ∧ strip_line_comments 0 true b = EmptyString.
Proof.
  induction b as [|c r IH]; intros H.
  - rewrite app_nil_l. split; reflexivity.
  - apply find_char_none_cons in H as [Hc H]. rewrite app_cons.
    cbn [strip_line_comments]. rewrite Hc. exact (IH H).
Qed.

Lemma strip_line_comments_app a rest :
  PyStr.find "/" a = None →
  strip_line_comments 0 false (a +:+ String "/" (String "/" rest))
  = a +:+ strip_line_comments 0 true rest.
Proof.
  induction a as [|c r IH]; intros H.
  - rewrite !app_nil_l. cbn [strip_line_comments].
    rewrite !prefix_cons, !Ascii.eqb_refl, prefix_empty. reflexivity.
  - apply find_char_none_cons in H as [Hc H]. rewrite !app_cons.
    cbn [strip_line_comments]. rewrite (prefix_pair_false _ _ _ _ Hc). now rewrite (IH H).
Qed.

(** X17. A text without a slash is left as it is. A line comment that
    follows a text without a slash is removed up to the end of its line,
    which stays, or up to the end of the text; what precedes it is not
    examined, so two slashes inside a quoted string open a comment too. *)
Theorem line_comment_removed (a b c : string) :
  PyStr.contains "/" a = false →
  PyStr.contains (String newline EmptyString) b = false →
  PyStr.contains "/" c = false →
  _strip_comments a = a
  ∧ _strip_comments (a +:+ String "/" (String "/" b)) = a
  ∧ _strip_comments (a +:+ String "/" (String "/" (b +:+ String newline c)))
    = a +:+ String newline c.
Proof.
  intros Ha Hb Hc. apply contains_find_none in Ha, Hb, Hc.
  destruct (strip_line_comments_inside b c Hb) as [Hin Hend].
  unfold _strip_comments. split; [|split].
  - rewrite strip_line_comments_plain by assumption.
    now apply strip_block_comments_plain.
  - rewrite strip_line_comments_app by assumption. rewrite Hend.
    replace (a +:+ EmptyString) with a by (clear; induction a; [reflexivity|rewrite app_cons; congruence]).
    now apply strip_block_comments_plain.
  - rewrite strip_line_comments_app by assumption. rewrite Hin.
    rewrite strip_line_comments_plain by assumption.
    apply strip_block_comments_plain. apply find_char_app_none; [assumption|].
    rewrite find_char. change (Ascii.eqb newline "/") with false. now rewrite Hc.
Qed.

Lemma line_comment_removed_witness :
  _strip_comments ("a -> b " +:+ String "/" (String "/" (" to b" +:+ String newline "b -> c")))
  = "a -> b " +:+ String newline "b -> c".
Proof.
  apply (line_comment_removed "a -> b " " to b" "b -> c"); reflexivity.
Defined.

Lemma replace_absent a l new s :
  PyStr.find (String a EmptyString) s = None → PyStr.replace (String a l) new s = s.
Proof.
  unfold PyStr.replace. induction s as [|c r IH]; [reflexivity|]. intros H.
  apply find_char_none_cons in H as [Hc H].
  cbn [PyStr.replace_go]. rewrite prefix_cons, Hc. cbn [andb]. now rewrite (IH H).
Qed.

Lemma lower_head c r t : PyStr.lower (String c r) = t → ∃ r', t = String (PyStr.lower_char c) r'.
Proof. intros <-. simpl. eauto. Qed.

Section ValueProperties.
Variable py_float : string → option value.

(** X18. A quoted value without a backslash is the text between the
    quotes, kept as it is (blanks, commas and equals signs included, and
    never read as a number or a boolean); [true] and [false], in any case
    and with blanks around, are the booleans. *)
Theorem parse_value_kinds (s : string) :
  (PyStr.contains (String backslash EmptyString) s = false →
   _parse_value py_float (quoted s) = VStr s)
  ∧ (PyStr.lower (PyStr.strip s) = "true" → _parse_value py_float s = VBool true)
  ∧ (PyStr.lower (PyStr.strip s) = "false" → _parse_value py_float s = VBool false).
Proof.
  split; [|split].
  - intros Hs. apply contains_find_none in Hs.
    assert (Hq : quoted s = String quote s +:+ String quote EmptyString)
      by (unfold quoted; now rewrite app_cons).
    assert (Hstrip : PyStr.strip (quoted s) = quoted s).
    { rewrite Hq. unfold PyStr.strip. rewrite strip_with_app by reflexivity. reflexivity. }
    unfold _parse_value. rewrite Hstrip.
    assert (Hstart : PyStr.startswith (String quote EmptyString) (quoted s) = true).
    { unfold PyStr.startswith, quoted. now rewrite prefix_char, Ascii.eqb_refl. }
    assert (Hlen : String.length (quoted s) = S (S (String.length s))).
    { unfold quoted. cbn [String.length]. now rewrite length_app_char, Nat.add_1_r. }
    assert (Hend : PyStr.endswith (String quote EmptyString) (quoted s) = true).
    { unfold PyStr.endswith. rewrite Hlen. cbn [String.length].
      replace (S (S (String.length s)) - 1)%nat with (S (String.length s)) by lia.
      unfold quoted. cbn [PyStr.drop]. rewrite drop_app. apply String.eqb_refl. }
    rewrite Hstart, Hend. cbn [andb]. f_equal.
    assert (Hslice : PyStr.slice 1 (String.length (quoted s) - 1) (quoted s) = s).
    { unfold PyStr.slice. rewrite Hlen.
      replace (S (S (String.length s)) - 1 - 1)%nat with (String.length s) by lia.
      unfold quoted. cbn [PyStr.drop]. apply take_app. }
    rewrite Hslice.
    rewrite (replace_absent backslash "n" _ s Hs).
    rewrite (replace_absent backslash "t" _ s Hs).
    rewrite (replace_absent backslash (String quote EmptyString) _ s Hs).
    rewrite (replace_absent backslash (String backslash EmptyString) _ s Hs).
    reflexivity.
  - intros Ht. unfold _parse_value. rewrite Ht.
    destruct (PyStr.strip s) as [|c r]; [discriminate Ht|].
    injection Ht as Hc _.
    replace (PyStr.startswith (String quote EmptyString) (String c r)) with false.
    + reflexivity.
    + unfold PyStr.startswith. rewrite prefix_char.
      destruct (Ascii.eqb_spec c quote) as [->|_]; [discriminate Hc|reflexivity].
  - intros Ht. unfold _parse_value. rewrite Ht.
    destruct (PyStr.strip s) as [|c r]; [discriminate Ht|].
    injection Ht as Hc _.
    replace (PyStr.startswith (String quote EmptyString) (String c r)) with false.
    + reflexivity.
    + unfold PyStr.startswith. rewrite prefix_char.
      destruct (Ascii.eqb_spec c quote) as [->|_]; [discriminate Hc|reflexivity].
Qed.

End ValueProperties.

Lemma parse_value_kinds_witness :
  _parse_value (λ _, None) (quoted "outcome=success, a ") = VStr "outcome=success, a "
  ∧ _parse_value (λ _, None) " TRUE " = VBool true
  ∧ _parse_value (λ _, None) "False" = VBool false.
Proof.
  split; [|split].
  - apply (parse_value_kinds (λ _, None) "outcome=success, a "). reflexivity.
  - apply (parse_value_kinds (λ _, None) " TRUE "). reflexivity.
  - apply (parse_value_kinds (λ _, None) "False"). reflexivity.
Defined.

(** ** [run_pipeline.py]: the task table *)

Lemma on_event_store tid a st ev :
  Task._task_store (Task.on_event tid a st ev)
  = match Task._task_store st !! tid with
    | Some r =>
        <[tid := Task.mkRecord (Task.status r)
                   (Task.events (default r (Task._task_store (Task.on_event tid a st ev) !! tid)))
                   (Task.result r)]> (Task._task_store st)
    | None => Task._task_store st
    end.
Proof.
  unfold Task.on_event.
  destruct (Task._task_store st !! tid) as [r|]; [|reflexivity].
  destruct (Task.alloc _ _) as [copy h]. cbn [Task._task_store].
  now rewrite lookup_insert_eq.
Qed.

Lemma relay_store tid a evs : ∀ st rec,
  Task._task_store st !! tid = Some rec →
  let st' := fold_left (Task.on_event tid a) evs st in
  (∃ rec', Task._task_store st' !! tid = Some rec'
           ∧ Task.status rec' = Task.status rec ∧ Task.result rec' = Task.result rec)
  ∧ ∀ tid', tid' ≠ tid → Task._task_store st' !! tid' = Task._task_store st !! tid'.
Proof.
  induction evs as [|ev evs IH]; intros st rec Hs; cbn [fold_left].
  - split; [eauto|trivial].
  - pose proof (on_event_store tid a st ev) as Hstore. rewrite Hs in Hstore.
    set (st1 := Task.on_event tid a st ev) in *.
    assert (H1 : Task._task_store st1 !! tid
                 = Some (Task.mkRecord (Task.status rec)
                           (Task.events (default rec (Task._task_store st1 !! tid)))
                           (Task.result rec))).
    { rewrite Hstore at 1. apply lookup_insert_eq. }
    destruct (IH st1 _ H1) as [(rec' & Hr & Hst & Hres) Hother].
    split; [eauto|].
    intros tid' Hne. rewrite (Hother tid' Hne), Hstore. now apply lookup_insert_ne.
Qed.

(** X19. Whatever the run does, [run_task] settles its own task and no
    other: after an engine run that returns, the task has the status
    [completed] (also when the outcome is a failure) and a result whose
    [status] is [success] exactly for a SUCCESS outcome and which holds the
    document url and id found in the context and the failure reason; after
    a run that raises, the status is [failed] and the result holds the
    message of the exception. The entry of every other task is as it was. *)
Theorem run_task_settles {W : Type} (st : Task.state) (tid : string) (r : @Run W) :
  let st' := Task.run_task st tid r in
  (∃ rec,
     get_task st' tid = Some rec
     ∧ Task.status rec
       = match run_result r with
         | Ok _ => "completed"
         | Raise _ => "failed"
         end
     ∧ Task.result rec
       = Some match run_result r with
              | Ok outcome =>
                  [("feishu_doc_url", VStr (Context.get_string (run_ctx r) "feishu_doc_url"));
                   ("feishu_document_id",
                    VStr (Context.get_string (run_ctx r) "feishu_document_id"));
                   ("status",
                    VStr (if bool_decide (Outcome.status outcome = SUCCESS)
                          then "success" else "failed"));
                   ("failure_reason", VStr (Outcome.failure_reason outcome))]
              | Raise e =>
                  [("status", VStr "failed"); ("failure_reason", VStr (exn_message e))]
              end)
  ∧ ∀ tid', tid' ≠ tid → get_task st' tid' = get_task st tid'.
Proof.
  unfold get_task, Task.run_task, Task.alloc.
  set (a := length (Task.heap st)).
  set (st0 := Task.mkTasks _ _).
  assert (Hs0 : Task._task_store st0 !! tid = Some (Task.mkRecord "running" a None))
    by apply lookup_insert_eq.
  destruct (relay_store tid a (run_events r) st0 _ Hs0) as [(rec' & Hs & _ & _) Hother].
  set (st2 := fold_left _ _ _) in *.
  assert (Hsettle : ∀ new_status new_result,
    Task.settle st2 tid new_status new_result
    = Task.mkTasks (Task.heap st2)
        (<[tid := Task.mkRecord new_status (Task.events rec') (Some new_result)]>
           (Task._task_store st2))).
  { intros. unfold Task.settle. now rewrite Hs. }
  assert (H0 : ∀ tid', tid' ≠ tid → Task._task_store st0 !! tid' = Task._task_store st !! tid').
  { intros tid' Hne. subst st0. cbn [Task._task_store]. now apply lookup_insert_ne. }
  destruct (run_result r) as [outcome|e]; rewrite Hsettle; cbn [Task._task_store]; split.
  - eexists. rewrite lookup_insert_eq. split; [reflexivity|]. split; reflexivity.
  - intros tid' Hne. rewrite lookup_insert_ne by congruence.
    rewrite (Hother tid' Hne). now apply H0.
  - eexists. rewrite lookup_insert_eq. split; [reflexivity|]. split; reflexivity.
  - intros tid' Hne. rewrite lookup_insert_ne by congruence.
    rewrite (Hother tid' Hne). now apply H0.
Qed.

Lemma take_plus_drop {A : Type} (a b : nat) : ∀ l : list A,
  take (a + b) l = take a l ++ take b (drop a l).
Proof.
  induction a as [|a IH]; intros [|x l]; cbn; try reflexivity.
  - now rewrite take_nil.
  - now rewrite IH.
Qed.

Lemma py_slice_nat {A : Type} (s n : nat) (l : list A) :
  py_slice (Z.of_nat s) (Z.of_nat s + Z.of_nat n) l = take n (drop s l).
Proof.
  unfold py_slice.
  destruct (Z.ltb_spec (Z.of_nat s) 0); [lia|].
  destruct (Z.ltb_spec (Z.of_nat s + Z.of_nat n) 0); [lia|].
  set (len := length l).
  destruct (Nat.le_gt_cases len s) as [Hle|Hgt].
  - rewrite (drop_ge l s) by exact Hle.
    rewrite (drop_ge l (Z.to_nat _)) by (fold len; lia).
    now rewrite !take_nil.
  - replace (Z.to_nat (Z.min (Z.of_nat s) (Z.of_nat len))) with s by lia.
    destruct (Nat.le_gt_cases len (s + n)) as [Hle2|Hgt2].
    + rewrite !take_ge; [reflexivity| |]; rewrite length_drop; fold len; lia.
    + f_equal. lia.
Qed.

(** X20. [list_tasks] pages the tasks newest first: the total is the number
    of tasks for every page and size; page [p+1] of size [s] holds the rows
    of the [s] tasks that follow the first [p*s]; the pages 1 to [n] put
    together are the rows of the [n*s] newest tasks; page 0 is empty. A
    negative page is not refused: page [-k] counts from the other end and
    holds tasks among the oldest. *)
Theorem list_tasks_pages (items : list (string * Task.record)) :
  (∀ page size, (list_tasks items page size).2 = length items)
  ∧ (∀ page size : nat,
       (list_tasks items (Z.of_nat page + 1) (Z.of_nat size)).1
       = List.map (λ kv, task_row kv.1 kv.2)
           (take size (drop (page * size) (rev items))))
  ∧ (∀ n size : nat,
       flat_map (λ page, (list_tasks items (Z.of_nat page + 1) (Z.of_nat size)).1) (seq 0 n)
       = List.map (λ kv, task_row kv.1 kv.2) (take (n * size) (rev items)))
  ∧ (∀ size : nat, (list_tasks items 0 (Z.of_nat size)).1 = [])
  ∧ (∀ k size : nat,
       (1 ≤ k)%nat → (1 ≤ size)%nat → ((k + 1) * size ≤ length items)%nat →
       (list_tasks items (- Z.of_nat k) (Z.of_nat size)).1
       = List.map (λ kv, task_row kv.1 kv.2)
           (take size (drop (length items - (k + 1) * size) (rev items)))).
Proof.
  assert (Hpage : ∀ page size : nat,
    (list_tasks items (Z.of_nat page + 1) (Z.of_nat size)).1
    = List.map (λ kv, task_row kv.1 kv.2) (take size (drop (page * size) (rev items)))).
  { intros page size. unfold list_tasks. cbn [fst]. f_equal.
    replace ((Z.of_nat page + 1 - 1) * Z.of_nat size)%Z with (Z.of_nat (page * size)) by lia.
    apply py_slice_nat. }
  split; [|split; [exact Hpage|split; [|split]]].
  - intros page size. unfold list_tasks. cbn [snd]. apply length_rev.
  - intros n size. induction n as [|n IH]; [reflexivity|].
    rewrite seq_S, flat_map_app, IH. cbn [flat_map Nat.add]. rewrite app_nil_r, Hpage.
    rewrite <- map_app. f_equal.
    replace (S n * size)%nat with (n * size + size)%nat by lia.
    now rewrite take_plus_drop.
  - intros size. unfold list_tasks, py_slice. cbn [fst].
    set (len := Z.of_nat (length (rev items))).
    replace ((0 - 1) * Z.of_nat size + Z.of_nat size)%Z with 0%Z by lia.
    change (0 <? 0)%Z with false. cbv iota.
    rewrite (Z.min_l 0 len) by lia.
    set (s := if (_ <? 0)%Z then _ else _).
    assert (0 ≤ s)%Z.
    { subst s len. match goal with |- context [(?x <? 0)%Z] => destruct (Z.ltb_spec x 0) end; lia. }
    replace (Z.to_nat (0 - s)) with 0%nat by lia.
    reflexivity.
  - intros k size Hk Hsize Hlen. unfold list_tasks, py_slice. cbn [fst].
    rewrite length_rev. f_equal.
    assert (Hb : (1 ≤ k * size)%nat) by nia.
    set (len := length items) in *.
    replace ((- Z.of_nat k - 1) * Z.of_nat size)%Z
      with (- Z.of_nat ((k + 1) * size))%Z by lia.
    replace (- Z.of_nat ((k + 1) * size) + Z.of_nat size)%Z
      with (- Z.of_nat (k * size))%Z by lia.
    destruct (Z.ltb_spec (- Z.of_nat ((k + 1) * size)) 0); [|lia].
    destruct (Z.ltb_spec (- Z.of_nat (k * size)) 0); [|lia].
    rewrite !Z.max_l by lia.
    f_equal; [lia|]. f_equal. lia.
Qed.

Lemma list_tasks_pages_witness :
  List.map (λ row, dict_get row "task_id") (list_tasks three_tasks 1 2).1
  = [Some (VStr "t3"); Some (VStr "t2")]
  ∧ (list_tasks three_tasks (-1) 1).1
    = [[("task_id", VStr "t2"); ("status", VStr "failed");
        ("feishu_doc_url", VNone); ("failure_reason", VStr "boom")]].
Proof.
  destruct (list_tasks_pages three_tasks) as (_ & Hpage & _ & _ & Hneg).
  split.
  - change (list_tasks three_tasks 1 2)
      with (list_tasks three_tasks (Z.of_nat 0 + 1) (Z.of_nat 2)).
    rewrite (Hpage 0%nat 2%nat). reflexivity.
  - change (list_tasks three_tasks (-1) 1)
      with (list_tasks three_tasks (- Z.of_nat 1) (Z.of_nat 1)).
    rewrite (Hneg 1%nat 1%nat); [reflexivity|lia|lia|simpl; lia].
Defined.

(** ** [handlers/codergen.py] *)

Section CodergenProperties.
Context {W : Type} (mkdir : string → W → W).
Context (write_text : string → string → string → W → W).

Lemma take_empty n : PyStr.take n EmptyString = EmptyString.
Proof. destruct n; reflexivity. Qed.

(** json serializes the outcomes the handler builds itself. *)
Lemma write_status_built stage outcome context (w : W) :
  (∃ reason, outcome = Outcome.mk FAIL "" None None "" reason)
  ∨ (∃ node response, outcome = codergen_success node response) →
  ∃ w', write_status write_text stage outcome context w = (Ok outcome, context, w').
Proof.
  intros [[reason ->]|(node & response & ->)]; eexists; reflexivity.
Qed.

(** X21. The codergen handler never raises, whatever its backend does (the
    errors of the file system apart): without a backend it returns SUCCESS
    for the simulated response and leaves the context as it is; a text
    returned by the backend gives SUCCESS; an exception of the backend gives
    a FAIL outcome whose reason is the message of the exception. An [Outcome]
    returned by the backend is returned as it is when [json.dumps] serializes
    it; when [json.dumps] raises on it (a context update that json cannot
    serialize), the exception is caught like one of the backend, and the
    handler returns a FAIL outcome whose reason is its message in place of
    the outcome of the backend. The [last_response] update of an outcome the
    handler builds holds at most 200 characters. The backend is called with
    the prompt of the node (or its label) in which [$goal] is replaced. *)
Theorem codergen_never_raises (backend : option (@CodergenBackend W))
    (node : Node.t) (context : Context.t) (graph : Graph.t) (w : W) :
  ∃ outcome context' w',
    CodergenHandler_execute mkdir write_text backend node context graph w
    = (Ok outcome, context', w')
    ∧ match backend with
      | None =>
          outcome
          = codergen_success node ("[Simulated] Response for stage: " +:+ Node.id node)
          ∧ context' = context
      | Some run_backend =>
          match run_backend node (codergen_prompt node context graph) context
                  (write_text (Node.id node) "prompt.md"
                     (codergen_prompt node context graph) (mkdir (Node.id node) w)) with
          | (Ok (Result result), c, _) =>
              match dumps_outcome result with
              | Ok _ => outcome = result
              | Raise e => outcome = Outcome.mk FAIL "" None None "" (exn_message e)
              end
              ∧ context' = c
          | (Ok (Text response), c, _) =>
              outcome = codergen_success node response ∧ context' = c
          | (Raise e, c, _) =>
              outcome = Outcome.mk FAIL "" None None "" (exn_message e) ∧ context' = c
          end
      end
    ∧ ∀ response, outcome = codergen_success node response →
        ∃ kept, dict_get (default [] (Outcome.context_updates outcome)) "last_response"
                = Some (VStr kept)
                ∧ (String.length kept ≤ 200)%nat.
Proof.
  assert (Hkept : ∀ outcome response, outcome = codergen_success node response →
            ∃ kept, dict_get (default [] (Outcome.context_updates outcome)) "last_response"
                    = Some (VStr kept)
                    ∧ (String.length kept ≤ 200)%nat).
  { intros outcome response ->. eexists. split; [reflexivity|].
    rewrite string_length_take. lia. }
  assert (Htake : ∀ t, (if PyStr.truthy t then PyStr.take 200 t else "") = PyStr.take 200 t).
  { intros [|c t]; reflexivity. }
  assert (Hfail : ∀ e c w1,
            ∃ w', write_status write_text (Node.id node)
                    (Outcome.mk FAIL "" None None "" (exn_message e)) c w1
                  = (Ok (Outcome.mk FAIL "" None None "" (exn_message e)), c, w')).
  { intros e c w1. apply write_status_built. left. eauto. }
  assert (Hdone : ∀ response c w1,
            ∃ w', write_status write_text (Node.id node) (codergen_success node response) c w1
                  = (Ok (codergen_success node response), c, w')).
  { intros response c w1. apply write_status_built. right. eauto. }
  unfold CodergenHandler_execute. fold (codergen_prompt node context graph).
  destruct backend as [run_backend|].
  - destruct (run_backend _ _ _ _) as [[[[response|result]|e] c] w1].
    + rewrite Htake. fold (codergen_success node response).
      destruct (Hdone response c (write_text (Node.id node) "response.md" response w1))
        as [w' ->].
      eexists _, _, _. split; [reflexivity|]. split; [split; reflexivity|apply Hkept].
    + destruct (dumps_outcome result) as [text|e].
      * eexists _, _, _. split; [reflexivity|]. split; [split; reflexivity|apply Hkept].
      * destruct (Hfail e c w1) as [w' ->].
        eexists _, _, _. split; [reflexivity|]. split; [split; reflexivity|apply Hkept].
    + destruct (Hfail e c w1) as [w' ->].
      eexists _, _, _. split; [reflexivity|]. split; [split; reflexivity|apply Hkept].
  - rewrite Htake.
    fold (codergen_success node ("[Simulated] Response for stage: " +:+ Node.id node)).
    destruct (Hdone ("[Simulated] Response for stage: " +:+ Node.id node) context
                (write_text (Node.id node) "response.md"
                   ("[Simulated] Response for stage: " +:+ Node.id node)
                   (write_text (Node.id node) "prompt.md"
                      (codergen_prompt node context graph) (mkdir (Node.id node) w))))
      as [w' ->].
    eexists _, _, _. split; [reflexivity|]. split; [split; reflexivity|apply Hkept].
Qed.

End CodergenProperties.

Lemma codergen_never_raises_witness :
  let execute backend :=
    CodergenHandler_execute sample_mkdir sample_write (Some backend) (sample_node "work")
      Context.empty straight_graph [] in
  (∃ w', execute hoarding_backend
         = (Ok (Outcome.mk FAIL "" None None ""
                  "Object of type set is not JSON serializable"), Context.empty, w'))
  ∧ ∃ w', execute raising_backend
          = (Ok (Outcome.mk FAIL "" None None "" "no model for work"), Context.empty, w').
Proof.
  intros execute. split.
  - destruct (codergen_never_raises sample_mkdir sample_write (Some hoarding_backend)
                (sample_node "work") Context.empty straight_graph [])
      as (outcome & c & w' & Hex & Hout & _).
    vm_compute in Hout. destruct Hout as [-> ->]. exists w'. exact Hex.
  - destruct (codergen_never_raises sample_mkdir sample_write (Some raising_backend)
                (sample_node "work") Context.empty straight_graph [])
      as (outcome & c & w' & Hex & Hout & _).
    vm_compute in Hout. destruct Hout as [-> ->]. exists w'. exact Hex.
Defined.

(** ** [run_pipeline.py]: appending the blocks *)

Lemma string_app_assoc (a b c : string) : (a +:+ b) +:+ c = a +:+ (b +:+ c).
Proof. induction a as [|x a IH]; [now rewrite !app_nil_l|]. rewrite !app_cons. now rewrite IH. Qed.

Lemma find_app_list {A : Type} (f : A → bool) (l1 l2 : list A) :
  List.find f (l1 ++ l2)
  = match List.find f l1 with
    | Some x => Some x
    | None => List.find f l2
    end.
Proof. induction l1 as [|x l1 IH]; [reflexivity|]. simpl. now destruct (f x). Qed.

Lemma find_existsb {A : Type} (f : A → bool) (l : list A) :
  existsb f l = match List.find f l with Some _ => true | None => false end.
Proof. induction l as [|x l IH]; [reflexivity|]. simpl. now destruct (f x). Qed.

Section IsolationProperties.
Context {W B : Type}.
Context (append_document_blocks : string → string → string → list B → W → res unit * W).
Context (dumps_block : B → string).
Context (token document_id root_id : string).

(** Which batches the API rejects: those that hold a block it does not
    accept. *)
Context (bad : B → bool).
Hypothesis rejects : ∀ batch w,
  existsb bad batch = true →
  ∃ e w', append_document_blocks token document_id root_id batch w = (Raise e, w').
Hypothesis accepts : ∀ batch w,
  existsb bad batch = false →
  ∃ w', append_document_blocks token document_id root_id batch w = (Ok tt, w').

Lemma isolate_finds fuel : ∀ blocks prefix w b,
  (length blocks ≤ fuel)%nat →
  List.find bad blocks = Some b →
  ∃ path w',
    _isolate_and_raise append_document_blocks dumps_block fuel token document_id root_id
      blocks prefix w
    = Some (Raise (RuntimeError
                     (prefix +:+ path
                      +:+ " Feishu rejected a single block (invalid param). offending_block="
                      +:+ PyStr.take 4000 (dumps_block b))), w').
Proof.
  induction fuel as [|fuel IH]; intros blocks prefix w b Hlen Hfind.
  { destruct blocks; [discriminate Hfind|simpl in Hlen; lia]. }
  destruct blocks as [|x [|y rest]]; [discriminate Hfind| |].
  - simpl in Hfind. destruct (bad x); [|discriminate]. injection Hfind as <-.
    exists EmptyString, w. cbn [_isolate_and_raise]. now rewrite app_nil_l.
  - set (blocks := x :: y :: rest) in *.
    set (mid := (length blocks / 2)%nat).
    assert (Hmid : (1 ≤ mid < length blocks)%nat).
    { subst mid blocks. cbn [length].
      pose proof (Nat.div_lt (S (S (length rest))) 2 ltac:(lia) ltac:(lia)).
      pose proof (Nat.div_le_lower_bound (S (S (length rest))) 2 1 ltac:(lia) ltac:(lia)).
      lia. }
    assert (Hstep :
      _isolate_and_raise append_document_blocks dumps_block (S fuel) token document_id
        root_id blocks prefix w
      = match append_document_blocks token document_id root_id (take mid blocks) w with
        | (Raise _, w) =>
            _isolate_and_raise append_document_blocks dumps_block fuel token document_id
              root_id (take mid blocks) (prefix +:+ " left") w
        | (Ok _, w) =>
            match append_document_blocks token document_id root_id (drop mid blocks) w with
            | (Raise _, w) =>
                _isolate_and_raise append_document_blocks dumps_block fuel token document_id
                  root_id (drop mid blocks) (prefix +:+ " right") w
            | (Ok _, w) => Some (Ok tt, w)
            end
        end) by reflexivity.
    rewrite Hstep. clear Hstep.
    rewrite <- (take_drop mid blocks), find_app_list in Hfind.
    destruct (List.find bad (take mid blocks)) as [b'|] eqn:Hleft.
    + injection Hfind as ->.
      destruct (rejects (take mid blocks) w) as (e & w1 & ->).
      { now rewrite find_existsb, Hleft. }
      destruct (IH (take mid blocks) (prefix +:+ " left") w1 b) as (path & w' & ->);
        [rewrite length_take; subst blocks; cbn [length] in *; lia|assumption|].
      exists (" left" +:+ path), w'. now rewrite !string_app_assoc.
    + destruct (accepts (take mid blocks) w) as (w1 & ->).
      { now rewrite find_existsb, Hleft. }
      destruct (rejects (drop mid blocks) w1) as (e & w2 & ->).
      { now rewrite find_existsb, Hfind. }
      destruct (IH (drop mid blocks) (prefix +:+ " right") w2 b) as (path & w' & ->);
        [rewrite length_drop; subst blocks; cbn [length] in *; lia|assumption|].
      exists (" right" +:+ path), w'. now rewrite !string_app_assoc.
Qed.

(** X22. Suppose the API rejects exactly the batches that hold a block it
    does not accept. Then [_isolate_and_raise], called for a batch that
    holds such a block, raises [RuntimeError] naming the first such block of
    the batch (its JSON text, cut at 4000 characters, after the prefix and
    the path of halves taken); called for a batch of two or more blocks that
    holds none, it returns normally. The depth of the calls stays within the
    length of the batch. *)
Theorem isolation_names_first_offender (blocks : list B) (prefix : string) (w : W) :
  match List.find bad blocks with
  | Some b =>
      ∃ path w',
        _isolate_and_raise append_document_blocks dumps_block (S (length blocks)) token
          document_id root_id blocks prefix w
        = Some (Raise (RuntimeError
                         (prefix +:+ path
                          +:+ " Feishu rejected a single block (invalid param). offending_block="
                          +:+ PyStr.take 4000 (dumps_block b))), w')
  | None =>
      (2 ≤ length blocks)%nat →
      ∃ w',
        _isolate_and_raise append_document_blocks dumps_block (S (length blocks)) token
          document_id root_id blocks prefix w
        = Some (Ok tt, w')
  end.
Proof.
  destruct (List.find bad blocks) as [b|] eqn:Hfind.
  - apply isolate_finds; [lia|assumption].
  - intros Hlen. destruct blocks as [|x [|y rest]]; [simpl in Hlen; lia|simpl in Hlen; lia|].
    set (blocks := x :: y :: rest) in *.
    set (mid := (length blocks / 2)%nat).
    rewrite <- (take_drop mid blocks), find_app_list in Hfind.
    destruct (List.find bad (take mid blocks)) eqn:Hleft; [discriminate|].
    destruct (accepts (take mid blocks) w) as (w1 & H1).
    { now rewrite find_existsb, Hleft. }
    destruct (accepts (drop mid blocks) w1) as (w2 & H2).
    { now rewrite find_existsb, Hfind. }
    exists w2.
    change (_isolate_and_raise append_document_blocks dumps_block (S (length blocks)) token
              document_id root_id blocks prefix w)
      with (match append_document_blocks token document_id root_id (take mid blocks) w with
            | (Raise _, w) =>
                _isolate_and_raise append_document_blocks dumps_block (length blocks) token
                  document_id root_id (take mid blocks) (prefix +:+ " left") w
            | (Ok _, w) =>
                match append_document_blocks token document_id root_id (drop mid blocks) w with
                | (Raise _, w) =>
                    _isolate_and_raise append_document_blocks dumps_block (length blocks)
                      token document_id root_id (drop mid blocks) (prefix +:+ " right") w
                | (Ok _, w) => Some (Ok tt, w)
                end
            end).
    now rewrite H1, H2.
Qed.

End IsolationProperties.

Lemma isolation_names_first_offender_witness :
  (∃ path w',
     _isolate_and_raise sample_append sample_dumps_block 6 "" "" "" [1; 2; 13; 4; 13]%nat
       "batch_offset=0" []
     = Some (Raise (RuntimeError
                      ("batch_offset=0" +:+ path
                       +:+ " Feishu rejected a single block (invalid param). offending_block="
                       +:+ "13")), w'))
  ∧ _isolate_and_raise sample_append sample_dumps_block 6 "" "" "" [1; 2; 13; 4; 13]%nat
      "batch_offset=0" []
    = Some (Raise (RuntimeError
                     "batch_offset=0 right left Feishu rejected a single block (invalid param). offending_block=13"),
            [1; 2]%nat).
Proof.
  assert (Hrej : ∀ (batch : list nat) (w : list nat),
            existsb unwelcome batch = true →
            ∃ e w', sample_append "" "" "" batch w = (Raise e, w')).
  { intros batch w H. unfold sample_append. rewrite H. eauto. }
  assert (Hacc : ∀ (batch : list nat) (w : list nat),
            existsb unwelcome batch = false →
            ∃ w', sample_append "" "" "" batch w = (Ok tt, w')).
  { intros batch w H. unfold sample_append. rewrite H. eauto. }
  split; [|reflexivity].
  exact (isolation_names_first_offender sample_append sample_dumps_block "" "" ""
           unwelcome Hrej Hacc [1; 2; 13; 4; 13]%nat "batch_offset=0" []).
Defined.

Lemma chunks_concat {A : Type} (size : nat) (l : list A) : ∀ n,
  concat (List.map (λ i, take size (drop i l)) (List.map (λ k, k * size)%nat (seq 0 n)))
  = take (n * size) l.
Proof.
  induction n as [|n IH]; [reflexivity|].
  rewrite seq_S, !map_app, concat_app, IH. cbn [List.map concat Nat.add].
  rewrite app_nil_r.
  replace (S n * size)%nat with (n * size + size)%nat by lia.
  now rewrite take_plus_drop.
Qed.

Lemma batches_of_cover {B : Type} (blocks : list B) :
  concat (batches_of blocks) = blocks
  ∧ Forall (λ batch, (1 ≤ length batch ≤ BATCH_SIZE)%nat) (batches_of blocks).
Proof.
  unfold batches_of, range_step, BATCH_SIZE.
  set (len := length blocks). set (n := ((len + 50 - 1) / 50)%nat).
  assert (Hn : (len ≤ n * 50 ∧ n * 50 < len + 50)%nat).
  { subst n. pose proof (Nat.div_mod_eq (len + 50 - 1) 50).
    pose proof (Nat.mod_upper_bound (len + 50 - 1) 50 ltac:(lia)). lia. }
  split.
  - rewrite chunks_concat. apply take_ge. fold len. lia.
  - apply Forall_map, Forall_map. apply Forall_forall. intros k Hk.
    apply elem_of_seq in Hk. cbn beta.
    rewrite length_take, length_drop. fold len. split; nia.
Qed.

Section BatchProperties.
Context {W B : Type}.
Context (append_document_blocks : string → string → string → list B → W → res unit * W).
Context (dumps_block : B → string).
Context (token document_id root_id : string).

Hypothesis accepts_all : ∀ batch w,
  ∃ w', append_document_blocks token document_id root_id batch w = (Ok tt, w').

Lemma append_batches_all (blocks : list B) offsets : ∀ w,
  append_batches append_document_blocks dumps_block offsets token document_id root_id blocks w
  = Some (Ok tt,
          fold_left (λ w batch, (append_document_blocks token document_id root_id batch w).2)
            (List.map (λ i, take BATCH_SIZE (drop i blocks)) offsets) w).
Proof.
  induction offsets as [|i offsets IH]; intros w; [reflexivity|].
  cbn [append_batches List.map fold_left].
  destruct (accepts_all (take BATCH_SIZE (drop i blocks)) w) as (w' & ->).
  cbn [snd]. apply IH.
Qed.

(** X23. When the API accepts every batch, [_append_with_isolation] returns
    normally after sending the batches of the blocks one after the other;
    the batches put together are the blocks, in order, and every batch holds
    at least one block and at most 50. *)
Theorem append_in_batches (blocks : list B) (w : W) :
  _append_with_isolation append_document_blocks dumps_block token document_id root_id
    blocks w
  = Some (Ok tt,
          fold_left (λ w batch, (append_document_blocks token document_id root_id batch w).2)
            (batches_of blocks) w)
  ∧ concat (batches_of blocks) = blocks
  ∧ Forall (λ batch, (1 ≤ length batch ≤ BATCH_SIZE)%nat) (batches_of blocks).
Proof.
  split; [apply append_batches_all|apply batches_of_cover].
Qed.

End BatchProperties.

Lemma append_in_batches_witness :
  _append_with_isolation counting_append sample_dumps_block "" "" "" (seq 0 120) []
  = Some (Ok tt, [50; 50; 20]%nat).
Proof.
  destruct (append_in_batches counting_append sample_dumps_block "" "" ""
              (λ batch w, ex_intro _ _ eq_refl) (seq 0 120) []) as (H & _).
  rewrite H. reflexivity.
Defined.

Section IsolationSteps.
Context {W B : Type}.
Context (append_document_blocks : string → string → string → list B → W → res unit * W).
Context (dumps_block : B → string).
Context (token document_id root_id : string).

(** A call of [_isolate_and_raise] for two blocks or more. *)
Lemma isolate_step fuel (blocks : list B) prefix w :
  (2 ≤ length blocks)%nat →
  _isolate_and_raise append_document_blocks dumps_block (S fuel) token document_id root_id
    blocks prefix w
  = match append_document_blocks token document_id root_id
            (take (length blocks / 2) blocks) w with
    | (Raise _, w) =>
        _isolate_and_raise append_document_blocks dumps_block fuel token document_id
          root_id (take (length blocks / 2) blocks) (prefix +:+ " left") w
    | (Ok _, w) =>
        match append_document_blocks token document_id root_id
                (drop (length blocks / 2) blocks) w with
        | (Raise _, w) =>
            _isolate_and_raise append_document_blocks dumps_block fuel token document_id
              root_id (drop (length blocks / 2) blocks) (prefix +:+ " right") w
        | (Ok _, w) => Some (Ok tt, w)
        end
    end.
Proof.
  destruct blocks as [|x [|y rest]]; cbn [length]; [lia|lia|reflexivity].
Qed.

End IsolationSteps.

Lemma isolation_short_of_limit {B : Type} (dumps_block : B → string)
    (limit fuel : nat) (blocks : list B) (prefix : string) (w : list B) :
  let mid := (length blocks / 2)%nat in
  (1 ≤ limit)%nat → (limit < mid)%nat → (mid ≤ 2 * limit)%nat → (2 ≤ fuel)%nat →
  _isolate_and_raise (limited_append limit) dumps_block fuel "" "" "" blocks prefix w
  = Some (Ok tt, w ++ take mid blocks).
Proof.
  intros mid H1 H2 H3 Hfuel.
  assert (Hlen : (2 * mid ≤ length blocks)%nat).
  { subst mid. pose proof (Nat.div_mod_eq (length blocks) 2). lia. }
  assert (Hmid : (length blocks / 2)%nat = mid) by reflexivity.
  clearbody mid.
  destruct fuel as [|[|fuel]]; [lia|lia|].
  rewrite isolate_step by lia. rewrite Hmid.
  set (left := take mid blocks).
  assert (Hleft : length left = mid) by (subst left; rewrite length_take; lia).
  unfold limited_append at 1. rewrite Hleft.
  destruct (Nat.ltb_spec limit mid); [|lia].
  rewrite isolate_step by lia. rewrite Hleft.
  set (q := (mid / 2)%nat).
  assert (Hq : (q ≤ limit ∧ mid - q ≤ limit ∧ q ≤ mid)%nat).
  { subst q. pose proof (Nat.div_mod_eq mid 2).
    pose proof (Nat.mod_upper_bound mid 2 ltac:(lia)). lia. }
  clearbody q.
  unfold limited_append. rewrite length_take, length_drop, Hleft.
  destruct (Nat.ltb_spec limit (q `min` mid)); [lia|].
  destruct (Nat.ltb_spec limit (mid - q)); [lia|].
  now rewrite <- app_assoc, take_drop.
Qed.

(** X24. [_isolate_and_raise] can return normally with blocks left unsent.
    Against an API that rejects the batches of more than [limit] blocks
    (and nothing else), a batch whose first half exceeds the limit while
    the quarters do not is answered by sending the two quarters of the
    first half and returning: the second half is never sent and nothing is
    raised. [_append_with_isolation] then moves on to its next batch. *)
Theorem isolation_can_lose_blocks {B : Type} (dumps_block : B → string)
    (limit : nat) (blocks : list B) (prefix : string) (w : list B) :
  let mid := (length blocks / 2)%nat in
  (1 ≤ limit)%nat → (limit < mid)%nat → (mid ≤ 2 * limit)%nat →
  _isolate_and_raise (limited_append limit) dumps_block (S (length blocks)) "" "" ""
    blocks prefix w
  = Some (Ok tt, w ++ take mid blocks)
  ∧ (length (take mid blocks) < length blocks)%nat.
Proof.
  intros mid H1 H2 H3.
  assert (Hlen : (2 * mid ≤ length blocks)%nat).
  { subst mid. pose proof (Nat.div_mod_eq (length blocks) 2). lia. }
  split; [|rewrite length_take; lia].
  apply isolation_short_of_limit; lia.
Qed.

Lemma isolation_can_lose_blocks_witness :
  _isolate_and_raise (limited_append 20) sample_dumps_block 51 "" "" "" (seq 0 50)
    "batch_offset=0" []
  = Some (Ok tt, seq 0 25)
  ∧ _append_with_isolation (limited_append 20) sample_dumps_block "" "" "" (seq 0 50) []
    = Some (Ok tt, seq 0 25).
Proof.
  destruct (isolation_can_lose_blocks sample_dumps_block 20 (seq 0 50) "batch_offset=0" [])
    as [H _]; [lia|simpl; lia|simpl; lia|].
  split; [exact H|]. vm_compute. reflexivity.
Defined.

(** ** [markdown_parser.py] *)

Lemma span_app {A : Type} (p : A → bool) (l : list A) :
  l = (Md.span p l).1 ++ (Md.span p l).2.
Proof.
  induction l as [|x l IH]; [reflexivity|]. simpl.
  destruct (p x); [|reflexivity]. destruct (Md.span p l) as [a b]. simpl in *. now f_equal.
Qed.

Lemma span_all {A : Type} (p : A → bool) (l : list A) :
  Forall (λ x, p x = true) (Md.span p l).1.
Proof.
  induction l as [|x l IH]; [constructor|]. simpl.
  destruct (p x) eqn:Hx; [|constructor]. destruct (Md.span p l) as [a b]. simpl in *.
  now constructor.
Qed.

Lemma span_rest_length {A : Type} (p : A → bool) (l : list A) :
  (length (Md.span p l).2 ≤ length l)%nat.
Proof.
  rewrite (span_app p l) at 2. rewrite length_app. lia.
Qed.

Lemma span_head {A : Type} (p : A → bool) (x : A) (l : list A) :
  p x = true →
  ∃ a b, Md.span p (x :: l) = (x :: a, b) ∧ (length b ≤ length l)%nat.
Proof.
  intros Hx. simpl. rewrite Hx. pose proof (span_rest_length p l).
  destruct (Md.span p l) as [a b]. eauto.
Qed.

(** The line that reaches the last case of the loop starts no block. *)
Lemma paragraph_line line :
  PyStr.truthy (PyStr.strip line) = true →
  PyStr.startswith "#" (PyStr.strip line) = false →
  PyStr.startswith "```" (PyStr.strip line) = false →
  PyStr.startswith ">" (PyStr.strip line) = false →
  Md.is_rule (PyStr.strip line) = false →
  Md.is_bullet (PyStr.strip line) = false →
  Md.is_ordered (PyStr.strip line) = false →
  PyStr.truthy (PyStr.strip line) && negb (Md._is_block_start line) = true.
Proof.
  intros H0 H1 H2 H3 H4 H5 H6. unfold Md._is_block_start.
  now rewrite H0, H1, H2, H3, H4, H5, H6.
Qed.

(** The cases of a pass of the loop, for a tactic that goes through them. *)
Ltac parse_lines_cases line rest :=
  cbn [Md.parse_lines];
  destruct (PyStr.truthy (PyStr.strip line)) eqn:Htruthy; cbn [negb];
  [destruct (PyStr.startswith "#" (PyStr.strip line)) eqn:Hhash;
   [|destruct (PyStr.startswith "```" (PyStr.strip line)) eqn:Hfence;
     [|destruct (PyStr.startswith ">" (PyStr.strip line)) eqn:Hquote;
       [|destruct (Md.is_rule (PyStr.strip line)) eqn:Hrule;
         [|destruct (Md.is_bullet (PyStr.strip line)) eqn:Hbullet;
           [|destruct (Md.is_ordered (PyStr.strip line)) eqn:Hordered]]]]]|].

Lemma parse_lines_total fuel : ∀ lines out,
  (length lines < fuel)%nat → ∃ ast, Md.parse_lines fuel lines out = Some ast.
Proof.
  induction fuel as [|fuel IH]; intros lines out Hlen; [lia|].
  destruct lines as [|line rest]; [simpl; eauto|].
  cbn [length] in Hlen.
  parse_lines_cases line rest.
  - apply IH. lia.
  - pose proof (span_rest_length
      (λ l, negb (PyStr.startswith "```" (PyStr.strip l))) rest) as Hs.
    destruct (Md.span _ rest) as [code_lines rest']. cbn [snd] in Hs.
    apply IH. destruct rest'; cbn [length] in *; lia.
  - destruct (span_head (λ l, PyStr.startswith ">" (PyStr.strip l)) line rest Hquote)
      as (a & b & -> & Hb).
    apply IH. lia.
  - apply IH. lia.
  - destruct (span_head (λ l, Md.is_bullet (PyStr.strip l)) line rest Hbullet)
      as (a & b & -> & Hb).
    apply IH. lia.
  - destruct (span_head (λ l, Md.is_ordered (PyStr.strip l)) line rest Hordered)
      as (a & b & -> & Hb).
    apply IH. lia.
  - destruct (span_head
                (λ l, PyStr.truthy (PyStr.strip l) && negb (Md._is_block_start l))
                line rest (paragraph_line line Htruthy Hhash Hfence Hquote Hrule Hbullet
                             Hordered))
      as (a & b & -> & Hb).
    apply IH. lia.
  - apply IH. lia.
Qed.

(** X25. [parse_markdown_to_ast] terminates on every text: each pass of the
    loop moves past at least one line. In the last case of the loop this
    rests on [_is_block_start] rejecting exactly the lines the earlier
    cases accept, so that the paragraph it collects is never empty. *)
Theorem parse_markdown_terminates (markdown : string) :
  ∃ ast, Md.parse_markdown_to_ast markdown = Some ast.
Proof. apply parse_lines_total. lia. Qed.

Lemma join_nonempty sep x l : x ≠ EmptyString → Md.join sep (x :: l) ≠ EmptyString.
Proof.
  intros Hx. destruct x as [|c x]; [now destruct Hx|].
  destruct l; simpl; [discriminate|]. rewrite app_cons. discriminate.
Qed.

Lemma hash_level s :
  PyStr.startswith "#" s = true → (1 ≤ Re.span_len (λ c, Ascii.eqb c "#") s)%nat.
Proof.
  unfold PyStr.startswith. destruct s as [|c r]; [discriminate|].
  rewrite prefix_char. intros H. simpl. rewrite H. lia.
Qed.

Lemma parse_lines_well_formed fuel : ∀ lines out ast,
  Forall well_formed out →
  Md.parse_lines fuel lines out = Some ast → Forall well_formed ast.
Proof.
  induction fuel as [|fuel IH]; intros lines out ast Hout; [discriminate|].
  destruct lines as [|line rest]; [simpl; now intros [= <-]|].
  assert (Hadd : ∀ b, well_formed b → Forall well_formed (out ++ [b])).
  { intros b Hb. apply Forall_app. split; [assumption|]. now constructor. }
  parse_lines_cases line rest.
  - apply IH. destruct (Nat.leb_spec (Re.span_len (λ c, Ascii.eqb c "#") (PyStr.strip line)) 3);
      [|assumption].
    apply Hadd. cbn. pose proof (hash_level _ Hhash). lia.
  - destruct (Md.span _ rest) as [code_lines rest']. apply IH. now apply Hadd.
  - destruct (Md.span _ (line :: rest)) as [a b]. apply IH. now apply Hadd.
  - apply IH. now apply Hadd.
  - destruct (span_head (λ l, Md.is_bullet (PyStr.strip l)) line rest Hbullet)
      as (a & b & -> & Hb).
    apply IH. apply Hadd. discriminate.
  - destruct (span_head (λ l, Md.is_ordered (PyStr.strip l)) line rest Hordered)
      as (a & b & -> & Hb).
    apply IH. apply Hadd. discriminate.
  - destruct (span_head
                (λ l, PyStr.truthy (PyStr.strip l) && negb (Md._is_block_start l))
                line rest (paragraph_line line Htruthy Hhash Hfence Hquote Hrule Hbullet
                             Hordered))
      as (a & b & -> & Hb).
    apply IH. apply Hadd. cbn. apply join_nonempty.
    intros ->. discriminate Htruthy.
  - apply IH. assumption.
Qed.

(** X26. Every block of a parsed text is well formed: a heading has level
    1, 2 or 3, the text of a paragraph is not empty, and a list has at least
    one item. A line that opens with four or more hashes yields no block at
    all: the loop passes over it. *)
Theorem parsed_blocks_well_formed (markdown : string) :
  (∀ ast, Md.parse_markdown_to_ast markdown = Some ast → Forall well_formed ast)
  ∧ ∀ fuel line rest out,
      (3 < Re.span_len (λ c, Ascii.eqb c "#") (PyStr.strip line))%nat →
      Md.parse_lines (S fuel) (line :: rest) out = Md.parse_lines fuel rest out.
Proof.
  split.
  - intros ast. apply parse_lines_well_formed. constructor.
  - intros fuel line rest out Hdeep. cbn [Md.parse_lines].
    destruct (PyStr.strip line) as [|c r] eqn:Hs; [simpl in Hdeep; lia|].
    cbn [Re.span_len] in Hdeep. destruct (Ascii.eqb_spec c "#") as [->|]; [|lia].
    change (PyStr.truthy (String "#" r)) with true. cbn [negb].
    unfold PyStr.startswith at 1. rewrite prefix_char, Ascii.eqb_refl.
    cbn [Re.span_len]. rewrite Ascii.eqb_refl.
    destruct (Nat.leb_spec (S (Re.span_len (λ c, Ascii.eqb c "#") r)) 3); [lia|reflexivity].
Qed.

Lemma parsed_blocks_well_formed_witness :
  ∃ ast, Md.parse_markdown_to_ast sample_markdown = Some ast
         ∧ ast = [Md.Heading 1 "Title";
                  Md.Paragraph ("Some text" +:+ String newline "more text");
                  Md.BulletList ["one"; "two"];
                  Md.OrderedList ["first"; "second"];
                  Md.Blockquote "quoted";
                  Md.Hr;
                  Md.Code "sh" "make"]
         ∧ Forall well_formed ast.
Proof.
  eexists. split; [vm_compute; reflexivity|]. split; [reflexivity|].
  apply (proj1 (parsed_blocks_well_formed sample_markdown)). vm_compute. reflexivity.
Defined.

(** ** [block_converter.py] *)

Lemma string_take_drop n : ∀ s, PyStr.take n s +:+ PyStr.drop n s = s.
Proof.
  induction n as [|n IH]; intros [|c s]; try reflexivity.
  cbn [PyStr.take PyStr.drop]. rewrite app_cons. now rewrite IH.
Qed.

Lemma chunk_loop_pieces max_chars fuel : ∀ rest,
  (1 ≤ max_chars)%nat → (String.length rest ≤ fuel)%nat →
  ∃ pieces,
    Feishu.chunk_loop fuel max_chars rest = Some (List.map Feishu._feishu_text_block pieces)
    ∧ glue pieces = rest
    ∧ Forall (λ piece, (1 ≤ String.length piece ≤ max_chars)%nat) pieces.
Proof.
  induction fuel as [|fuel IH]; intros rest Hmax Hlen.
  - destruct rest; [|simpl in Hlen; lia]. exists []. repeat split. constructor.
  - destruct rest as [|c r]; [exists []; repeat split; constructor|].
    destruct (IH (PyStr.drop max_chars (String c r)) Hmax) as (pieces & Hloop & Hglue & Hall).
    { rewrite string_length_drop. cbn [String.length] in *. lia. }
    exists (PyStr.take max_chars (String c r) :: pieces).
    cbn [Feishu.chunk_loop]. rewrite Hloop. split; [reflexivity|]. split.
    + cbn [glue foldr]. unfold glue in Hglue. rewrite Hglue. apply string_take_drop.
    + constructor; [|assumption]. rewrite string_length_take. cbn [String.length]. lia.
Qed.

Lemma chunk_text_pieces (text : string) (max_chars : nat) :
  (1 ≤ max_chars)%nat →
  ∃ pieces,
    Feishu._chunk_text_to_blocks text max_chars
    = Some (List.map Feishu._feishu_text_block pieces)
    ∧ glue pieces = text
    ∧ Forall (λ piece, (String.length piece ≤ max_chars)%nat) pieces
    ∧ pieces ≠ [].
Proof.
  intros Hmax. unfold Feishu._chunk_text_to_blocks.
  destruct (Nat.leb_spec (String.length text) max_chars) as [Hle|Hgt].
  - exists [text]. split; [reflexivity|]. split.
    + cbn. clear. induction text as [|c t IH]; [reflexivity|]. rewrite app_cons. now rewrite IH.
    + split; [|discriminate]. now constructor.
  - destruct (chunk_loop_pieces max_chars (String.length text) text Hmax ltac:(lia))
      as (pieces & Hloop & Hglue & Hall).
    exists pieces. split; [assumption|]. split; [assumption|]. split.
    + eapply Forall_impl; [exact Hall|]. cbn. intros. lia.
    + intros ->. cbn in Hglue. subst text. simpl in Hgt. lia.
Qed.


(** X27. [_chunk_text_to_blocks] loses nothing: for a limit of at least one
    character it returns one text block or more, whose contents put
    together are the text, each content within the limit. *)
Theorem chunks_cover_text (text : string) (max_chars : nat) :
  (1 ≤ max_chars)%nat →
  ∃ pieces,
    Feishu._chunk_text_to_blocks text max_chars
    = Some (List.map Feishu._feishu_text_block pieces)
    ∧ glue pieces = text
    ∧ Forall (λ piece, (String.length piece ≤ max_chars)%nat) pieces
    ∧ pieces ≠ [].
Proof. apply chunk_text_pieces. Qed.

Lemma chunks_cover_text_witness :
  (∃ pieces,
     Feishu._chunk_text_to_blocks "abcdefgh" 3
     = Some (List.map Feishu._feishu_text_block pieces)
     ∧ glue pieces = "abcdefgh"
     ∧ Forall (λ piece, (String.length piece ≤ 3)%nat) pieces
     ∧ pieces ≠ [])
  ∧ Feishu._chunk_text_to_blocks "abcdefgh" 3
    = Some (List.map Feishu._feishu_text_block ["abc"; "def"; "gh"]).
Proof.
  split; [|reflexivity].
  apply (chunks_cover_text "abcdefgh" 3). lia.
Defined.

Lemma text_block_plain text : plain_block (Feishu._feishu_text_block text).
Proof. eexists _, _. split; [reflexivity|]. now left. Qed.

Lemma heading_block_plain level text :
  ∃ b, Feishu._feishu_heading_block level text = Ok b ∧ plain_block b.
Proof.
  unfold Feishu._feishu_heading_block.
  set (l := if (level <? 1)%Z then 1%Z else if (3 <? level)%Z then 3%Z else level).
  assert (Hl : (l = 1 ∨ l = 2 ∨ l = 3)%Z).
  { subst l. destruct (Z.ltb_spec level 1); [lia|]. destruct (Z.ltb_spec 3 level); lia. }
  clearbody l. destruct Hl as [-> | [-> | ->]]; cbn; eexists; (split; [reflexivity|]);
    eexists _, _; (split; [reflexivity|]); lia.
Qed.

Lemma blocks_for_node_plain node :
  ∃ blocks, Feishu._feishu_blocks_for_node node = Some (Ok blocks)
            ∧ Forall plain_block blocks.
Proof.
  destruct node as [level text|text|language text| |text|items|items];
    cbn [Feishu._feishu_blocks_for_node].
  - destruct (heading_block_plain level text) as (b & -> & Hb).
    eexists. split; [reflexivity|]. now constructor.
  - eexists. split; [reflexivity|]. constructor; [apply text_block_plain|constructor].
  - destruct (chunk_text_pieces
                (PyStr.rstrip ("```" +:+ PyStr.strip language) +:+ String newline text
                 +:+ String newline "```") 5000 ltac:(lia)) as (pieces & -> & _).
    eexists. split; [reflexivity|]. apply Forall_map, Forall_forall.
    intros piece _. apply text_block_plain.
  - eexists. split; [reflexivity|]. constructor; [|constructor].
    eexists _, _. split; [reflexivity|]. lia.
  - eexists. split; [reflexivity|]. constructor; [apply text_block_plain|constructor].
  - eexists. split; [reflexivity|]. apply Forall_map, Forall_forall.
    intros it _. apply text_block_plain.
  - eexists. split; [reflexivity|].
    generalize 1%Z. induction items as [|it items IH]; intros idx; cbn; constructor;
      [apply text_block_plain|apply IH].
Qed.

(** X28. [build_feishu_blocks_schema] never raises, whatever the AST and the
    filters: the subscript of [_feishu_heading_block] is always in range,
    since the level is clamped first. Every payload it returns is a text
    block, a heading of level 1 to 3 or a divider; the native code block
    (type 9) is never emitted. In particular every text parses and converts
    to such payloads. *)
Theorem built_blocks_plain (filters : option (gset string)) :
  (∀ ast, ∃ blocks,
     Feishu.build_feishu_blocks_schema ast filters = Some (Ok blocks)
     ∧ Forall plain_block blocks)
  ∧ ∀ markdown, ∃ ast blocks,
      Md.parse_markdown_to_ast markdown = Some ast
      ∧ Feishu.build_feishu_blocks_schema ast filters = Some (Ok blocks)
      ∧ Forall plain_block blocks.
Proof.
  assert (Hbuild : ∀ ast, ∃ blocks,
            Feishu.build_feishu_blocks_schema ast filters = Some (Ok blocks)
            ∧ Forall plain_block blocks).
  { intros ast. unfold Feishu.build_feishu_blocks_schema.
    assert (H : ∀ result, Forall plain_block result →
              ∃ blocks, Feishu.build_loop ast (default ∅ filters) result = Some (Ok blocks)
                        ∧ Forall plain_block blocks).
    { induction ast as [|node ast IH]; intros result Hres; [cbn; eauto|].
      cbn [Feishu.build_loop]. destruct (Feishu._skip_node node _); [now apply IH|].
      destruct (blocks_for_node_plain node) as (bs & -> & Hbs).
      apply IH. apply Forall_app. now split. }
    apply H. constructor. }
  split; [exact Hbuild|].
  intros markdown.
  destruct (parse_lines_total
              (S (length (PyStr.split (String newline EmptyString) markdown)))
              (PyStr.split (String newline EmptyString) markdown) [] ltac:(lia))
    as [ast Hast].
  destruct (Hbuild ast) as (blocks & Hb & Hp).
  exists ast, blocks. split; [exact Hast|]. now split.
Qed.

(** X29. What the filters skip: without filters nothing; whatever the
    filters, nothing but paragraphs. With [ci_status] every paragraph in
    whose text the letters [ci] occur, in any case and anywhere (inside a
    word too), is skipped; with [badge] every paragraph that holds [![ ]. *)
Theorem skip_node_filters :
  (∀ node, Feishu._skip_node node ∅ = false)
  ∧ (∀ node filters, (∀ text, node ≠ Md.Paragraph text) →
       Feishu._skip_node node filters = false)
  ∧ (∀ text filters,
       "ci_status" ∈ filters →
       PyStr.contains "ci" (PyStr.lower (PyStr.strip text)) = true →
       Feishu._skip_node (Md.Paragraph text) filters = true)
  ∧ (∀ text filters,
       "badge" ∈ filters →
       PyStr.contains "![ " (PyStr.strip text) = true →
       Feishu._skip_node (Md.Paragraph text) filters = true).
Proof.
  split; [|split; [|split]].
  - intros [| | | | | |]; reflexivity.
  - intros [| text | | | | |] filters H; try reflexivity. now destruct (H text).
  - intros text filters Hin Hci. unfold Feishu._skip_node.
    rewrite (bool_decide_eq_true_2 _ Hin), Hci.
    destruct (_ && _); [reflexivity|]. cbn [andb]. now rewrite !orb_true_r.
  - intros text filters Hin Hbadge. unfold Feishu._skip_node.
    rewrite (bool_decide_eq_true_2 _ Hin), Hbadge. reflexivity.
Qed.

Lemma skip_node_filters_witness :
  Feishu._skip_node (Md.Paragraph "A concise guide") {["ci_status"]} = true
  ∧ Feishu.build_feishu_blocks_schema
      [Md.Heading 7 "Guide"; Md.Paragraph "A concise guide"] (Some {["ci_status"]})
    = Some (Ok [JDict [("block_type", JInt 5);
                       ("heading3", Feishu._text_elements "Guide")]]).
Proof.
  split; [|vm_compute; reflexivity].
  destruct skip_node_filters as (_ & _ & H & _).
  apply H; [set_solver|reflexivity].
Defined.

(** ** [dot_parser.py]: an attribute with a quoted value *)

Lemma rev_app_rev_app s : ∀ cur acc,
  String.rev_app (String.rev_app s cur) acc = String.rev_app cur (s +:+ acc).
Proof.
  induction s as [|a s IH]; intros cur acc; [now rewrite app_nil_l|].
  cbn [String.rev_app]. rewrite IH. now rewrite app_cons.
Qed.

Lemma rev_app_last s a : ∀ acc,
  String.rev_app (s +:+ String a EmptyString) acc = String a (String.rev_app s acc).
Proof.
  induction s as [|c s IH]; intros acc; [now rewrite app_nil_l|].
  rewrite app_cons. cbn [String.rev_app]. apply IH.
Qed.

Lemma rev_app_head s : ∀ a cur,
  a ≠ backslash →
  PyStr.find (String backslash EmptyString) s = None →
  ∃ l t, String.rev_app s (String a cur) = String l t ∧ l ≠ backslash.
Proof.
  induction s as [|c s IH]; intros a cur Ha Hs; [cbn; eauto|].
  apply find_char_none_cons in Hs as [Hc Hs]. cbn [String.rev_app].
  apply IH; [|assumption]. intros ->. now rewrite Ascii.eqb_refl in Hc.
Qed.

Lemma lstrip_with_idem p s :
  PyStr.lstrip_with p (PyStr.lstrip_with p s) = PyStr.lstrip_with p s.
Proof.
  destruct (lstrip_with_head p s) as [->|(c & r & -> & Hc)]; [reflexivity|].
  cbn. now rewrite Hc.
Qed.

Lemma quoted_stripped s : PyStr.strip (quoted s) = quoted s.
Proof.
  replace (quoted s) with (String quote s +:+ String quote EmptyString)
    by (unfold quoted; now rewrite app_cons).
  unfold PyStr.strip. now rewrite strip_with_app by reflexivity.
Qed.

Section AttrBlock.
Variable py_float : string → option value.

Lemma parse_value_quoted s :
  PyStr.find (String backslash EmptyString) s = None →
  _parse_value py_float (quoted s) = VStr s.
Proof.
  intros Hs. unfold _parse_value. rewrite quoted_stripped.
  assert (Hlen : String.length (quoted s) = S (S (String.length s))).
  { unfold quoted. cbn [String.length]. now rewrite length_app_char, Nat.add_1_r. }
  assert (Hstart : PyStr.startswith (String quote EmptyString) (quoted s) = true).
  { unfold PyStr.startswith, quoted. now rewrite prefix_char, Ascii.eqb_refl. }
  assert (Hend : PyStr.endswith (String quote EmptyString) (quoted s) = true).
  { unfold PyStr.endswith. rewrite Hlen. cbn [String.length].
    replace (S (S (String.length s)) - 1)%nat with (S (String.length s)) by lia.
    unfold quoted. cbn [PyStr.drop]. rewrite drop_app. apply String.eqb_refl. }
  rewrite Hstart, Hend. cbn [andb]. f_equal.
  assert (Hslice : PyStr.slice 1 (String.length (quoted s) - 1) (quoted s) = s).
  { unfold PyStr.slice. rewrite Hlen.
    replace (S (S (String.length s)) - 1 - 1)%nat with (String.length s) by lia.
    unfold quoted. cbn [PyStr.drop]. apply take_app. }
  rewrite Hslice.
  rewrite (replace_absent backslash "n" _ s Hs).
  rewrite (replace_absent backslash "t" _ s Hs).
  rewrite (replace_absent backslash (String quote EmptyString) _ s Hs).
  rewrite (replace_absent backslash (String backslash EmptyString) _ s Hs).
  reflexivity.
Qed.

(** The loop over a run of characters that holds no quote and, outside
    quotes, no comma: the characters are collected. *)
Lemma attr_loop_run s : ∀ rest cur in_quote attrs,
  PyStr.find (String quote EmptyString) s = None →
  (in_quote = true ∨ PyStr.find "," s = None) →
  attr_loop py_float (s +:+ rest) cur in_quote attrs
  = attr_loop py_float rest (String.rev_app s cur) in_quote attrs.
Proof.
  induction s as [|c s IH]; intros rest cur in_quote attrs Hq Hc;
    [now rewrite app_nil_l|].
  apply find_char_none_cons in Hq as [Hcq Hq].
  rewrite app_cons. cbn [attr_loop String.rev_app]. rewrite Hcq. cbn [andb].
  destruct Hc as [->|Hc].
  - cbn [negb]. rewrite andb_false_r. apply IH; [assumption|now left].
  - apply find_char_none_cons in Hc as [Hcc Hc]. rewrite Hcc. cbn [andb].
    apply IH; [assumption|now right].
Qed.

(** X30. An attribute with a quoted value is read back as written: for a
    key without quote, comma and equals sign and a value without quote and
    backslash, the block [[key="value"]] gives the one attribute [key]
    (trimmed) with the value as it stands between the quotes; commas and
    equals signs inside the quotes do not split it. *)
Theorem quoted_attribute_round_trip (k v : string) :
  PyStr.contains (String quote EmptyString) k = false →
  PyStr.contains "," k = false →
  PyStr.contains "=" k = false →
  PyStr.contains (String quote EmptyString) v = false →
  PyStr.contains (String backslash EmptyString) v = false →
  _parse_attr_block py_float ("[" +:+ k +:+ String "=" (quoted v) +:+ "]")
  = {[PyStr.strip k := VStr v]}.
Proof.
  intros Hkq Hkc Hke Hvq Hvb.
  apply contains_find_none in Hkq, Hkc, Hke, Hvq, Hvb.
  set (k' := PyStr.lstrip k).
  assert (Hk'q : PyStr.find (String quote EmptyString) k' = None)
    by apply find_char_lstrip_with, Hkq.
  assert (Hk'c : PyStr.find "," k' = None) by apply find_char_lstrip_with, Hkc.
  assert (Hk'e : PyStr.find "=" k' = None) by apply find_char_lstrip_with, Hke.
  set (body := k +:+ String "=" (quoted v)).
  set (inner := k' +:+ String "=" (quoted v)).
  assert (Hcontent : "[" +:+ k +:+ String "=" (quoted v) +:+ "]"
                     = String "[" (body +:+ "]")).
  { rewrite app_cons, app_nil_l. f_equal. subst body. now rewrite string_app_assoc. }
  rewrite Hcontent. set (content := String "[" (body +:+ "]")).
  assert (Hstrip : PyStr.strip content = content).
  { subst content. rewrite <- app_cons. unfold PyStr.strip.
    rewrite strip_with_app by reflexivity. reflexivity. }
  assert (Hinner : PyStr.strip body = inner).
  { subst body. unfold PyStr.strip. rewrite strip_with_app by reflexivity.
    fold (PyStr.rstrip (quoted v)).
    replace (PyStr.rstrip (quoted v)) with (quoted v); [reflexivity|].
    unfold PyStr.rstrip, quoted. rewrite rstrip_with_keep by reflexivity.
    f_equal. symmetry. now rewrite rstrip_with_app by reflexivity. }
  unfold _parse_attr_block. rewrite Hstrip.
  assert (Hlen : String.length content = S (S (String.length body))).
  { subst content. cbn [String.length]. now rewrite length_app_char, Nat.add_1_r. }
  replace (negb (PyStr.truthy content) || String.eqb content "[]") with false.
  2:{ symmetry. apply orb_false_iff. split; [reflexivity|].
      apply String.eqb_neq. intros H. apply (f_equal String.length) in H.
      rewrite Hlen in H. subst body. unfold quoted in H.
      destruct k; [rewrite app_nil_l in H|rewrite app_cons in H]; cbn in H; lia. }
  assert (Hslice : PyStr.slice 1 (String.length content - 1) content = body).
  { unfold PyStr.slice. rewrite Hlen.
    replace (S (S (String.length body)) - 1 - 1)%nat with (String.length body) by lia.
    subst content. cbn [PyStr.drop]. apply take_app. }
  rewrite Hslice, Hinner. subst inner.
  (* the key and the equals sign *)
  replace (k' +:+ String "=" (quoted v))
    with ((k' +:+ "=") +:+ quoted v) by (now rewrite string_app_assoc, app_cons, app_nil_l).
  rewrite attr_loop_run.
  2:{ apply find_char_app_none; [assumption|reflexivity]. }
  2:{ right. apply find_char_app_none; [assumption|reflexivity]. }
  set (cur1 := String.rev_app (k' +:+ "=") EmptyString).
  assert (Hcur1 : ∃ t, cur1 = String "=" t).
  { subst cur1. rewrite rev_app_last. eauto. }
  destruct Hcur1 as [t1 Ht1].
  (* the opening quote *)
  unfold quoted at 1. cbn [attr_loop]. rewrite Ascii.eqb_refl. rewrite Ht1 at 1.
  change (negb (Ascii.eqb "=" backslash)) with true. cbn [andb negb].
  (* the value *)
  rewrite attr_loop_run; [|assumption|now left].
  destruct (rev_app_head v quote cur1 ltac:(discriminate) Hvb) as (l & t & Hcur3 & Hl).
  (* the closing quote *)
  cbn [attr_loop]. rewrite Ascii.eqb_refl. rewrite Hcur3 at 1.
  replace (Ascii.eqb l backslash) with false
    by (symmetry; now apply Ascii.eqb_neq).
  cbn [andb negb PyStr.truthy String.eqb].
  (* what has been collected *)
  assert (Hrev : String.rev (String quote (String.rev_app v (String quote cur1)))
                 = k' +:+ String "=" (quoted v)).
  { unfold String.rev. cbn [String.rev_app]. rewrite rev_app_rev_app.
    cbn [String.rev_app]. subst cur1. rewrite rev_app_rev_app. cbn [String.rev_app].
    rewrite string_app_assoc. unfold quoted. now rewrite app_cons, app_nil_l. }
  rewrite Hrev. unfold add_part.
  assert (Hpart : PyStr.strip (k' +:+ String "=" (quoted v)) = k' +:+ String "=" (quoted v)).
  { rewrite <- Hinner. apply strip_idem. }
  rewrite Hpart.
  pose proof (find_app_char "=" k' (quoted v) Hk'e) as Hfind.
  unfold PyStr.contains, PyStr.partition. rewrite Hfind.
  rewrite take_app.
  replace (PyStr.drop (String.length k' + String.length "=") (k' +:+ String "=" (quoted v)))
    with (quoted v).
  2:{ replace (k' +:+ String "=" (quoted v)) with ((k' +:+ "=") +:+ quoted v)
        by (now rewrite string_app_assoc, app_cons, app_nil_l).
      replace (String.length k' + String.length "=")%nat with (String.length (k' +:+ "="))
        by (now rewrite length_app_char).
      now rewrite drop_app. }
  rewrite quoted_stripped, parse_value_quoted by assumption.
  unfold k', PyStr.strip, PyStr.strip_with, PyStr.lstrip. rewrite lstrip_with_idem.
  reflexivity.
Qed.

End AttrBlock.

Lemma quoted_attribute_round_trip_witness :
  _parse_attr_block (λ _, None) ("[" +:+ " condition " +:+ String "=" (quoted "a=1, b") +:+ "]")
  = {["condition" := VStr "a=1, b"]}.
Proof.
  apply (quoted_attribute_round_trip (λ _, None) " condition " "a=1, b"); reflexivity.
Defined.
